(** * Claude Code Relay: the request bridge of [proxy/relay_server.py]

    A shallow embedding of the relay's helpers ([_parse_cwd_from_prompt],
    [_select_cwd], [_iter_sse], [count_tokens]) and of the streaming
    generator of [messages], followed by the properties of the
    natural-language specification that concern them.

    Conventions.
    - A Python [str] is the list of its Unicode code points ([list N]), so
      that [len], [strip] and the regular expression see the characters
      Python sees.  [u "abc"] is the literal ['abc'].
    - A value handled dynamically (a decoded JSON document, a payload given
      to [json.dumps]) is a [pyval].  A [dict] keeps its insertion order, as
      [json.dumps] prints it in that order: it is an association list whose
      keys are pairwise distinct, read with [dict_get].
    - Library calls whose result depends on the world outside the program
      ([json.loads], [int], [Path.exists], [Path.cwd], the clock, the
      subprocess) are Section variables or fields of an environment
      record; a call that can raise answers its result or its
      exception. *)

From Stdlib Require Import ZArith NArith QArith String Ascii List DecimalString.
From stdpp Require Import base option list gmap.

Set Warnings "-register-all".

Close Scope Q_scope.
#[local] Open Scope N_scope.

(** ** Python strings *)

Abbreviation pystr := (list N).

Definition u (s : string) : list N :=
  List.map N_of_ascii (list_ascii_of_string s).

#[global] Arguments u : simpl never.

Definition DQUOTE : N := 0x22.
Definition SQUOTE : N := 0x27.
Definition BACKSLASH : N := 0x5C.
Definition NEWLINE : N := 0x0A.

(** [str.isspace] on one character, which is also what [\s] matches in a
    [str] pattern: CPython's [_PyUnicode_IsWhitespace]. *)
Definition py_isspace (c : N) : bool :=
  ((0x09 <=? c) && (c <=? 0x0D)) || ((0x1C <=? c) && (c <=? 0x20))
  || (c =? 0x85) || (c =? 0xA0) || (c =? 0x1680)
  || ((0x2000 <=? c) && (c <=? 0x200A))
  || (c =? 0x2028) || (c =? 0x2029) || (c =? 0x202F) || (c =? 0x205F)
  || (c =? 0x3000).

Fixpoint lstrip_by (p : N → bool) (s : list N) : list N :=
  match s with
  | [] => []
  | c :: s' => if p c then lstrip_by p s' else s
  end.

Definition rstrip_by (p : N → bool) (s : list N) : list N :=
  reverse (lstrip_by p (reverse s)).

Definition strip_by (p : N → bool) (s : list N) : list N :=
  rstrip_by p (lstrip_by p s).

(** [s.strip()] *)
Definition py_strip (s : list N) : list N := strip_by py_isspace s.

Definition char_in (chars : list N) (c : N) : bool := existsb (N.eqb c) chars.

(** [s.strip(chars)] *)
Definition py_strip_chars (chars s : list N) : list N :=
  strip_by (char_in chars) s.

(** [sep.join(l)] on a list of strings *)
Fixpoint py_join (sep : list N) (l : list (list N)) : list N :=
  match l with
  | [] => []
  | [x] => x
  | x :: l' => x ++ sep ++ py_join sep l'
  end.

(** [str(n)] for an [int] *)
Definition py_str_int (n : Z) : list N :=
  u (NilZero.string_of_int (Z.to_int n)).

(** [s[-k:]] for [k > 0] *)
Definition py_last (k : nat) (s : list N) : list N :=
  drop (length s - k)%nat s.

(** ** Python values *)

(** The characters of the text [json.dumps] prints for a [float]:
    [float.__repr__] for a finite one, and [NaN], [Infinity], [-Infinity]. *)
Definition float_char (c : N) : bool :=
  char_in (u "0123456789+-.eNaInfity") c.

(** A [float] is carried by that text. *)
Record pyfloat := PyFloat {
  float_repr : list N;
  float_repr_chars : forallb float_char float_repr = true
}.

Inductive pyval :=
| PNone
| PBool (b : bool)
| PInt (n : Z)
| PFloat (f : pyfloat)
| PStr (s : list N)
| PList (l : list pyval)
| PDict (d : list (list N * pyval)).

Section pyval_induction.
Variable P : pyval → Prop.
Hypothesis Hnone : P PNone.
Hypothesis Hbool : ∀ b, P (PBool b).
Hypothesis Hint : ∀ n, P (PInt n).
Hypothesis Hfloat : ∀ f, P (PFloat f).
Hypothesis Hstr : ∀ s, P (PStr s).
Hypothesis Hlist : ∀ l, Forall P l → P (PList l).
Hypothesis Hdict : ∀ d, Forall (λ kv, P kv.2) d → P (PDict d).

Fixpoint pyval_nested_ind (v : pyval) : P v :=
  match v with
  | PNone => Hnone
  | PBool b => Hbool b
  | PInt n => Hint n
  | PFloat f => Hfloat f
  | PStr s => Hstr s
  | PList l =>
      Hlist l ((fix go (l : list pyval) : Forall P l :=
                  match l with
                  | [] => Forall_nil_2 P
                  | x :: l' => Forall_cons_2 P x l' (pyval_nested_ind x) (go l')
                  end) l)
  | PDict d =>
      Hdict d ((fix go (d : list (list N * pyval)) : Forall (λ kv, P kv.2) d :=
                  match d with
                  | [] => Forall_nil_2 _
                  | kv :: d' =>
                      Forall_cons_2 (λ kv, P kv.2) kv d'
                        (pyval_nested_ind kv.2) (go d')
                  end) d)
  end.
End pyval_induction.

(** [d.get(k)]: [None] when the key is absent *)
Fixpoint dict_get (d : list (list N * pyval)) (k : list N) : option pyval :=
  match d with
  | [] => None
  | (k', v) :: d' => if bool_decide (k' = k) then Some v else dict_get d' k
  end.

(** [d.get(k, dflt)] *)
Definition dict_get_or (d : list (list N * pyval)) (k : list N) (dflt : pyval) : pyval :=
  default dflt (dict_get d k).

(** Truth value of an object, as [or], [and] and [if] test it. *)
Definition py_truthy (v : pyval) : bool :=
  match v with
  | PNone => false
  | PBool b => b
  | PInt n => negb (n =? 0)%Z
  | PFloat f =>
      negb (bool_decide (float_repr f = u "0.0")
            || bool_decide (float_repr f = u "-0.0"))
  | PStr s => negb (bool_decide (s = []))
  | PList l => match l with [] => false | _ => true end
  | PDict d => match d with [] => false | _ => true end
  end.

(** [a == b] between a value and a [str] constant *)
Definition py_eq_str (v : pyval) (s : list N) : bool :=
  match v with
  | PStr s' => bool_decide (s' = s)
  | _ => false
  end.

(** ** [json.dumps(v, ensure_ascii=False)] *)

Definition hex_digit (n : N) : N := if n <? 10 then 0x30 + n else 0x57 + n.

(** One character of a string literal: [ESCAPE_DCT] of [json.encoder]. *)
Definition json_escape_char (c : N) : list N :=
  if c =? BACKSLASH then [BACKSLASH; BACKSLASH]
  else if c =? DQUOTE then [BACKSLASH; DQUOTE]
  else if c =? 0x08 then BACKSLASH :: u "b"
  else if c =? 0x0C then BACKSLASH :: u "f"
  else if c =? 0x0A then BACKSLASH :: u "n"
  else if c =? 0x0D then BACKSLASH :: u "r"
  else if c =? 0x09 then BACKSLASH :: u "t"
  else if c <? 0x20 then BACKSLASH :: u "u00" ++ [hex_digit (c / 16); hex_digit (c mod 16)]
  else [c].

Definition py_encode_basestring (s : list N) : list N :=
  DQUOTE :: flat_map json_escape_char s ++ [DQUOTE].

Fixpoint json_dumps (v : pyval) : list N :=
  match v with
  | PNone => u "null"
  | PBool true => u "true"
  | PBool false => u "false"
  | PInt n => py_str_int n
  | PFloat f => float_repr f
  | PStr s => py_encode_basestring s
  | PList l => u "[" ++ py_join (u ", ") (List.map json_dumps l) ++ u "]"
  | PDict d =>
      u "{"
      ++ py_join (u ", ")
           (List.map (λ kv, py_encode_basestring kv.1 ++ u ": " ++ json_dumps kv.2) d)
      ++ u "}"
  end.

(** ** The SSE encoder: [_iter_sse] *)

(** One element of [items]: the dict literal [{"event": ..., "data": ...}];
    [data] is [None] when the key is left out. *)
Record sse_item := SseItem {
  sse_event : list N;
  sse_data : option pyval
}.

(** The two strings the generator yields for one item. *)
Definition sse_frame (it : sse_item) : list (list N) :=
  let payload := default (PDict []) (sse_data it) in
  [ u "event: " ++ sse_event it ++ [NEWLINE];
    u "data: " ++ json_dumps payload ++ [NEWLINE; NEWLINE] ].

Definition _iter_sse (items : list sse_item) : list (list N) :=
  flat_map sse_frame items.

#[global] Arguments _iter_sse : simpl never.

(** ** Regular expressions: the fragment of [re] the relay uses

    A pattern is a sequence of items matched left to right by backtracking,
    as [sre] does: a literal character, a greedy repetition of a character
    class, and the parentheses of group 1. *)

Inductive re_item :=
| RLit (c : N)
| RStar (cls : N → bool)
| RPlus (cls : N → bool)
| ROpen
| RClose.

Definition ascii_lower (c : N) : N :=
  if (0x41 <=? c) && (c <=? 0x5A) then c + 32 else c.

(** A literal ASCII character [c] of the pattern against the character [ch]
    of the text under [re.I]: [sre] compares lower-cased characters, and a
    few characters outside ASCII lower-case to, or are declared equivalent
    to, the ASCII letters [k], [i] and [s]. *)
Definition lit_match_i (c ch : N) : bool :=
  let lo := ascii_lower c in
  (ascii_lower ch =? lo)
  || ((lo =? 0x6B) && (ch =? 0x212A))
  || ((lo =? 0x69) && ((ch =? 0x130) || (ch =? 0x131)))
  || ((lo =? 0x73) && (ch =? 0x17F)).

(** [.] without [re.S] *)
Definition re_dot (c : N) : bool := negb (c =? NEWLINE).

(** [cls*] followed by the continuation [k]: the longest run first. *)
Fixpoint re_greedy {R} (cls : N → bool) (k : list N → option R) (s : list N) : option R :=
  match s with
  | [] => k []
  | c :: s' =>
      if cls c then
        match re_greedy cls k s' with
        | Some r => Some r
        | None => k s
        end
      else k s
  end.

(** Match the items at the head of [s]; the result is the text of group 1.
    [opened] is the text from where the group was opened. *)
Fixpoint re_match_here (p : list re_item) (opened grp s : list N) : option (list N) :=
  match p with
  | [] => Some grp
  | RLit c :: p' =>
      match s with
      | ch :: s' => if lit_match_i c ch then re_match_here p' opened grp s' else None
      | [] => None
      end
  | RStar cls :: p' => re_greedy cls (re_match_here p' opened grp) s
  | RPlus cls :: p' =>
      match s with
      | ch :: s' => if cls ch then re_greedy cls (re_match_here p' opened grp) s' else None
      | [] => None
      end
  | ROpen :: p' => re_match_here p' s grp s
  | RClose :: p' => re_match_here p' opened (take (length opened - length s)%nat opened) s
  end.

(** [re.search]: the match at the leftmost position that has one. *)
Fixpoint re_search (p : list re_item) (text : list N) : option (list N) :=
  match re_match_here p [] [] text with
  | Some g => Some g
  | None =>
      match text with
      | [] => None
      | _ :: t => re_search p t
      end
  end.

(** ** The working-directory resolver *)

(** [r"Working directory:\s*(.+)"] with [flags=re.I] *)
Definition cwd_marker_re : list re_item :=
  List.map RLit (u "Working directory:") ++ [RStar py_isspace; ROpen; RPlus re_dot; RClose].

(** [g.strip().strip(...).strip(...)]: blanks, then double quotes, then
    single quotes, off both ends. *)
Definition clean_cwd (g : list N) : list N :=
  py_strip_chars [SQUOTE] (py_strip_chars [DQUOTE] (py_strip g)).

Definition _parse_cwd_from_prompt (text : list N) : option (list N) :=
  match re_search cwd_marker_re text with
  | None => None
  | Some g => Some (clean_cwd g)
  end.

(** The literal part of the marker stands at the head of [t]. *)
Fixpoint lits_match (lits t : list N) : bool :=
  match lits, t with
  | [], _ => true
  | c :: lits', ch :: t' => lit_match_i c ch && lits_match lits' t'
  | _ :: _, [] => false
  end.

Definition marker_at (t : list N) : bool := lits_match (u "Working directory:") t.

(** The built-in [CFG] *)
Definition CFG_default : gmap (list N) (list N) :=
  <[u "CODEX_WORKDIR" := []]>
  (<[u "CODEX_MAX_RUN_SEC" := u "0"]>
  (<[u "CODEX_IDLE_AFTER_TURN_SEC" := u "10"]>
  (<[u "RELAY_PRETTY_LOG" := u "1"]> ∅))).

(** [CFG.get(k, dflt)] *)
Definition cfg_get (CFG : gmap (list N) (list N)) (k dflt : list N) : list N :=
  default dflt (CFG !! k).

(** [line.split("=", 1)] on a line that holds an [=] *)
Fixpoint split_eq (line : list N) : option (list N * list N) :=
  match line with
  | [] => None
  | c :: rest =>
      if c =? 0x3D then Some ([], rest)
      else match split_eq rest with
           | Some (k, v) => Some (c :: k, v)
           | None => None
           end
  end.

(** The loop of [load_env] over the lines of the [.env] file *)
Fixpoint load_env_lines (lines : list (list N)) (CFG : gmap (list N) (list N))
  : gmap (list N) (list N) :=
  match lines with
  | [] => CFG
  | line :: rest =>
      let line := py_strip line in
      match line with
      | [] => load_env_lines rest CFG
      | c :: _ =>
          if c =? 0x23 then load_env_lines rest CFG
          else match split_eq line with
               | Some (k, v) => load_env_lines rest (<[py_strip k := py_strip v]> CFG)
               | None => load_env_lines rest CFG
               end
      end
  end.

(** The exceptions that occur in the program *)
Inductive py_exn :=
| ValueError
| AttributeError
| TypeError
| FileNotFoundError
| OSError
| RecursionError
| UnicodeEncodeError.

(** A [Path] object: [PathOf s] is [Path(s)], the path built from the
    string [s].  What [str] gives for it (the normal form of [s] on the
    platform) is left to the caller. *)
Inductive pypath :=
| PathOf (s : list N).

Section resolver.

(** [Path(p).exists()] on the file system the relay runs on: its answer,
    or the [OSError] of [stat] that [exists] does not swallow (a name that
    is too long, a directory that may not be searched).  [Path.cwd()]: the
    string [os.getcwd()] gives, or the error it raises (the directory was
    removed).  [CFG] as [load_env] left it. *)
Variable path_exists : list N → py_exn + bool.
Variable process_cwd : py_exn + list N.
Variable CFG : gmap (list N) (list N).

(** [s and Path(s).exists()], as an [if] tests it: [exists] is called
    only for a string that is not empty. *)
Definition named_and_exists (s : list N) : py_exn + bool :=
  if py_truthy (PStr s) then path_exists s else inr false.

Definition _select_cwd (prompt_text : list N) : py_exn + pypath :=
  let from_cwd :=
    match process_cwd with
    | inl e => inl e
    | inr d => inr (PathOf d)
    end in
  let from_env :=
    let env_cwd := py_strip (cfg_get CFG (u "CODEX_WORKDIR") []) in
    match named_and_exists env_cwd with
    | inl e => inl e
    | inr true => inr (PathOf env_cwd)
    | inr false => from_cwd
    end in
  match _parse_cwd_from_prompt prompt_text with
  | Some cand =>
      match named_and_exists cand with
      | inl e => inl e
      | inr true => inr (PathOf cand)
      | inr false => from_env
      end
  | None => from_env
  end.

Definition _pretty : bool :=
  bool_decide (cfg_get CFG (u "RELAY_PRETTY_LOG") (u "1") = u "1").

End resolver.

(** ** [POST /v1/messages/count_tokens] *)

Record http_json := HttpJson {
  http_status : Z;
  http_body : pyval
}.

Definition jsonify (body : pyval) : http_json := HttpJson 200 body.

(** [a or b] *)
Definition py_or (a b : pyval) : pyval := if py_truthy a then a else b.

(** [int(n / 4)] for a length [n]; the quotient is exact in a [float] for
    every length a request can have. *)
Definition int_div4 (n : nat) : Z := Z.of_nat n / 4.

(** The length in bytes of the UTF-8 encoding of a character, of a string *)
Definition utf8_char_len (c : N) : nat :=
  if c <? 0x80 then 1%nat else if c <? 0x800 then 2%nat
  else if c <? 0x10000 then 3%nat else 4%nat.

Definition utf8_len (s : list N) : nat := list_sum (List.map utf8_char_len s).

(** ** Effects of a request handler

    A handler or generator is run against its environment and gives the
    trace of what it did (chunks yielded to the client, log lines, calls on
    the subprocess) and either its result or the exception that left it. *)

Inductive effect :=
| Yield (chunk : list N)
| Log (msg : list N)
| Popen (cmd : list (list N)) (cwd : list N)
| StdinWrite (data : list N)
| StdinClose
| StdoutReadline
| StderrRead.

Definition gen (A : Type) : Type := (list effect * (py_exn + A))%type.

Definition gen_ret {A} (a : A) : gen A := ([], inr a).

Definition gen_bind {A B} (f : A → gen B) (m : gen A) : gen B :=
  match m with
  | (tr, inl e) => (tr, inl e)
  | (tr, inr a) => let '(tr', r) := f a in (tr ++ tr', r)
  end.

#[global] Instance gen_mret : MRet gen := @gen_ret.
#[global] Instance gen_mbind : MBind gen := @gen_bind.

Definition perform (e : effect) : gen unit := ([e], inr tt).

Definition raise {A} (e : py_exn) : gen A := ([], inl e).

(** [try: body / except: handler]; [handles] tells which exceptions the
    clause names. *)
Definition try_except {A} (body : gen A) (handles : py_exn → bool)
    (handler : gen A) : gen A :=
  match body with
  | (tr, inl e) =>
      if handles e then let '(tr', r) := handler in (tr ++ tr', r)
      else (tr, inl e)
  | (tr, inr a) => (tr, inr a)
  end.

Definition except_Exception (e : py_exn) : bool := true.

Definition except_FileNotFoundError (e : py_exn) : bool :=
  match e with
  | FileNotFoundError => true
  | _ => false
  end.

(** [yield from chunks] *)
Definition yield_from (chunks : list (list N)) : gen unit :=
  (Yield <$> chunks, inr tt).

(** [log]: the line, without its time stamp *)
Definition log (a : list (list N)) : gen unit :=
  perform (Log (py_join (u " ") a)).

(** [for x in l: f x], collecting what the body gives *)
Fixpoint gen_for {A B} (f : A → gen B) (l : list A) : gen (list B) :=
  match l with
  | [] => mret []
  | x :: l' => y ← f x; ys ← gen_for f l'; mret (y :: ys)
  end.

(** The chunks a trace yields, and what a generator has yielded *)
Definition chunks_of (tr : list effect) : list (list N) :=
  omap (λ e, match e with Yield c => Some c | _ => None end) tr.

Definition yielded {A} (g : gen A) : list (list N) := chunks_of g.1.

(** The calls on the pipes of the subprocess *)
Definition is_subprocess_io (e : effect) : bool :=
  match e with
  | StdinWrite _ | StdinClose | StdoutReadline | StderrRead => true
  | _ => false
  end.

(** ** The body of a request *)

(** What [json.loads] does with the body of a request: it gives a value,
    or it raises, with a message: a [ValueError] on a body that is not
    JSON or not UTF-8, a [RecursionError] on a body nested about a
    thousand levels deep. *)
Inductive loads_result :=
| Loads (v : pyval)
| LoadsRaises (e : py_exn) (msg : list N).

(** [except ValueError]: the class and its subclasses *)
Definition except_ValueError (e : py_exn) : bool :=
  match e with
  | ValueError | UnicodeEncodeError => true
  | _ => false
  end.

(** [request.get_json(force=True, silent=True)]: [silent] turns a
    [ValueError] of [json.loads] into [None] and lets every other
    exception through. *)
Definition get_json_silent (parsed : loads_result) : gen pyval :=
  match parsed with
  | Loads v => mret v
  | LoadsRaises e _ => if except_ValueError e then mret PNone else raise e
  end.

(** [str(e)] of the exception the [try] block of [count_tokens] raised *)
Definition loads_message (parsed : loads_result) : list N :=
  match parsed with
  | Loads _ => []
  | LoadsRaises _ msg => msg
  end.

(** [count_tokens].  In the [try] block only [get_json] can raise:
    [json.dumps] of a value [json.loads] gave, [len], the division and
    [jsonify] do not. *)
Definition count_tokens (parsed : loads_result) : gen http_json :=
  try_except
    (got ← get_json_silent parsed;
     let body := py_or got (PDict []) in
     let text := json_dumps body in
     let toks := Z.max 32 (int_div4 (length text)) in
     mret (jsonify (PDict [(u "input_tokens", PInt toks); (u "output_tokens", PInt 0)])))
    except_Exception
    (log [u "[count_tokens] error:"; loads_message parsed];;
     mret (jsonify (PDict [(u "input_tokens", PInt 128); (u "output_tokens", PInt 0)]))).

(** ** The event translator *)

(** [d.get(k)] as a value: [None] when the key is absent *)
Definition py_get (d : list (list N * pyval)) (k : list N) : pyval :=
  dict_get_or d k PNone.

Definition is_str (v : pyval) : bool :=
  match v with
  | PStr _ => true
  | _ => false
  end.

(** [a + b] where [b] is a [str]: only a [str] can be added to it. *)
Definition py_add_str (a : pyval) (b : list N) : gen (list N) :=
  match a with
  | PStr s => mret (s ++ b)
  | _ => raise TypeError
  end.

(** The branch [if _pretty(...)] of the [try] block, on the decoded event
    [ev]: the new [text_out] and [last_turn_completed].  [now] is what
    [time.time()] answers there. *)
Definition pretty_text (s : list N) (ev : pyval) (now : Q) (ltc : option Q)
  : gen (pyval * option Q) :=
  match ev with
  | PDict d =>
      let otherwise :=
        if py_eq_str (py_get d (u "type")) (u "turn.completed")
        then (PStr (u "[turn.completed]"), Some now)
        else (dict_get_or d (u "type") (PStr (u "event")), ltc) in
      if py_eq_str (py_get d (u "type")) (u "item.completed") then
        match py_get d (u "item") with
        | PDict it =>
            if (py_eq_str (py_get it (u "type")) (u "agent_message")
                || py_eq_str (py_get it (u "type")) (u "reasoning"))
               && is_str (py_get it (u "text"))
            then mret (py_get it (u "text"), ltc)
            else mret (PStr s, ltc)
        | _ => mret otherwise
        end
      else mret otherwise
  | _ => raise AttributeError
  end.

Section translator.

(** [json.loads] on a [str]: [None] when it raises. *)
Variable json_loads : list N → option pyval.
Variable CFG : gmap (list N) (list N).

(** Lines 170 to 186: [text_out = s], then the [try] block.  Whatever
    raises there raises before [last_turn_completed] is assigned, so the
    handler finds both variables as they were. *)
Definition translate (s : list N) (now : Q) (ltc : option Q) : gen (pyval * option Q) :=
  try_except
    (match json_loads s with
     | None => raise ValueError
     | Some ev =>
         if _pretty CFG then pretty_text s ev now ltc
         else mret (PStr s, ltc)
     end)
    except_Exception
    (mret (PStr s, ltc)).

(** ** The streaming generator *)

Definition text_delta (text : list N) : sse_item :=
  SseItem (u "content_block_delta")
    (Some (PDict [(u "type", PStr (u "content_block_delta"));
                  (u "index", PInt 0);
                  (u "delta", PDict [(u "type", PStr (u "text_delta"));
                                     (u "text", PStr text)])])).

Definition opening_items : list sse_item :=
  [ SseItem (u "message_start")
      (Some (PDict [(u "type", PStr (u "message_start"));
                    (u "message", PDict [(u "id", PStr (u "msg_1"));
                                         (u "type", PStr (u "message"));
                                         (u "role", PStr (u "assistant"))])]));
    SseItem (u "content_block_start")
      (Some (PDict [(u "type", PStr (u "content_block_start"));
                    (u "index", PInt 0);
                    (u "content_block", PDict [(u "type", PStr (u "text"));
                                               (u "text", PStr [])])])) ].

Definition closing_items : list sse_item :=
  [ SseItem (u "content_block_stop")
      (Some (PDict [(u "type", PStr (u "content_block_stop")); (u "index", PInt 0)]));
    SseItem (u "message_delta")
      (Some (PDict [(u "type", PStr (u "message_delta"));
                    (u "delta", PDict []);
                    (u "usage", PDict [(u "input_tokens", PInt 0);
                                       (u "output_tokens", PInt 0)])]));
    SseItem (u "message_stop")
      (Some (PDict [(u "type", PStr (u "message_stop"))])) ].

Definition codex_cmd : list (list N) :=
  [u "codex"; u "exec"; u "--json"; u "-"; u "--skip-git-repo-check"].

Definition codex_not_found : list N :=
  u "Codex CLI not found. Please `npm i -g @openai/codex` then `codex login`.".

(** What one turn of the read loop finds: the line [readline] returns,
    decoded, and what [time.time()] answers at each of its three calls
    (when [turn.completed] is seen, at the hard cutoff, at the idle
    cutoff).  A clock reading is the rational the [float] stands for. *)
Record line_in := LineIn {
  li_raw : list N;
  li_now_turn : Q;
  li_now_hard : Q;
  li_now_idle : Q
}.

Inductive popen_outcome :=
| Launched
| ExecutableNotFound
| LaunchFailed.

(** The subprocess and the clock, as one request meets them.  After the
    last of [stdout_lines], [readline] answers the empty bytes. *)
Record subprocess_env := SubprocessEnv {
  popen_result : popen_outcome;
  stdin_error : option (list N);
  clock_start : Q;
  stdout_lines : list line_in;
  stderr_tail : list N
}.

Definition Qlt_bool (a b : Q) : bool := negb (Qle_bool b a).

(** [hard_cut and (time.time() - start) > hard_cut] *)
Definition hard_cutoff (hard_cut : Z) (start now : Q) : bool :=
  negb (hard_cut =? 0)%Z && Qlt_bool (inject_Z hard_cut) (now - start)%Q.

(** [last_turn_completed and (time.time() - last_turn_completed) >= idle_after] *)
Definition idle_cutoff (idle_after : Z) (ltc : option Q) (now : Q) : bool :=
  match ltc with
  | None => false
  | Some t => negb (Qeq_bool t 0) && Qle_bool (inject_Z idle_after) (now - t)%Q
  end.

(** [subprocess.Popen(cmd, ..., cwd=str(workdir), shell=False)] *)
Definition popen (env : subprocess_env) (workdir : list N) : gen unit :=
  perform (Popen codex_cmd workdir);;
  match popen_result env with
  | Launched => mret tt
  | ExecutableNotFound => raise FileNotFoundError
  | LaunchFailed => raise OSError
  end.

(** [proc.stdin.write(codex_input); proc.stdin.close()] *)
Definition feed_prompt (env : subprocess_env) (prompt_text : list N) : gen unit :=
  try_except
    (perform (StdinWrite prompt_text);;
     match stdin_error env with
     | None => perform StdinClose
     | Some _ => raise OSError
     end)
    except_Exception
    (log [u "(relay) stdin error:"; default [] (stdin_error env)]).

Section read_loop.

Variable idle_after hard_cut : Z.
Variable start : Q.

(** The body of the [for] loop on one line that is not empty, up to the
    cutoff tests: the new [last_turn_completed]. *)
Definition handle_line (ln : line_in) (ltc : option Q) : gen (option Q) :=
  let s := py_strip (li_raw ln) in
  if py_truthy (PStr s) then
    '(text_out, ltc') ← translate s (li_now_turn ln) ltc;
    text ← py_add_str text_out [NEWLINE];
    yield_from (_iter_sse [text_delta text]);;
    mret ltc'
  else mret ltc.

(** The loop over [iter(proc.stdout.readline, ...)], which stops at the
    first empty read. *)
Fixpoint read_loop (lines : list line_in) (ltc : option Q) : gen unit :=
  match lines with
  | [] => perform StdoutReadline
  | ln :: rest =>
      perform StdoutReadline;;
      if bool_decide (li_raw ln = []) then mret tt
      else
        ltc' ← handle_line ln ltc;
        if hard_cutoff hard_cut start (li_now_hard ln) then
          log [u "(relay) hard cutoff after"; py_str_int hard_cut; u "sec"]
        else if idle_cutoff idle_after ltc' (li_now_idle ln) then
          log [u "(relay) turn completed, idle"; py_str_int idle_after;
               u "sec"; [0x2192]; u "close stream."]
        else read_loop rest ltc'
  end.

End read_loop.

(** [tail = proc.stderr.read()] and what follows it *)
Definition forward_stderr (env : subprocess_env) : gen unit :=
  perform StderrRead;;
  let tail := stderr_tail env in
  if py_truthy (PStr tail) then
    let t := py_last 2000 tail in
    if py_truthy (PStr (py_strip t)) then
      log [u "(relay) codex stderr tail:"; py_strip t];;
      yield_from (_iter_sse [text_delta ([NEWLINE] ++ u "[Codex stderr]" ++ [NEWLINE] ++ t)])
    else mret tt
  else mret tt.

(** The generator [generate] of [messages].  [launched] is false when the
    handler of [FileNotFoundError] has run, which ends in [return]. *)
Definition generate (prompt_text workdir : list N) (idle_after hard_cut : Z)
    (env : subprocess_env) : gen unit :=
  yield_from (_iter_sse opening_items);;
  log [u "(relay) spawning:"; py_join (u " ") codex_cmd];;
  launched ← try_except
    (popen env workdir;; mret true)
    except_FileNotFoundError
    (log [u "(relay) error:"; codex_not_found];;
     yield_from (_iter_sse [text_delta codex_not_found]);;
     yield_from (_iter_sse closing_items);;
     mret false);
  if launched : bool then
    feed_prompt env prompt_text;;
    read_loop idle_after hard_cut (clock_start env) (stdout_lines env) None;;
    forward_stderr env;;
    yield_from (_iter_sse closing_items)
  else mret tt.

(** ** The handler of [POST /v1/messages] *)

(** [int] on a [str]: [None] when it raises [ValueError]. *)
Variable py_int : list N → option Z.
Variable path_exists : list N → py_exn + bool.
Variable process_cwd : py_exn + list N.

(** [str(p)] of a [Path] *)
Variable path_str : pypath → list N.

(** What [for x in v] goes through; a value that is not iterable raises. *)
Definition py_iter (v : pyval) : gen (list pyval) :=
  match v with
  | PList l => mret l
  | PStr s => mret ((λ c, PStr [c]) <$> s)
  | PDict d => mret ((λ kv, PStr kv.1) <$> d)
  | _ => raise TypeError
  end.

(** What one message adds to [texts]: its [content] when that is a
    [str], the [text] of each part of type [text] when it is a list. *)
Definition message_texts (m : pyval) : gen (list pyval) :=
  match m with
  | PDict md =>
      match py_get md (u "content") with
      | PStr c => mret [PStr c]
      | PList parts =>
          mret (flat_map (λ part,
                  match part with
                  | PDict pd =>
                      if py_eq_str (py_get pd (u "type")) (u "text")
                      then [dict_get_or pd (u "text") (PStr [])]
                      else []
                  | _ => []
                  end) parts)
      | _ => mret []
      end
  | _ => raise AttributeError
  end.

(** [sep.join(texts)]: every element has to be a [str]. *)
Fixpoint py_join_vals (sep : list N) (texts : list pyval) : gen (list N) :=
  match texts with
  | [] => mret []
  | PStr x :: rest =>
      match rest with
      | [] => mret x
      | _ => tl ← py_join_vals sep rest; mret (x ++ sep ++ tl)
      end
  | _ => raise TypeError
  end.

(** Lines 98 to 109: the text of the prompt *)
Definition gather_prompt (parsed : loads_result) : gen (list N) :=
  got ← get_json_silent parsed;
  match py_or got (PDict []) with
  | PDict body =>
      ms ← py_iter (dict_get_or body (u "messages") (PList []));
      texts ← gen_for message_texts ms;
      py_join_vals [NEWLINE] (concat texts)
  | _ => raise AttributeError
  end.

(** [int(CFG.get(k, dflt) or dflt)] *)
Definition cfg_int (k dflt : list N) : gen Z :=
  let v := cfg_get CFG k dflt in
  match py_int (if py_truthy (PStr v) then v else dflt) with
  | Some n => mret n
  | None => raise ValueError
  end.

Definition idle_after_of_cfg : gen Z :=
  n ← cfg_int (u "CODEX_IDLE_AFTER_TURN_SEC") (u "10"); mret (Z.max 1 n).

Definition hard_cut_of_cfg : gen Z :=
  n ← cfg_int (u "CODEX_MAX_RUN_SEC") (u "0"); mret (Z.max 0 n).

(** The handler: what it does before it answers, and the generator it
    hands to [Response]. *)
Definition messages (parsed : loads_result) (env : subprocess_env) : gen (gen unit) :=
  prompt_text ← gather_prompt parsed;
  workdir ← match _select_cwd path_exists process_cwd CFG prompt_text with
            | inl e => raise e
            | inr p => mret p
            end;
  idle_after ← idle_after_of_cfg;
  hard_cut ← hard_cut_of_cfg;
  log [u "(relay) connecting to codex...";
       if _pretty CFG then u "(pretty mode)" else u "(raw)"];;
  log [u "(relay) using cwd: " ++ path_str workdir];;
  mret (generate prompt_text (path_str workdir) idle_after hard_cut env).

End translator.

(** ** Reference instances of the library calls

    The properties below hold for every [json_loads] and [py_int].  To run
    the model on concrete lines, [json_loads_ref] decodes JSON as
    [json.loads] does on the texts whose numbers are integers (it answers
    [None] on a number with a fraction or an exponent, which this model
    cannot print back), and [py_int_ref] reads an ASCII decimal numeral as
    [int] does. *)

Definition json_ws (c : N) : bool :=
  (c =? 0x20) || (c =? 0x09) || (c =? 0x0A) || (c =? 0x0D).

Definition skip_ws (s : list N) : list N := lstrip_by json_ws s.

Definition is_digit (c : N) : bool := (0x30 <=? c) && (c <=? 0x39).

Fixpoint span_digits (s : list N) : list N * list N :=
  match s with
  | [] => ([], [])
  | c :: s' =>
      if is_digit c then let '(ds, r) := span_digits s' in (c :: ds, r)
      else ([], s)
  end.

Definition digits_value (ds : list N) : Z :=
  fold_left (λ acc d, 10 * acc + Z.of_N (d - 0x30))%Z ds 0%Z.

Definition hex_value (c : N) : option N :=
  if is_digit c then Some (c - 0x30)
  else if (0x61 <=? c) && (c <=? 0x66) then Some (c - 0x57)
  else if (0x41 <=? c) && (c <=? 0x46) then Some (c - 0x37)
  else None.

Definition hex4 (a b c d : N) : option N :=
  x ← hex_value a; y ← hex_value b; z ← hex_value c; w ← hex_value d;
  Some (((x * 16 + y) * 16 + z) * 16 + w).

Definition simple_escape (e : N) : option N :=
  if e =? DQUOTE then Some DQUOTE
  else if e =? BACKSLASH then Some BACKSLASH
  else if e =? 0x2F then Some 0x2F
  else if e =? 0x62 then Some 0x08
  else if e =? 0x66 then Some 0x0C
  else if e =? 0x6E then Some 0x0A
  else if e =? 0x72 then Some 0x0D
  else if e =? 0x74 then Some 0x09
  else None.

Definition is_high_surrogate (c : N) : bool := (0xD800 <=? c) && (c <=? 0xDBFF).
Definition is_low_surrogate (c : N) : bool := (0xDC00 <=? c) && (c <=? 0xDFFF).

(** The string that starts after an opening quote, and what follows its
    closing quote. *)
Fixpoint json_string (s : list N) : option (list N * list N) :=
  match s with
  | [] => None
  | c :: s1 =>
      if c =? DQUOTE then Some ([], s1)
      else if c =? BACKSLASH then
        match s1 with
        | [] => None
        | e :: s2 =>
            if e =? 0x75 then
              match s2 with
              | h1 :: h2 :: h3 :: h4 :: s6 =>
                  uni ← hex4 h1 h2 h3 h4;
                  match s6 with
                  | b :: e' :: l1 :: l2 :: l3 :: l4 :: s12 =>
                      if is_high_surrogate uni && (b =? BACKSLASH) && (e' =? 0x75) then
                        uni2 ← hex4 l1 l2 l3 l4;
                        if is_low_surrogate uni2 then
                          '(str, r) ← json_string s12;
                          Some ((0x10000 + (uni - 0xD800) * 0x400 + (uni2 - 0xDC00)) :: str, r)
                        else '(str, r) ← json_string s6; Some (uni :: str, r)
                      else '(str, r) ← json_string s6; Some (uni :: str, r)
                  | _ => '(str, r) ← json_string s6; Some (uni :: str, r)
                  end
              | _ => None
              end
            else
              ch ← simple_escape e;
              '(str, r) ← json_string s2;
              Some (ch :: str, r)
        end
      else if c <? 0x20 then None
      else '(str, r) ← json_string s1; Some (c :: str, r)
  end.

Fixpoint strip_prefix (p s : list N) : option (list N) :=
  match p, s with
  | [], _ => Some s
  | a :: p', b :: s' => if a =? b then strip_prefix p' s' else None
  | _ :: _, [] => None
  end.

(** [d[k] = v] *)
Fixpoint dict_set (d : list (list N * pyval)) (k : list N) (v : pyval)
  : list (list N * pyval) :=
  match d with
  | [] => [(k, v)]
  | (k', v') :: d' =>
      if bool_decide (k' = k) then (k', v) :: d' else (k', v') :: dict_set d' k v
  end.

Definition json_constant (s : list N) : option (pyval * list N) :=
  match strip_prefix (u "null") s with
  | Some r => Some (PNone, r)
  | None =>
  match strip_prefix (u "true") s with
  | Some r => Some (PBool true, r)
  | None =>
  match strip_prefix (u "false") s with
  | Some r => Some (PBool false, r)
  | None =>
  match strip_prefix (u "NaN") s with
  | Some r => Some (PFloat (PyFloat (u "NaN") eq_refl), r)
  | None =>
  match strip_prefix (u "Infinity") s with
  | Some r => Some (PFloat (PyFloat (u "Infinity") eq_refl), r)
  | None =>
  match strip_prefix (u "-Infinity") s with
  | Some r => Some (PFloat (PyFloat (u "-Infinity") eq_refl), r)
  | None => None
  end end end end end end.

Definition json_number (s : list N) : option (pyval * list N) :=
  let '(neg, s1) :=
    match s with
    | c :: r => if c =? 0x2D then (true, r) else (false, s)
    | [] => (false, s)
    end in
  let finish (n : Z) (r : list N) : option (pyval * list N) :=
    let v := PInt (if neg then - n else n)%Z in
    match r with
    | c :: _ => if (c =? 0x2E) || (c =? 0x65) || (c =? 0x45) then None else Some (v, r)
    | [] => Some (v, r)
    end in
  match s1 with
  | d :: r =>
      if d =? 0x30 then finish 0%Z r
      else if is_digit d then
        let '(ds, r') := span_digits r in finish (digits_value (d :: ds)) r'
      else None
  | [] => None
  end.

Definition json_atom (s : list N) : option (pyval * list N) :=
  match json_number s with
  | Some r => Some r
  | None => json_constant s
  end.

Fixpoint json_value (fuel : nat) (s : list N) : option (pyval * list N) :=
  match fuel with
  | O => None
  | S fuel =>
      match s with
      | [] => None
      | c :: s1 =>
          if c =? DQUOTE then '(str, r) ← json_string s1; Some (PStr str, r)
          else if c =? 0x7B then
            match skip_ws s1 with
            | c1 :: r => if c1 =? 0x7D then Some (PDict [], r)
                         else json_members fuel (c1 :: r) []
            | [] => None
            end
          else if c =? 0x5B then
            match skip_ws s1 with
            | c1 :: r => if c1 =? 0x5D then Some (PList [], r)
                         else json_elements fuel (c1 :: r) []
            | [] => None
            end
          else json_atom s
      end
  end
with json_members (fuel : nat) (s : list N) (acc : list (list N * pyval))
  : option (pyval * list N) :=
  match fuel with
  | O => None
  | S fuel =>
      match s with
      | [] => None
      | c :: s1 =>
          if c =? DQUOTE then
            '(k, r1) ← json_string s1;
            match skip_ws r1 with
            | c2 :: r2 =>
                if c2 =? 0x3A then
                  '(v, r3) ← json_value fuel (skip_ws r2);
                  let acc' := dict_set acc k v in
                  match skip_ws r3 with
                  | c4 :: r4 =>
                      if c4 =? 0x7D then Some (PDict acc', r4)
                      else if c4 =? 0x2C then json_members fuel (skip_ws r4) acc'
                      else None
                  | [] => None
                  end
                else None
            | [] => None
            end
          else None
      end
  end
with json_elements (fuel : nat) (s : list N) (acc : list pyval)
  : option (pyval * list N) :=
  match fuel with
  | O => None
  | S fuel =>
      '(v, r1) ← json_value fuel s;
      match skip_ws r1 with
      | c2 :: r2 =>
          if c2 =? 0x5D then Some (PList (acc ++ [v]), r2)
          else if c2 =? 0x2C then json_elements fuel (skip_ws r2) (acc ++ [v])
          else None
      | [] => None
      end
  end.

Definition json_loads_ref (s : list N) : option pyval :=
  match json_value (S (2 * length s)) (skip_ws s) with
  | Some (v, r) => match skip_ws r with [] => Some v | _ => None end
  | None => None
  end.

(** The digits of a numeral after its first: a digit, or an underscore
    followed by a digit. *)
Fixpoint int_digits (s : list N) (acc : Z) : option Z :=
  match s with
  | [] => Some acc
  | c :: s1 =>
      if is_digit c then int_digits s1 (10 * acc + Z.of_N (c - 0x30))%Z
      else if c =? 0x5F then
        match s1 with
        | d :: s2 =>
            if is_digit d then int_digits s2 (10 * acc + Z.of_N (d - 0x30))%Z
            else None
        | [] => None
        end
      else None
  end.

Definition py_int_ref (s : list N) : option Z :=
  let s := py_strip s in
  let '(neg, s1) :=
    match s with
    | c :: r => if c =? 0x2D then (true, r)
                else if c =? 0x2B then (false, r) else (false, s)
    | [] => (false, s)
    end in
  match s1 with
  | d :: r =>
      if is_digit d then
        n ← int_digits r (Z.of_N (d - 0x30));
        Some (if neg then - n else n)%Z
      else None
  | [] => None
  end.

(** A line of JSON text from pieces: [q s] is [s] between double quotes. *)
Definition q (s : string) : list N := DQUOTE :: u s ++ [DQUOTE].

(** ** Vocabulary of the properties *)

Definition no_newline (s : list N) : Prop := Forall (λ c, c ≠ NEWLINE) s.

(** The ends of [p] are neither double nor single quotes. *)
Definition plain_ends (p : list N) : Prop :=
  ∃ a b, head p = Some a ∧ last p = Some b
         ∧ a ≠ DQUOTE ∧ a ≠ SQUOTE ∧ b ≠ DQUOTE ∧ b ≠ SQUOTE.

(** A literal in which ['] stands for the double quote *)
Definition dq (s : string) : list N :=
  (λ c, if c =? SQUOTE then DQUOTE else c) <$> u s.

(** A candidate directory passes the test of [_select_cwd]; it fails the
    test (it is empty, and then [exists] is not called, or [exists]
    answers [False]); the test raises. *)
Definition usable (path_exists : list N → py_exn + bool) (c : list N) : Prop :=
  c ≠ [] ∧ path_exists c = inr true.

Definition unusable (path_exists : list N → py_exn + bool) (c : list N) : Prop :=
  c = [] ∨ path_exists c = inr false.

Definition test_raises (path_exists : list N → py_exn + bool) (c : list N)
    (e : py_exn) : Prop :=
  c ≠ [] ∧ path_exists c = inl e.

(** [Path.cwd()] *)
Definition path_cwd (process_cwd : py_exn + list N) : py_exn + pypath :=
  match process_cwd with
  | inl e => inl e
  | inr d => inr (PathOf d)
  end.

(** The answer of [count_tokens] with [n] input tokens *)
Definition tokens_answer (n : Z) : http_json :=
  HttpJson 200 (PDict [(u "input_tokens", PInt n); (u "output_tokens", PInt 0)]).

(** The number of calls of [readline] in a trace *)
Definition readlines (tr : list effect) : nat :=
  length (List.filter (λ e, match e with StdoutReadline => true | _ => false end) tr).

(** A line that holds a JSON object whose [type] is [null], and one whose
    [type] is [turn.completed] *)
Definition null_kind_line : list N :=
  u "{" ++ q "type" ++ u ": null}" ++ [NEWLINE].

Definition turn_completed_line : list N :=
  u "{" ++ q "type" ++ u ":" ++ q "turn.completed" ++ u "}" ++ [NEWLINE].

(** An [item.completed] event with an [agent_message], one with an item
    of another type, and an event of a kind the relay does not know *)
Definition agent_message_event : list N :=
  u "{" ++ q "type" ++ u ":" ++ q "item.completed" ++ u "," ++ q "item" ++ u ":{"
  ++ q "type" ++ u ":" ++ q "agent_message" ++ u "," ++ q "text" ++ u ":" ++ q "hi"
  ++ u "}}".

Definition command_item_event : list N :=
  u "{" ++ q "type" ++ u ":" ++ q "item.completed" ++ u "," ++ q "item" ++ u ":{"
  ++ q "type" ++ u ":" ++ q "command_execution" ++ u "," ++ q "text" ++ u ":" ++ q "ls"
  ++ u "}}".

Definition unknown_kind_event : list N :=
  u "{" ++ q "type" ++ u ":" ++ q "unknown_kind" ++ u "}".

(** A file system with two directories, and a configuration that names
    one of them *)
Definition two_dirs (p : list N) : py_exn + bool :=
  inr (bool_decide (p = u "/tmp/x") || bool_decide (p = u "/srv/work")).

(** A file system without directories, on which [stat] fails for a name
    of more than 255 characters; a prompt whose marker line is longer. *)
Definition name_max_fs (p : list N) : py_exn + bool :=
  if (255 <? length p)%nat then inl OSError else inr false.

Definition long_marker_prompt : list N :=
  u "Working directory: " ++ replicate 300 0x61.

(** [str] of a path that was built from its normal form *)
Definition path_text (p : pypath) : list N :=
  match p with
  | PathOf s => s
  end.

Definition CFG_workdir : gmap (list N) (list N) :=
  <[u "CODEX_WORKDIR" := u " /srv/work "]> CFG_default.


(** ** Vocabulary of the further properties *)

(** What one line of the [.env] file assigns, if anything: the test of
    [load_env] on the stripped line, then the split at the first [=]. *)
Definition env_assignment (line : list N) : option (list N * list N) :=
  match py_strip line with
  | [] => None
  | c :: l =>
      if c =? 0x23 then None
      else match split_eq (c :: l) with
           | Some (k, v) => Some (py_strip k, py_strip v)
           | None => None
           end
  end.

(** The texts a list of content parts gives: a dict part of type [text]
    with a string [text] gives it, a part that is not a dict or is of
    another type gives nothing. *)
Inductive parts_texts : list pyval → list (list N) → Prop :=
| parts_nil : parts_texts [] []
| parts_text pd t parts ts :
    dict_get pd (u "type") = Some (PStr (u "text")) →
    dict_get pd (u "text") = Some (PStr t) →
    parts_texts parts ts →
    parts_texts (PDict pd :: parts) (t :: ts)
| parts_other_type pd parts ts :
    py_eq_str (py_get pd (u "type")) (u "text") = false →
    parts_texts parts ts →
    parts_texts (PDict pd :: parts) ts
| parts_not_dict p parts ts :
    (∀ pd, p ≠ PDict pd) →
    parts_texts parts ts →
    parts_texts (p :: parts) ts.

(** The texts a message gives: its [content] when that is a string, the
    texts of its parts when that is a list. *)
Inductive message_gives : pyval → list (list N) → Prop :=
| message_str md c :
    dict_get md (u "content") = Some (PStr c) →
    message_gives (PDict md) [c]
| message_parts md parts ts :
    dict_get md (u "content") = Some (PList parts) →
    parts_texts parts ts →
    message_gives (PDict md) ts.

(** The non-blank lines of the subprocess, stripped, up to the first
    empty read *)
Fixpoint forwarded_lines (lines : list line_in) : list (list N) :=
  match lines with
  | [] => []
  | ln :: rest =>
      if bool_decide (li_raw ln = []) then []
      else
        let s := py_strip (li_raw ln) in
        if bool_decide (s = []) then forwarded_lines rest
        else (s ++ [NEWLINE]) :: forwarded_lines rest
  end.

Fixpoint reads_until_empty (lines : list line_in) : nat :=
  match lines with
  | [] => 1
  | ln :: rest => if bool_decide (li_raw ln = []) then 1 else S (reads_until_empty rest)
  end.

(** Two runs that yield the same chunks and end the same way *)
Definition same_stream {A} (g1 g2 : gen A) : Prop :=
  chunks_of g1.1 = chunks_of g2.1 ∧ g1.2 = g2.2.



(** * The profile switcher: [cc_env_switcher.py]

    The settings files hold JSON objects; a switch rewrites the [env]
    object and the [meta] object of every settings file it finds.  The
    file system, the environment of the process and the answer of the
    relay's health check are what the switcher is run against, and so is
    what [_save] does: it can raise.  The four settings paths are four
    files (the project directory is not the home directory); the tests
    that a file exists do not raise, and a file that exists can be
    read. *)

(** ** Operations on a [dict] *)

(** [d.pop(k, None)]; the keys of a dict are pairwise distinct, so this
    drops the entry of [k]. *)
Definition dict_pop (d : list (list N * pyval)) (k : list N) : list (list N * pyval) :=
  List.filter (λ kv, negb (bool_decide (kv.1 = k))) d.

(** [d.update(kvs)] *)
Definition dict_update (d kvs : list (list N * pyval)) : list (list N * pyval) :=
  foldl (λ d kv, dict_set d kv.1 kv.2) d kvs.

(** [d.setdefault(k, v)], for the dict it leaves *)
Definition dict_setdefault (d : list (list N * pyval)) (k : list N) (v : pyval)
  : list (list N * pyval) :=
  match dict_get d k with
  | Some _ => d
  | None => dict_set d k v
  end.

(** [s.startswith(p)] *)
Definition startswith (p s : list N) : bool :=
  match strip_prefix p s with
  | Some _ => true
  | None => false
  end.

(** ** [_wipe_env] *)

Definition keys_to_clear : list (list N) :=
  [ u "ANTHROPIC_AUTH_TOKEN"; u "ANTHROPIC_BASE_URL"; u "API_TIMEOUT_MS";
    u "ANTHROPIC_DEFAULT_HAIKU_MODEL"; u "ANTHROPIC_DEFAULT_SONNET_MODEL";
    u "ANTHROPIC_DEFAULT_OPUS_MODEL"; u "ZAI_API_KEY"; u "GLM_API_KEY";
    u "CLAUDE_CODE_API_KEY_HELPER_COMMAND"; u "CLAUDE_CODE_API_KEY_HELPER_TTL_MS" ].

Definition _wipe_env (env : pyval) : list (list N * pyval) :=
  match env with
  | PDict d => foldl dict_pop d keys_to_clear
  | _ => []
  end.

(** ** [_parse_env_args] *)

(** What a token after [--env] adds to [extra]. *)
Definition add_env_pair (pair : list N) (extra : list (list N * pyval))
  : list (list N * pyval) :=
  match split_eq pair with
  | Some (k, v) =>
      let k := py_strip k in
      let v := py_strip v in
      if py_truthy (PStr k) then dict_set extra k (PStr v) else extra
  | None => extra
  end.

(** The two nested loops, from the token the index stands at; [in_env]
    tells that the inner loop is running. *)
Fixpoint parse_env_args_from (in_env : bool) (argv : list (list N))
    (clean : list (list N)) (extra : list (list N * pyval))
  : list (list N) * list (list N * pyval) :=
  match argv with
  | [] => (clean, extra)
  | token :: rest =>
      if in_env && negb (startswith (u "--") token) then
        parse_env_args_from true rest clean (add_env_pair token extra)
      else if bool_decide (token = u "--env") then
        parse_env_args_from true rest clean extra
      else
        parse_env_args_from false rest (clean ++ [token]) extra
  end.

Definition _parse_env_args (argv : list (list N))
  : list (list N) * list (list N * pyval) :=
  parse_env_args_from false argv [] [].

(** ** [_apply_profile] *)

Inductive settings_path :=
| ProjectLocalSettings
| ProjectSettings
| GlobalLocalSettings
| GlobalSettings.

#[global] Instance settings_path_eq_dec : EqDecision settings_path.
Proof. solve_decision. Defined.

Definition SETTINGS_CANDIDATES : list settings_path :=
  [ProjectLocalSettings; ProjectSettings; GlobalLocalSettings; GlobalSettings].

(** [Save p d]: [_save(p, d)] returned, the file holds [d].
    [SaveFailed p d e]: [_save(p, d)] raised [e]; the file is as it was
    when [mkdir] or [open] failed, and empty when [write_text] failed
    after it had opened the file. *)
Inductive switch_effect :=
| HealthCheck
| Save (p : settings_path) (d : pyval)
| SaveFailed (p : settings_path) (d : pyval) (e : py_exn)
| PrintLine (msg : list N)
| Input (prompt : list N).

(** [os.environ.get(k)] *)
Definition environ_get (environ : gmap (list N) (list N)) (k : list N) : pyval :=
  match environ !! k with
  | Some v => PStr v
  | None => PNone
  end.

(** The token of the [glm] mode *)
Definition glm_key (extra_env : option (list (list N * pyval)))
    (env : list (list N * pyval)) (environ : gmap (list N) (list N)) : pyval :=
  let src_extra := default [] extra_env in
  let key :=
    py_or (py_or (py_or (py_or (py_or
      (py_get src_extra (u "ZAI_API_KEY"))
      (py_get src_extra (u "GLM_API_KEY")))
      (py_get env (u "ZAI_API_KEY")))
      (py_get env (u "GLM_API_KEY")))
      (environ_get environ (u "ZAI_API_KEY")))
      (environ_get environ (u "GLM_API_KEY")) in
  if py_truthy key then key else PStr (u "your_zai_api_key_here").

Definition relay_env : list (list N * pyval) :=
  [ (u "ANTHROPIC_BASE_URL", PStr (u "http://127.0.0.1:9001"));
    (u "ANTHROPIC_AUTH_TOKEN", PStr (u "local-dev"));
    (u "ANTHROPIC_DEFAULT_HAIKU_MODEL", PStr (u "claude-haiku-4-5"));
    (u "ANTHROPIC_DEFAULT_SONNET_MODEL", PStr (u "claude-sonnet-4-5"));
    (u "ANTHROPIC_DEFAULT_OPUS_MODEL", PStr (u "claude-opus-4-1")) ].

Definition glm_env (key : pyval) : list (list N * pyval) :=
  [ (u "ANTHROPIC_AUTH_TOKEN", key);
    (u "ANTHROPIC_BASE_URL", PStr (u "https://api.z.ai/api/anthropic"));
    (u "API_TIMEOUT_MS", PStr (u "3000000"));
    (u "ANTHROPIC_DEFAULT_HAIKU_MODEL", PStr (u "glm-4.5-air"));
    (u "ANTHROPIC_DEFAULT_SONNET_MODEL", PStr (u "glm-4.6"));
    (u "ANTHROPIC_DEFAULT_OPUS_MODEL", PStr (u "glm-4.6")) ].

(** Lines 96 to 135: the new [env] of one settings file, from the [env]
    it had (an empty dict stands for one that was not a dict). *)
Definition profile_env (mode : list N) (extra_env : option (list (list N * pyval)))
    (environ : gmap (list N) (list N)) (env0 : pyval)
  : py_exn + list (list N * pyval) :=
  let env := _wipe_env env0 in
  let env :=
    match extra_env with
    | Some e => if py_truthy (PDict e) then dict_update env e else env
    | None => env
    end in
  if bool_decide (mode = u "claude") then
    inr (dict_setdefault
           (dict_setdefault
              (dict_setdefault env
                 (u "ANTHROPIC_DEFAULT_HAIKU_MODEL") (PStr (u "claude-haiku-4-5")))
              (u "ANTHROPIC_DEFAULT_SONNET_MODEL") (PStr (u "claude-sonnet-4-5")))
           (u "ANTHROPIC_DEFAULT_OPUS_MODEL") (PStr (u "claude-opus-4-1")))
  else if bool_decide (mode = u "glm") then
    inr (dict_update env (glm_env (glm_key extra_env env environ)))
  else if bool_decide (mode = u "relay") then
    inr (dict_update env relay_env)
  else inl ValueError.

(** Lines 92 to 94: the [env] of the settings, an empty dict when it is
    not a dict. *)
Definition settings_env (c : list (list N * pyval)) : pyval :=
  match dict_get_or c (u "env") (PDict []) with
  | PDict e => PDict e
  | _ => PDict []
  end.

(** The body of the loop over the settings files, on what [_load] gave:
    the object that is saved. *)
Definition apply_to_cfg (profile_name mode : list N)
    (extra_env : option (list (list N * pyval)))
    (environ : gmap (list N) (list N)) (cfg : pyval) : py_exn + pyval :=
  match cfg with
  | PDict c =>
      match profile_env mode extra_env environ (settings_env c) with
      | inl e => inl e
      | inr env =>
          let c := dict_set c (u "env") (PDict env) in
          match py_or (py_get c (u "meta")) (PDict []) with
          | PDict meta =>
              inr (PDict (dict_set c (u "meta")
                            (PDict (dict_set meta (u "current_profile")
                                      (PStr profile_name)))))
          | _ => inl TypeError
          end
      end
  | _ => inl AttributeError
  end.

Section switcher.

(** [json.loads], the text of each settings file ([None] when it does not
    exist), the environment, what the health check of the relay answers,
    and [str] of a path. *)
Variable json_loads : list N → option pyval.
Variable files : settings_path → option (list N).
Variable environ : gmap (list N) (list N).
Variable relay_ok : bool.
Variable path_str : settings_path → list N.

(** What [_save(p, d)] raises, if it raises: an [OSError] of [mkdir] or
    [open], the [UnicodeEncodeError] of [write_text] when the text
    [json.dumps(d, ensure_ascii=False, indent=2)] holds a lone surrogate. *)
Variable save_error : settings_path → pyval → option py_exn.

Definition _save (p : settings_path) (d : pyval) : list switch_effect * option py_exn :=
  match save_error p d with
  | None => ([Save p d], None)
  | Some e => ([SaveFailed p d e], Some e)
  end.

Definition _load (p : settings_path) : pyval :=
  match files p with
  | None => PDict []
  | Some text =>
      match json_loads text with
      | Some v => v
      | None => PDict []
      end
  end.

Definition switch_targets : list settings_path :=
  match List.filter (λ p, bool_decide (is_Some (files p))) SETTINGS_CANDIDATES with
  | [] => [GlobalSettings]
  | targets => targets
  end.

(** The loop over the targets: what it saves, and the exception that
    stops it, if any. *)
Fixpoint save_profiles (profile_name mode : list N)
    (extra_env : option (list (list N * pyval))) (targets : list settings_path)
  : list switch_effect * option py_exn :=
  match targets with
  | [] => ([], None)
  | p :: rest =>
      match apply_to_cfg profile_name mode extra_env environ (_load p) with
      | inl e => ([], Some e)
      | inr cfg =>
          match _save p cfg with
          | (tr0, Some e) => (tr0, Some e)
          | (tr0, None) =>
              let '(tr, r) := save_profiles profile_name mode extra_env rest in
              (tr0 ++ tr, r)
          end
      end
  end.

Definition relay_not_running : list N :=
  [0x26A0; 0xFE0F]
  ++ u " Relay is not running (http://127.0.0.1:9001/health not OK). Use --force with --relay to ignore this check.".

Definition _apply_profile (profile_name mode : list N) (force_relay : bool)
    (extra_env : option (list (list N * pyval)))
  : list switch_effect * option py_exn :=
  let switch :=
    let '(tr, r) := save_profiles profile_name mode extra_env switch_targets in
    match r with
    | Some e => (tr, Some e)
    | None =>
        (tr ++ [PrintLine ([0x2705] ++ u " Switched to profile: " ++ profile_name);
                PrintLine (u "   Updated settings files:")]
            ++ ((λ p, PrintLine (u "   " ++ [0x2022] ++ u " " ++ path_str p)) <$> switch_targets),
         None)
    end in
  if bool_decide (mode = u "relay") && negb force_relay then
    if relay_ok then (HealthCheck :: switch.1, switch.2)
    else ([HealthCheck; PrintLine relay_not_running], None)
  else switch.

Definition set_claude (extra_env : option (list (list N * pyval))) :=
  _apply_profile (u "claude") (u "claude") false extra_env.

Definition set_glm (extra_env : option (list (list N * pyval))) :=
  _apply_profile (u "glm_zai") (u "glm") false extra_env.

Definition set_relay (force : bool) (extra_env : option (list (list N * pyval))) :=
  _apply_profile (u "gpt_code_via_relay") (u "relay") force extra_env.

(** [extra_env or None] *)
Definition or_None (extra : list (list N * pyval)) : option (list (list N * pyval)) :=
  match extra with
  | [] => None
  | _ => Some extra
  end.

Definition usage_lines : list switch_effect :=
  [ PrintLine (u "Usage:");
    PrintLine (u "  python cc_env_switcher.py --claude");
    PrintLine (u "  python cc_env_switcher.py --glm [--env ZAI_API_KEY=sk-xxx]");
    PrintLine (u "  python cc_env_switcher.py --relay [--force]") ].

Definition menu_lines : list switch_effect :=
  [ PrintLine (u "=== Claude Code Relay " ++ [0x2014] ++ u " ENV Switcher ===");
    PrintLine (u "1) claude (native subscription)");
    PrintLine (u "2) glm_zai (z.ai)");
    PrintLine (u "3) gpt_code_via_relay (experimental)");
    PrintLine (u "0) exit") ].

(** [main]; [typed] is the line [input] reads when the menu is shown. *)
Definition main (argv : list (list N)) (typed : list N)
  : list switch_effect * option py_exn :=
  let '(argv, extra_env) := _parse_env_args argv in
  let has flag := bool_decide (flag ∈ argv) in
  if has (u "--help") || has (u "-h") then (usage_lines, None)
  else if has (u "--claude") then set_claude (or_None extra_env)
  else if has (u "--glm") then set_glm (or_None extra_env)
  else if has (u "--relay") then set_relay (has (u "--force")) (or_None extra_env)
  else
    let choice := py_strip typed in
    let chosen :=
      if bool_decide (choice = u "1") then set_claude (or_None extra_env)
      else if bool_decide (choice = u "2") then set_glm (or_None extra_env)
      else if bool_decide (choice = u "3") then set_relay false (or_None extra_env)
      else ([PrintLine (u "Bye.")], None) in
    (menu_lines ++ Input (u "Choose: ") :: chosen.1, chosen.2).

End switcher.

(** The saves of a trace *)
Definition saves (tr : list switch_effect) : list (settings_path * pyval) :=
  omap (λ e, match e with Save p d => Some (p, d) | _ => None end) tr.


(** * The older switcher: [tools/env_switcher.py]

    It rewrites the global settings file, and the global local one when
    that exists, from the content of the global file alone. *)

Definition tools_keys_to_clear : list (list N) :=
  [ u "ANTHROPIC_AUTH_TOKEN"; u "ANTHROPIC_BASE_URL"; u "API_TIMEOUT_MS";
    u "ANTHROPIC_DEFAULT_HAIKU_MODEL"; u "ANTHROPIC_DEFAULT_SONNET_MODEL";
    u "ANTHROPIC_DEFAULT_OPUS_MODEL" ].

Definition tools_wipe_env (env : list (list N * pyval)) : list (list N * pyval) :=
  foldl dict_pop env tools_keys_to_clear.

(** The argument the callers give [_wipe_env], wiped: the [env] of the
    settings when it is a dict, an empty dict otherwise. *)
Definition tools_wiped_env (s : list (list N * pyval)) : list (list N * pyval) :=
  match dict_get_or s (u "env") (PDict []) with
  | PDict e => tools_wipe_env e
  | _ => tools_wipe_env []
  end.


Definition tools_glm_env : list (list N * pyval) :=
  [ (u "ANTHROPIC_AUTH_TOKEN", PStr (u "your_zai_api_key"));
    (u "ANTHROPIC_BASE_URL", PStr (u "https://api.z.ai/api/anthropic"));
    (u "API_TIMEOUT_MS", PStr (u "3000000"));
    (u "ANTHROPIC_DEFAULT_HAIKU_MODEL", PStr (u "glm-4.5-air"));
    (u "ANTHROPIC_DEFAULT_SONNET_MODEL", PStr (u "glm-4.6"));
    (u "ANTHROPIC_DEFAULT_OPUS_MODEL", PStr (u "glm-4.6")) ].

Section tools.

Variable json_loads : list N → option pyval.
Variable files : settings_path → option (list N).
Variable relay_ok : bool.
Variable save_error : settings_path → pyval → option py_exn.

(** [_write(s, profile)] *)
Definition tools_write (s : list (list N * pyval)) (profile : list N)
  : list switch_effect * option py_exn :=
  let s := dict_setdefault s (u "meta") (PDict []) in
  match py_get s (u "meta") with
  | PDict meta =>
      let s := PDict (dict_set s (u "meta")
                        (PDict (dict_set meta (u "current_profile") (PStr profile)))) in
      match _save save_error GlobalSettings s with
      | (tr0, Some e) => (tr0, Some e)
      | (tr0, None) =>
          if bool_decide (is_Some (files GlobalLocalSettings))
          then let '(tr1, r) := _save save_error GlobalLocalSettings s in (tr0 ++ tr1, r)
          else (tr0, None)
      end
  | _ => ([], Some TypeError)
  end.

(** What [set_claude], [set_glm] and [set_relay] share: load the global
    settings, wipe their [env], put the values of the profile, write. *)
Definition tools_switch (profile : list N) (values : list (list N * pyval))
  : list switch_effect * option py_exn :=
  match _load json_loads files GlobalSettings with
  | PDict s =>
      let env := dict_update (tools_wiped_env s) values in
      let '(tr, r) := tools_write (dict_set s (u "env") (PDict env)) profile in
      match r with
      | Some e => (tr, Some e)
      | None => (tr ++ [PrintLine ([0x2705] ++ u " Switched to profile: " ++ profile)], None)
      end
  | _ => ([], Some AttributeError)
  end.


Definition tools_set_glm := tools_switch (u "glm_zai") tools_glm_env.

Definition tools_relay_not_running : list N :=
  [0x26A0; 0xFE0F]
  ++ u " Relay is not running (http://127.0.0.1:9001/health not OK). Use --force to set anyway.".

Definition tools_set_relay (force : bool) : list switch_effect * option py_exn :=
  if negb force then
    if relay_ok then
      let r := tools_switch (u "gpt_code_via_relay") relay_env in
      (HealthCheck :: r.1, r.2)
    else ([HealthCheck; PrintLine tools_relay_not_running], None)
  else tools_switch (u "gpt_code_via_relay") relay_env.

End tools.


(** ** Vocabulary of the switchers' properties *)

(** A dict of strings as [_parse_env_args] builds it: no name twice, no
    empty name. *)
Definition env_dict_ok (extra : list (list N * pyval)) : Prop :=
  NoDup extra.*1 ∧ ([] ∉ extra.*1) ∧ Forall (λ kv, is_str kv.2 = true) extra.

(** What a switch keeps of a setting, before the profile has its say: the
    value given with [--env], else the value the file had unless the key
    is one of those a switch clears. *)
Definition kept_setting (extra_env : option (list (list N * pyval))) (env0 : pyval)
    (k : list N) : option pyval :=
  match dict_get (default [] extra_env) k with
  | Some v => Some v
  | None => dict_get (_wipe_env env0) k
  end.

(** The first of the four places that gives a key for [glm], else the
    placeholder. *)
Definition glm_token (extra_env : option (list (list N * pyval)))
    (environ : gmap (list N) (list N)) : pyval :=
  let e := default [] extra_env in
  let key :=
    py_or (py_or (py_or
      (py_get e (u "ZAI_API_KEY"))
      (py_get e (u "GLM_API_KEY")))
      (environ_get environ (u "ZAI_API_KEY")))
      (environ_get environ (u "GLM_API_KEY")) in
  if py_truthy key then key else PStr (u "your_zai_api_key_here").

(** The [meta] a settings object has, as a switch reads it. *)
Definition old_meta (c : list (list N * pyval)) (k : list N) : option pyval :=
  match dict_get c (u "meta") with
  | Some (PDict m) => dict_get m k
  | _ => None
  end.

Definition known_modes : list (list N) := [u "claude"; u "glm"; u "relay"].

(** [d.get(k)] of a lookup *)
Definition py_get_opt (o : option pyval) : pyval := default PNone o.

(** The model names the [claude] profile defaults to. *)
Definition claude_defaults : list (list N * pyval) :=
  [ (u "ANTHROPIC_DEFAULT_HAIKU_MODEL", PStr (u "claude-haiku-4-5"));
    (u "ANTHROPIC_DEFAULT_SONNET_MODEL", PStr (u "claude-sonnet-4-5"));
    (u "ANTHROPIC_DEFAULT_OPUS_MODEL", PStr (u "claude-opus-4-1")) ].


(** A home in which only the global settings file exists, with the given
    text; the names of the four files; three texts of a settings file. *)
Definition only_global (text : list N) (p : settings_path) : option (list N) :=
  match p with
  | GlobalSettings => Some text
  | _ => None
  end.

Definition path_name (p : settings_path) : list N :=
  match p with
  | ProjectLocalSettings => u "/work/.claude/settings.local.json"
  | ProjectSettings => u "/work/.claude/settings.json"
  | GlobalLocalSettings => u "/home/me/.claude/settings.local.json"
  | GlobalSettings => u "/home/me/.claude/settings.json"
  end.

Definition settings_with_model : list N :=
  u "{" ++ q "model" ++ u ":" ++ q "opus" ++ u "}".

Definition settings_with_env : list N :=
  u "{" ++ q "env" ++ u ":{" ++ q "ANTHROPIC_BASE_URL" ++ u ":" ++ q "http://x" ++ u ","
  ++ q "ANTHROPIC_AUTH_TOKEN" ++ u ":" ++ q "old" ++ u ","
  ++ q "EDITOR" ++ u ":" ++ q "vi" ++ u "}}".

Definition settings_null_meta : list N :=
  u "{" ++ q "meta" ++ u ": null}".

(** A world in which every save succeeds, and one in which the save of
    the global settings fails on encoding. *)
Definition saves_succeed (p : settings_path) (d : pyval) : option py_exn := None.

Definition global_save_fails (p : settings_path) (d : pyval) : option py_exn :=
  match p with
  | GlobalSettings => Some UnicodeEncodeError
  | _ => None
  end.

(** * Properties *)

(** ** The SSE encoder *)

Lemma no_newline_app s t : no_newline s → no_newline t → no_newline (s ++ t).
Proof. apply Forall_app_2. Qed.

Lemma no_newline_uint (d : Decimal.uint) :
  no_newline (u (NilEmpty.string_of_uint d)).
Proof.
  induction d; simpl; try constructor; try assumption; done.
Qed.

Lemma no_newline_nz_uint (d : Decimal.uint) :
  no_newline (u (NilZero.string_of_uint d)).
Proof.
  destruct d;
    [ by repeat constructor
    | match goal with
      | |- no_newline (u (NilZero.string_of_uint ?x)) => exact (no_newline_uint x)
      end .. ].
Qed.

Lemma no_newline_str_int (n : Z) : no_newline (py_str_int n).
Proof.
  unfold py_str_int, NilZero.string_of_int.
  destruct (Z.to_int n) as [d|d]; [apply no_newline_nz_uint|].
  change (no_newline (0x2D :: u (NilZero.string_of_uint d))).
  constructor; [done | apply no_newline_nz_uint].
Qed.

Lemma char_in_spec chars c : char_in chars c = true ↔ c ∈ chars.
Proof.
  unfold char_in. rewrite existsb_exists. split.
  - intros (x & Hx & Heq). apply N.eqb_eq in Heq. subst. by apply list_elem_of_In.
  - intros H. exists c. split; [by apply list_elem_of_In | apply N.eqb_refl].
Qed.

Lemma float_char_not_newline c : float_char c = true → c ≠ NEWLINE.
Proof. intros H ->. vm_compute in H. discriminate. Qed.

Lemma no_newline_float (f : pyfloat) : no_newline (float_repr f).
Proof.
  destruct f as [r Hr]. simpl. apply Forall_forall. intros c Hc.
  apply float_char_not_newline.
  rewrite forallb_forall in Hr. apply Hr. by apply list_elem_of_In.
Qed.

Lemma hex_digit_not_newline n : hex_digit n ≠ NEWLINE.
Proof. unfold hex_digit, NEWLINE. destruct (n <? 10); lia. Qed.

Lemma no_newline_escape c : no_newline (json_escape_char c).
Proof.
  unfold json_escape_char.
  repeat match goal with
         | |- context [if ?b then _ else _] => destruct b eqn:?
         end;
    try (repeat constructor; first [done | apply hex_digit_not_newline]).
  repeat constructor. intros ->. discriminate.
Qed.

Lemma no_newline_basestring s : no_newline (py_encode_basestring s).
Proof.
  unfold py_encode_basestring. constructor; [done|].
  apply no_newline_app; [|by repeat constructor].
  induction s as [|c s IH]; simpl; [constructor|].
  apply no_newline_app; [apply no_newline_escape | exact IH].
Qed.

Lemma no_newline_join sep l :
  no_newline sep → Forall no_newline l → no_newline (py_join sep l).
Proof.
  intros Hsep Hl. induction Hl as [|x l Hx Hl IH]; [constructor|].
  destruct l as [|y l]; [exact Hx|].
  change (no_newline (x ++ sep ++ py_join sep (y :: l))).
  by repeat apply no_newline_app.
Qed.

Lemma no_newline_bool s :
  forallb (λ c, negb (c =? NEWLINE)) s = true → no_newline s.
Proof.
  rewrite forallb_forall. intros H. apply Forall_forall. intros c Hc.
  apply list_elem_of_In, H, negb_true_iff, N.eqb_neq in Hc. exact Hc.
Qed.

Ltac no_newline_literal := apply no_newline_bool; vm_compute; reflexivity.

Lemma json_dumps_list l :
  json_dumps (PList l) = u "[" ++ py_join (u ", ") (List.map json_dumps l) ++ u "]".
Proof. reflexivity. Qed.

Lemma json_dumps_dict d :
  json_dumps (PDict d)
  = u "{"
    ++ py_join (u ", ")
         (List.map (λ kv, py_encode_basestring kv.1 ++ u ": " ++ json_dumps kv.2) d)
    ++ u "}".
Proof. reflexivity. Qed.

Lemma no_newline_dumps (v : pyval) : no_newline (json_dumps v).
Proof.
  induction v as [|b|n|f|s|l IH|d IH] using pyval_nested_ind.
  - no_newline_literal.
  - destruct b; no_newline_literal.
  - apply no_newline_str_int.
  - apply no_newline_float.
  - apply no_newline_basestring.
  - rewrite json_dumps_list.
    apply no_newline_app; [no_newline_literal|].
    apply no_newline_app; [|no_newline_literal].
    apply no_newline_join; [no_newline_literal|].
    induction IH; constructor; auto.
  - rewrite json_dumps_dict.
    apply no_newline_app; [no_newline_literal|].
    apply no_newline_app; [|no_newline_literal].
    apply no_newline_join; [no_newline_literal|].
    induction IH as [|kv d Hkv _ IHd]; constructor; [|exact IHd].
    apply no_newline_app; [apply no_newline_basestring|].
    apply no_newline_app; [no_newline_literal | exact Hkv].
Qed.

(** C7. For every event name and payload, [_iter_sse] yields the line
    [event: <name>] ended by one newline, then [data: <json>] ended by two,
    and the JSON text holds no newline character, whatever the strings of
    the payload hold. *)
Theorem iter_sse_frame (name : list N) (payload : pyval) :
  _iter_sse [SseItem name (Some payload)]
  = [ u "event: " ++ name ++ [NEWLINE];
      u "data: " ++ json_dumps payload ++ [NEWLINE; NEWLINE] ]
  ∧ NEWLINE ∉ json_dumps payload.
Proof.
  split; [reflexivity|].
  intros Hin. pose proof (no_newline_dumps payload) as H.
  unfold no_newline in H. rewrite Forall_forall in H. by apply (H _ Hin).
Qed.

(** ** The event translator *)

Lemma gen_bind_inr {A B} (f : A → gen B) tr a :
  ((tr, inr a) : gen A) ≫= f = (tr ++ (f a).1, (f a).2).
Proof. unfold mbind, gen_mbind, gen_bind. by destruct (f a). Qed.

Lemma gen_bind_inl {A B} (f : A → gen B) tr e :
  ((tr, inl e) : gen A) ≫= f = (tr, inl e).
Proof. reflexivity. Qed.

Lemma py_get_some d k v : dict_get d k = Some v → py_get d k = v.
Proof. unfold py_get, dict_get_or. by intros ->. Qed.

Lemma py_eq_str_refl s : py_eq_str (PStr s) s = true.
Proof. simpl. by apply bool_decide_eq_true_2. Qed.

Lemma py_eq_str_ne s t : s ≠ t → py_eq_str (PStr s) t = false.
Proof. intros H. simpl. by apply bool_decide_eq_false_2. Qed.

Lemma translate_no_parse json_loads CFG s now ltc :
  json_loads s = None →
  translate json_loads CFG s now ltc = ([], inr (PStr s, ltc)).
Proof. intros H. unfold translate. by rewrite H. Qed.

Lemma translate_pretty_dict json_loads CFG s now ltc ev r :
  _pretty CFG = true →
  json_loads s = Some (PDict ev) →
  pretty_text s (PDict ev) now ltc = ([], inr r) →
  translate json_loads CFG s now ltc = ([], inr r).
Proof. intros Hp Hl Hr. unfold translate. by rewrite Hl, Hp, Hr. Qed.

(** C2. In pretty mode a line that is not JSON gives the line itself; an
    [item.completed] object whose item is an [agent_message] or a
    [reasoning] with a string [text] gives that text; a [turn.completed]
    object gives the marker text and records the clock reading; an object
    of any other kind gives the name of the kind. *)
Theorem translate_pretty json_loads CFG (s : list N) (now : Q) (ltc : option Q) :
  _pretty CFG = true →
  (json_loads s = None →
   translate json_loads CFG s now ltc = ([], inr (PStr s, ltc)))
  ∧ (∀ ev it kind text,
       json_loads s = Some (PDict ev) →
       dict_get ev (u "type") = Some (PStr (u "item.completed")) →
       dict_get ev (u "item") = Some (PDict it) →
       dict_get it (u "type") = Some (PStr kind) →
       kind = u "agent_message" ∨ kind = u "reasoning" →
       dict_get it (u "text") = Some (PStr text) →
       translate json_loads CFG s now ltc = ([], inr (PStr text, ltc)))
  ∧ (∀ ev,
       json_loads s = Some (PDict ev) →
       dict_get ev (u "type") = Some (PStr (u "turn.completed")) →
       translate json_loads CFG s now ltc
       = ([], inr (PStr (u "[turn.completed]"), Some now)))
  ∧ (∀ ev kind,
       json_loads s = Some (PDict ev) →
       dict_get ev (u "type") = Some (PStr kind) →
       kind ≠ u "item.completed" → kind ≠ u "turn.completed" →
       translate json_loads CFG s now ltc = ([], inr (PStr kind, ltc))).
Proof.
  intros Hp. repeat split.
  - apply translate_no_parse.
  - intros ev it kind text Hl Hty Hit Hk Hkind Htext.
    apply (translate_pretty_dict _ _ _ _ _ ev); [done..|].
    unfold pretty_text.
    rewrite (py_get_some _ _ _ Hty), py_eq_str_refl, (py_get_some _ _ _ Hit).
    rewrite (py_get_some _ _ _ Hk), (py_get_some _ _ _ Htext).
    destruct Hkind as [-> | ->]; reflexivity.
  - intros ev Hl Hty.
    apply (translate_pretty_dict _ _ _ _ _ ev); [done..|].
    unfold pretty_text. rewrite (py_get_some _ _ _ Hty). reflexivity.
  - intros ev kind Hl Hty Hn1 Hn2.
    apply (translate_pretty_dict _ _ _ _ _ ev); [done..|].
    unfold pretty_text. rewrite (py_get_some _ _ _ Hty).
    rewrite !py_eq_str_ne by done.
    unfold dict_get_or. by rewrite Hty.
Qed.

(** C8. In pretty mode, an [item.completed] object whose [item] is a dict
    of another type than [agent_message] and [reasoning], or whose [text]
    is not a string, gives the line itself: neither a text of the item nor
    the name of the kind. *)
Theorem translate_item_unrecognized json_loads CFG (s : list N) (now : Q)
    (ltc : option Q) ev it :
  _pretty CFG = true →
  json_loads s = Some (PDict ev) →
  dict_get ev (u "type") = Some (PStr (u "item.completed")) →
  dict_get ev (u "item") = Some (PDict it) →
  (py_get it (u "type") ≠ PStr (u "agent_message")
   ∧ py_get it (u "type") ≠ PStr (u "reasoning"))
  ∨ (∀ text, py_get it (u "text") ≠ PStr text) →
  translate json_loads CFG s now ltc = ([], inr (PStr s, ltc)).
Proof.
  intros Hp Hl Hty Hit Hcase.
  apply (translate_pretty_dict _ _ _ _ _ ev); [done..|].
  unfold pretty_text.
  rewrite (py_get_some _ _ _ Hty), py_eq_str_refl, (py_get_some _ _ _ Hit).
  destruct Hcase as [[Hn1 Hn2] | Htext].
  - assert (py_eq_str (py_get it (u "type")) (u "agent_message") = false) as ->.
    { destruct (py_get it (u "type")); try reflexivity.
      apply py_eq_str_ne. congruence. }
    assert (py_eq_str (py_get it (u "type")) (u "reasoning") = false) as ->.
    { destruct (py_get it (u "type")); try reflexivity.
      apply py_eq_str_ne. congruence. }
    reflexivity.
  - assert (is_str (py_get it (u "text")) = false) as ->.
    { destruct (py_get it (u "text")) eqn:E; try reflexivity.
      by destruct (Htext s0). }
    by rewrite andb_false_r.
Qed.

Lemma handle_line_fragment json_loads CFG ln ltc text ltc' :
  py_strip (li_raw ln) ≠ [] →
  translate json_loads CFG (py_strip (li_raw ln)) (li_now_turn ln) ltc
  = ([], inr (PStr text, ltc')) →
  handle_line json_loads CFG ln ltc
  = (Yield <$> _iter_sse [text_delta (text ++ [NEWLINE])], inr ltc').
Proof.
  intros Hs Ht. unfold handle_line.
  assert (py_truthy (PStr (py_strip (li_raw ln))) = true) as ->.
  { simpl. by rewrite bool_decide_eq_false_2. }
  rewrite Ht. reflexivity.
Qed.

(** C9. In pretty mode, a line that decodes to a JSON value that is not an
    object (a number, a string, an array, [null], a boolean) makes the
    [try] block raise, the handler swallows it, and the loop body yields
    one delta whose text is the line and a newline; no exception leaves
    it. *)
Theorem handle_line_non_object json_loads CFG (ln : line_in) (ltc : option Q) ev :
  _pretty CFG = true →
  py_strip (li_raw ln) ≠ [] →
  json_loads (py_strip (li_raw ln)) = Some ev →
  (∀ d, ev ≠ PDict d) →
  pretty_text (py_strip (li_raw ln)) ev (li_now_turn ln) ltc = ([], inl AttributeError)
  ∧ handle_line json_loads CFG ln ltc
    = (Yield <$> _iter_sse [text_delta (py_strip (li_raw ln) ++ [NEWLINE])], inr ltc).
Proof.
  intros Hp Hs Hl Hev.
  assert (pretty_text (py_strip (li_raw ln)) ev (li_now_turn ln) ltc
          = ([], inl AttributeError)) as Hraise.
  { destruct ev; try reflexivity. by destruct (Hev d). }
  split; [exact Hraise|].
  apply handle_line_fragment; [exact Hs|].
  unfold translate. by rewrite Hl, Hp, Hraise.
Qed.

(** ** The working-directory resolver *)

Section regex.

Context (lits : list N) (p' : list re_item).

Lemma re_match_lits_app m o g t :
  Forall2 (λ c ch, lit_match_i c ch = true) lits m →
  re_match_here (List.map RLit lits ++ p') o g (m ++ t) = re_match_here p' o g t.
Proof.
  induction 1 as [|c ch lits' m' Hc _ IH]; [reflexivity|].
  simpl. by rewrite Hc.
Qed.

Lemma re_match_lits_fail o g t :
  lits_match lits t = false →
  re_match_here (List.map RLit lits ++ p') o g t = None.
Proof.
  revert t. induction lits as [|c lits' IH]; intros t H; [discriminate|].
  destruct t as [|ch t]; [reflexivity|]. simpl in *.
  destruct (lit_match_i c ch); [by apply IH | reflexivity].
Qed.

End regex.

Lemma re_greedy_stop {R} cls (k : list N → option R) t :
  t = [] ∨ (∃ c t', t = c :: t' ∧ cls c = false) →
  re_greedy cls k t = k t.
Proof. intros [-> | (c & t' & -> & Hc)]; simpl; [done | by rewrite Hc]. Qed.

Lemma re_greedy_longest {R} cls (k : list N → option R) run t r :
  Forall (λ c, cls c = true) run →
  t = [] ∨ (∃ c t', t = c :: t' ∧ cls c = false) →
  k t = Some r →
  re_greedy cls k (run ++ t) = Some r.
Proof.
  intros Hrun Ht Hk. induction Hrun as [|c run Hc _ IH].
  - simpl. by rewrite re_greedy_stop.
  - simpl. by rewrite Hc, IH.
Qed.

Lemma re_search_skip p pre t :
  (∀ i, (i < length pre)%nat → re_match_here p [] [] (drop i (pre ++ t)) = None) →
  re_search p (pre ++ t) = re_search p t.
Proof.
  induction pre as [|c pre IH]; intros H; [reflexivity|].
  change (re_search p ((c :: pre) ++ t)) with
    (match re_match_here p [] [] ((c :: pre) ++ t) with
     | Some g => Some g
     | None => re_search p (pre ++ t)
     end).
  pose proof (H 0%nat ltac:(simpl; lia)) as H0. rewrite drop_0 in H0.
  rewrite H0.
  apply IH. intros i Hi. apply (H (S i)). simpl. lia.
Qed.

Lemma re_search_here p t g :
  re_match_here p [] [] t = Some g → re_search p t = Some g.
Proof. intros H. destruct t; simpl; by rewrite H. Qed.

Lemma cwd_group_match o g path rest :
  (∃ c p, path = c :: p) → NEWLINE ∉ path →
  rest = [] ∨ (∃ r, rest = NEWLINE :: r) →
  re_match_here [ROpen; RPlus re_dot; RClose] o g (path ++ rest) = Some path.
Proof.
  intros (c & p & ->) Hnl Hrest.
  assert (∀ x, x ∈ c :: p → re_dot x = true) as Hdot.
  { intros x Hx. unfold re_dot. apply negb_true_iff, N.eqb_neq. by intros ->. }
  change (re_match_here [ROpen; RPlus re_dot; RClose] o g ((c :: p) ++ rest))
    with (if re_dot c
          then re_greedy re_dot
                 (re_match_here [RClose] ((c :: p) ++ rest) g) (p ++ rest)
          else None).
  rewrite Hdot by left.
  apply re_greedy_longest.
  - apply Forall_forall. intros x Hx. apply Hdot. by right.
  - destruct Hrest as [-> | (r & ->)]; [by left | right].
    by exists NEWLINE, r.
  - change (re_match_here [RClose] ((c :: p) ++ rest) g rest)
      with (Some (take (length ((c :: p) ++ rest) - length rest)
                    ((c :: p) ++ rest))).
    f_equal.
    replace (length ((c :: p) ++ rest) - length rest)%nat with (length (c :: p))
      by (rewrite length_app; lia).
    apply take_app_length.
Qed.

Lemma parse_cwd_at_marker pre m ws path rest :
  Forall2 (λ c ch, lit_match_i c ch = true) (u "Working directory:") m →
  (∀ i, (i < length pre)%nat →
        marker_at (drop i (pre ++ m ++ ws ++ path ++ rest)) = false) →
  Forall (λ c, py_isspace c = true) ws →
  (∃ c p, path = c :: p ∧ py_isspace c = false) →
  NEWLINE ∉ path →
  rest = [] ∨ (∃ r, rest = NEWLINE :: r) →
  _parse_cwd_from_prompt (pre ++ m ++ ws ++ path ++ rest) = Some (clean_cwd path).
Proof.
  intros Hm Hpre Hws (c & p & -> & Hc) Hnl Hrest.
  unfold _parse_cwd_from_prompt.
  rewrite re_search_skip.
  2:{ intros i Hi. apply re_match_lits_fail. by apply Hpre. }
  erewrite re_search_here; [reflexivity|].
  unfold cwd_marker_re. rewrite re_match_lits_app by exact Hm.
  change (re_match_here [RStar py_isspace; ROpen; RPlus re_dot; RClose] [] []
            (ws ++ (c :: p) ++ rest))
    with (re_greedy py_isspace (re_match_here [ROpen; RPlus re_dot; RClose] [] [])
            (ws ++ (c :: p) ++ rest)).
  apply re_greedy_longest; [exact Hws | right; by exists c, (p ++ rest) |].
  apply cwd_group_match; [by exists c, p | exact Hnl | exact Hrest].
Qed.

Lemma lstrip_by_keep f s :
  (∀ a, head s = Some a → f a = false) → lstrip_by f s = s.
Proof. destruct s as [|a s]; [done|]. intros H. simpl. by rewrite H. Qed.

Lemma rstrip_by_keep f s :
  (∀ b, last s = Some b → f b = false) → rstrip_by f s = s.
Proof.
  intros H. unfold rstrip_by. rewrite lstrip_by_keep, reverse_involutive; [done|].
  intros a Ha. apply H. by rewrite <- head_reverse.
Qed.

Lemma strip_by_keep f s :
  (∀ a, head s = Some a → f a = false) →
  (∀ b, last s = Some b → f b = false) →
  strip_by f s = s.
Proof.
  intros Hh Hl. unfold strip_by. rewrite lstrip_by_keep by done.
  by apply rstrip_by_keep.
Qed.

Lemma strip_by_wrapped f q p :
  f q = true →
  (∃ a, head p = Some a ∧ f a = false) →
  (∃ b, last p = Some b ∧ f b = false) →
  strip_by f (q :: p ++ [q]) = p.
Proof.
  intros Hq (a & Ha & Hfa) (b & Hb & Hfb). unfold strip_by. simpl. rewrite Hq.
  rewrite lstrip_by_keep.
  2:{ intros a'. destruct p; simpl in *; congruence. }
  unfold rstrip_by. rewrite reverse_app. simpl. rewrite Hq.
  rewrite lstrip_by_keep, reverse_involutive; [done|].
  intros b'. rewrite head_reverse. congruence.
Qed.

Lemma char_in_single q c : char_in [q] c = true ↔ c = q.
Proof. rewrite char_in_spec. apply list_elem_of_singleton. Qed.

Lemma char_in_single_ne q c : c ≠ q → char_in [q] c = false.
Proof.
  intros H. destruct (char_in [q] c) eqn:E; [|done].
  by apply char_in_single in E.
Qed.

Lemma head_wrapped (q : N) p : head (q :: p ++ [q]) = Some q.
Proof. reflexivity. Qed.

Lemma last_wrapped (q : N) p : last (q :: p ++ [q]) = Some q.
Proof. by rewrite app_comm_cons, last_snoc. Qed.

Lemma clean_cwd_quoted p :
  plain_ends p →
  clean_cwd (DQUOTE :: p ++ [DQUOTE]) = p ∧ clean_cwd (SQUOTE :: p ++ [SQUOTE]) = p.
Proof.
  intros (a & b & Ha & Hb & Ha1 & Ha2 & Hb1 & Hb2). unfold clean_cwd, py_strip, py_strip_chars.
  split.
  - rewrite (strip_by_keep py_isspace).
    2,3: intros x; rewrite ?head_wrapped, ?last_wrapped; by intros [= <-].
    rewrite strip_by_wrapped.
    + apply strip_by_keep; intros x Hx; apply char_in_single_ne; congruence.
    + by apply char_in_single.
    + exists a. split; [done | by apply char_in_single_ne].
    + exists b. split; [done | by apply char_in_single_ne].
  - rewrite (strip_by_keep py_isspace).
    2,3: intros x; rewrite ?head_wrapped, ?last_wrapped; by intros [= <-].
    rewrite (strip_by_keep (char_in [DQUOTE])).
    2,3: intros x; rewrite ?head_wrapped, ?last_wrapped; by intros [= <-].
    apply strip_by_wrapped.
    + by apply char_in_single.
    + exists a. split; [done | by apply char_in_single_ne].
    + exists b. split; [done | by apply char_in_single_ne].
Qed.

Lemma ascii_ci_match lits m :
  List.map ascii_lower m = List.map ascii_lower lits →
  Forall2 (λ c ch, lit_match_i c ch = true) lits m.
Proof.
  revert m. induction lits as [|c lits IH]; intros [|ch m] H; try discriminate.
  - constructor.
  - injection H as Hc Hm. constructor; [|by apply IH].
    unfold lit_match_i. rewrite Hc, N.eqb_refl. reflexivity.
Qed.

Section select.

Context (path_exists : list N → py_exn + bool) (process_cwd : py_exn + list N)
        (CFG : gmap (list N) (list N)).

Lemma named_and_exists_cases c :
  (usable path_exists c ∧ named_and_exists path_exists c = inr true)
  ∨ (unusable path_exists c ∧ named_and_exists path_exists c = inr false)
  ∨ (∃ e, test_raises path_exists c e ∧ named_and_exists path_exists c = inl e).
Proof.
  unfold named_and_exists, usable, unusable, test_raises.
  destruct c as [|a c]; [right; left; by split; [left|]|].
  change (py_truthy (PStr (a :: c))) with true. cbv iota.
  destruct (path_exists (a :: c)) as [e|[|]] eqn:E.
  - right. right. by exists e.
  - left. by split.
  - right. left. by split; [right|].
Qed.

Lemma usable_test c :
  named_and_exists path_exists c = inr true ↔ usable path_exists c.
Proof.
  destruct (named_and_exists_cases c) as [[H ->]|[[H ->]|(e & H & ->)]];
    unfold usable, unusable, test_raises in *; split; try done.
  - intros [Hne He]. destruct H as [H|H]; [done | congruence].
  - intros [Hne He]. destruct H as [_ H]. congruence.
Qed.

Lemma unusable_test c :
  named_and_exists path_exists c = inr false ↔ unusable path_exists c.
Proof.
  destruct (named_and_exists_cases c) as [[H ->]|[[H ->]|(e & H & ->)]];
    unfold usable, unusable, test_raises in *; split; try done.
  - intros [Hc|Hc]; destruct H as [Hne He]; [done | congruence].
  - intros [Hc|Hc]; destruct H as [Hne He]; [done | congruence].
Qed.

Lemma raises_test c e :
  named_and_exists path_exists c = inl e ↔ test_raises path_exists c e.
Proof.
  destruct (named_and_exists_cases c) as [[H ->]|[[H ->]|(e' & H & ->)]];
    unfold usable, unusable, test_raises in *; split; try done.
  - intros [Hne He]. destruct H as [_ H]. congruence.
  - intros [Hne He]. destruct H as [H|H]; [done | congruence].
  - intros [= ->]. done.
  - intros [Hne He]. destruct H as [_ H]. congruence.
Qed.

Lemma select_cwd_marker prompt c :
  _parse_cwd_from_prompt prompt = Some c → usable path_exists c →
  _select_cwd path_exists process_cwd CFG prompt = inr (PathOf c).
Proof.
  intros Hp Hu. unfold _select_cwd. rewrite Hp.
  apply usable_test in Hu. by rewrite Hu.
Qed.

Lemma select_cwd_fallback prompt :
  (∀ c, _parse_cwd_from_prompt prompt = Some c → unusable path_exists c) →
  _select_cwd path_exists process_cwd CFG prompt
  = let env_cwd := py_strip (cfg_get CFG (u "CODEX_WORKDIR") []) in
    match named_and_exists path_exists env_cwd with
    | inl e => inl e
    | inr true => inr (PathOf env_cwd)
    | inr false => path_cwd process_cwd
    end.
Proof.
  intros H. unfold _select_cwd.
  destruct (_parse_cwd_from_prompt prompt) as [c|]; [|done].
  specialize (H c eq_refl). apply unusable_test in H. by rewrite H.
Qed.

(** C3, as the code has it.  The answer of the resolver is: the path of
    the marker line when that is not empty and exists; otherwise the
    stripped [CODEX_WORKDIR] when that is not empty and exists; otherwise
    the current directory of the process.  The resolver has no [try]: it
    raises what an existence test raises, on the marker path or, when
    that one failed the test, on the configured one, and what [Path.cwd()]
    raises when it comes to it. *)
Theorem select_cwd_precedence (prompt : list N) :
  let env_cwd := py_strip (cfg_get CFG (u "CODEX_WORKDIR") []) in
  let skipped := ∀ c, _parse_cwd_from_prompt prompt = Some c → unusable path_exists c in
  (∀ c, _parse_cwd_from_prompt prompt = Some c → usable path_exists c →
        _select_cwd path_exists process_cwd CFG prompt = inr (PathOf c))
  ∧ (skipped → usable path_exists env_cwd →
     _select_cwd path_exists process_cwd CFG prompt = inr (PathOf env_cwd))
  ∧ (skipped → unusable path_exists env_cwd →
     _select_cwd path_exists process_cwd CFG prompt = path_cwd process_cwd)
  ∧ (∀ c e, _parse_cwd_from_prompt prompt = Some c → test_raises path_exists c e →
        _select_cwd path_exists process_cwd CFG prompt = inl e)
  ∧ (∀ e, skipped → test_raises path_exists env_cwd e →
        _select_cwd path_exists process_cwd CFG prompt = inl e).
Proof.
  intros env_cwd skipped. unfold skipped, env_cwd. clear skipped env_cwd.
  split; [apply select_cwd_marker|]. split; [|split; [|split]].
  - intros Hm He. rewrite select_cwd_fallback by done. cbv zeta.
    apply usable_test in He. by rewrite He.
  - intros Hm He. rewrite select_cwd_fallback by done. cbv zeta.
    apply unusable_test in He. by rewrite He.
  - intros c e Hp He. unfold _select_cwd. rewrite Hp.
    apply raises_test in He. by rewrite He.
  - intros e Hm He. rewrite select_cwd_fallback by done. cbv zeta.
    apply raises_test in He. by rewrite He.
Qed.

End select.

(** C10. The marker is found whatever the case of its letters and wherever
    it stands in the prompt; the first one counts; the rest of its line,
    once the blanks after the colon are skipped, is the path, from which
    blanks and then double and single quotes are taken off both ends
    before [_select_cwd] tests that it exists. *)
Theorem parse_cwd_marker :
  (∀ pre m ws path rest : list N,
     List.map ascii_lower m = u "working directory:" →
     (∀ i, (i < length pre)%nat →
           marker_at (drop i (pre ++ m ++ ws ++ path ++ rest)) = false) →
     Forall (λ c, py_isspace c = true) ws →
     (∃ c p, path = c :: p ∧ py_isspace c = false) →
     NEWLINE ∉ path →
     rest = [] ∨ (∃ r, rest = NEWLINE :: r) →
     _parse_cwd_from_prompt (pre ++ m ++ ws ++ path ++ rest) = Some (clean_cwd path))
  ∧ (∀ p, plain_ends p →
          clean_cwd (DQUOTE :: p ++ [DQUOTE]) = p
          ∧ clean_cwd (SQUOTE :: p ++ [SQUOTE]) = p)
  ∧ (∀ path_exists process_cwd CFG prompt c,
       _parse_cwd_from_prompt prompt = Some c →
       c ≠ [] → path_exists c = inr true →
       _select_cwd path_exists process_cwd CFG prompt = inr (PathOf c)).
Proof.
  split; [|split].
  - intros pre m ws path rest Hm. apply parse_cwd_at_marker.
    by apply ascii_ci_match.
  - apply clean_cwd_quoted.
  - intros path_exists process_cwd CFG prompt c Hp Hc He.
    by apply select_cwd_marker.
Qed.

(** ** The read loop and its cutoffs *)

Lemma Qlt_bool_iff a b : Qlt_bool a b = true ↔ (a < b)%Q.
Proof.
  unfold Qlt_bool. rewrite negb_true_iff. split.
  - intros H. apply Qnot_le_lt. intros Hle. apply Qle_bool_iff in Hle. congruence.
  - intros H. destruct (Qle_bool b a) eqn:E; [|done].
    apply Qle_bool_iff in E. by apply Qlt_not_le in H.
Qed.

Lemma hard_cutoff_iff hard_cut start now :
  hard_cutoff hard_cut start now = true
  ↔ hard_cut ≠ 0%Z ∧ (inject_Z hard_cut < now - start)%Q.
Proof.
  unfold hard_cutoff. rewrite andb_true_iff, negb_true_iff, Z.eqb_neq, Qlt_bool_iff.
  done.
Qed.

Lemma idle_cutoff_iff idle_after ltc now :
  idle_cutoff idle_after ltc now = true
  ↔ ∃ t, ltc = Some t ∧ ¬ (t == 0)%Q ∧ (inject_Z idle_after <= now - t)%Q.
Proof.
  unfold idle_cutoff. destruct ltc as [t|].
  - rewrite andb_true_iff, negb_true_iff, Qle_bool_iff. split.
    + intros [Hz Hle]. exists t. split; [done|]. split; [|done].
      by apply Qeq_bool_neq.
    + intros (t' & [= <-] & Hz & Hle). split; [|done].
      destruct (Qeq_bool t 0) eqn:E; [|done]. by apply Qeq_bool_eq in E.
  - split; [done|]. by intros (t & ? & _).
Qed.

Lemma read_loop_cons json_loads CFG idle_after hard_cut start ln rest ltc :
  read_loop json_loads CFG idle_after hard_cut start (ln :: rest) ltc
  = (perform StdoutReadline;;
     if bool_decide (li_raw ln = []) then mret tt
     else
       ltc' ← handle_line json_loads CFG ln ltc;
       if hard_cutoff hard_cut start (li_now_hard ln) then
         log [u "(relay) hard cutoff after"; py_str_int hard_cut; u "sec"]
       else if idle_cutoff idle_after ltc' (li_now_idle ln) then
         log [u "(relay) turn completed, idle"; py_str_int idle_after;
              u "sec"; [0x2192]; u "close stream."]
       else read_loop json_loads CFG idle_after hard_cut start rest ltc').
Proof. reflexivity. Qed.

Lemma cfg_int_bind CFG py_int k dflt (f : Z → Z) tr n :
  (x ← cfg_int CFG py_int k dflt; mret (f x)) = (tr, inr n) →
  ∃ x, n = f x.
Proof.
  unfold cfg_int. destruct (py_int _) as [x|]; [|discriminate].
  intros [= _ <-]. by exists x.
Qed.

(** C4, as the code has it.  After a line that is not empty has been
    handled, the loop stops (and logs why) when the hard cutoff is set
    (its seconds are not 0, hence positive after the clamp) and the time
    since the start exceeds it, or when a [turn.completed] has been
    recorded, at a clock reading other than 0, and the time since then has
    reached the idle seconds; otherwise it goes on with the next read.
    The configured idle seconds are at least 1 and the hard seconds at
    least 0. *)
Theorem read_loop_cutoffs json_loads CFG (idle_after hard_cut : Z) (start : Q)
    (ln : line_in) (rest : list line_in) (ltc ltc' : option Q) (tr : list effect) :
  let loop := read_loop json_loads CFG idle_after hard_cut start in
  let exits :=
    ((0 < hard_cut)%Z ∧ (inject_Z hard_cut < li_now_hard ln - start)%Q)
    ∨ (∃ t, ltc' = Some t ∧ ¬ (t == 0)%Q
            ∧ (inject_Z idle_after <= li_now_idle ln - t)%Q) in
  li_raw ln ≠ [] →
  (0 ≤ hard_cut)%Z →
  handle_line json_loads CFG ln ltc = (tr, inr ltc') →
  (exits → ∃ msg, loop (ln :: rest) ltc = (StdoutReadline :: tr ++ [Log msg], inr tt))
  ∧ (¬ exits →
     loop (ln :: rest) ltc
     = (StdoutReadline :: tr ++ (loop rest ltc').1, (loop rest ltc').2))
  ∧ (∀ py_int tr' n, idle_after_of_cfg CFG py_int = (tr', inr n) → (1 ≤ n)%Z)
  ∧ (∀ py_int tr' n, hard_cut_of_cfg CFG py_int = (tr', inr n) → (0 ≤ n)%Z).
Proof.
  intros loop exits Hraw Hh Hline. unfold loop.
  assert (∀ X : gen unit,
    read_loop json_loads CFG idle_after hard_cut start (ln :: rest) ltc
    = (StdoutReadline :: tr ++ X.1, X.2)
    ↔ (if hard_cutoff hard_cut start (li_now_hard ln) then
         log [u "(relay) hard cutoff after"; py_str_int hard_cut; u "sec"]
       else if idle_cutoff idle_after ltc' (li_now_idle ln) then
         log [u "(relay) turn completed, idle"; py_str_int idle_after;
              u "sec"; [0x2192]; u "close stream."]
       else read_loop json_loads CFG idle_after hard_cut start rest ltc')
      = X) as Hstep.
  { intros X. rewrite read_loop_cons, bool_decide_eq_false_2 by done.
    rewrite Hline. unfold perform. rewrite !gen_bind_inr. cbn [fst snd app].
    split.
    - intros [= H1 H2]. apply app_inv_head in H1.
      destruct X as [x1 x2]. simpl in *.
      match goal with |- ?t = _ => destruct t as [y1 y2] end.
      simpl in *. congruence.
    - by intros ->. }
  assert (exits ↔ hard_cutoff hard_cut start (li_now_hard ln) = true
                  ∨ idle_cutoff idle_after ltc' (li_now_idle ln) = true) as Hex.
  { unfold exits. rewrite hard_cutoff_iff, idle_cutoff_iff.
    split; (intros [[H1 H2] | H]; [left; split; [lia | done] | by right]). }
  split; [|split; [|split]].
  - intros He. apply Hex in He.
    destruct (hard_cutoff hard_cut start (li_now_hard ln)) eqn:E1.
    + eexists. exact (proj2 (Hstep _) eq_refl).
    + destruct He as [? | E2]; [done|]. rewrite E2 in Hstep.
      eexists. exact (proj2 (Hstep _) eq_refl).
  - intros Hn. apply Hstep.
    destruct (hard_cutoff hard_cut start (li_now_hard ln)) eqn:E1.
    { destruct Hn. apply Hex. by left. }
    destruct (idle_cutoff idle_after ltc' (li_now_idle ln)) eqn:E2; [|done].
    destruct Hn. apply Hex. by right.
  - intros py_int tr' n H. apply cfg_int_bind in H as [x ->]. lia.
  - intros py_int tr' n H. apply cfg_int_bind in H as [x ->]. lia.
Qed.

(** ** The generator *)

(** C5. When the executable is not found, the generator yields the two
    opening events, one [content_block_delta] whose text says that the
    Codex CLI was not found, and the three closing events, and nothing
    else; it returns without an exception, so the failure reaches the
    client only as that text, and it makes no call on the pipes of a
    subprocess. *)
Theorem generate_launch_not_found json_loads CFG (prompt_text workdir : list N)
    (idle_after hard_cut : Z) (env : subprocess_env) :
  popen_result env = ExecutableNotFound →
  let r := generate json_loads CFG prompt_text workdir idle_after hard_cut env in
  r.2 = inr tt
  ∧ yielded r
    = [ u "event: message_start" ++ [NEWLINE];
        dq "data: {'type': 'message_start', 'message': {'id': 'msg_1', 'type': 'message', 'role': 'assistant'}}"
        ++ [NEWLINE; NEWLINE];
        u "event: content_block_start" ++ [NEWLINE];
        dq "data: {'type': 'content_block_start', 'index': 0, 'content_block': {'type': 'text', 'text': ''}}"
        ++ [NEWLINE; NEWLINE];
        u "event: content_block_delta" ++ [NEWLINE];
        dq "data: {'type': 'content_block_delta', 'index': 0, 'delta': {'type': 'text_delta', 'text': 'Codex CLI not found. Please `npm i -g @openai/codex` then `codex login`.'}}"
        ++ [NEWLINE; NEWLINE];
        u "event: content_block_stop" ++ [NEWLINE];
        dq "data: {'type': 'content_block_stop', 'index': 0}" ++ [NEWLINE; NEWLINE];
        u "event: message_delta" ++ [NEWLINE];
        dq "data: {'type': 'message_delta', 'delta': {}, 'usage': {'input_tokens': 0, 'output_tokens': 0}}"
        ++ [NEWLINE; NEWLINE];
        u "event: message_stop" ++ [NEWLINE];
        dq "data: {'type': 'message_stop'}" ++ [NEWLINE; NEWLINE] ]
  ∧ Forall (λ e, is_subprocess_io e = false) r.1.
Proof.
  intros H r. unfold r, generate, popen. rewrite H.
  split; [reflexivity|]. split; [vm_compute; reflexivity|].
  repeat constructor.
Qed.

(** C1, at a run the code does not survive.  The subprocess starts and
    prints one JSON object whose [type] is [null]: the fragment is then
    not a string, adding the newline to it raises [TypeError] outside
    the [try] block, and the generator dies after the two opening events:
    the three closing events are never yielded. *)
Theorem generate_dies_on_null_kind :
  let env := SubprocessEnv Launched None 100 [LineIn null_kind_line 101 101 101] [] in
  let r := generate json_loads_ref CFG_default (u "hi") (u "/tmp") 10 0 env in
  r.2 = inl TypeError ∧ yielded r = _iter_sse opening_items.
Proof. vm_compute. split; reflexivity. Qed.

(** A launch that fails for another reason than a missing executable is
    not handled either: the exception leaves the generator after the two
    opening events. *)
Lemma generate_dies_on_failed_launch json_loads CFG prompt_text workdir
    idle_after hard_cut env :
  popen_result env = LaunchFailed →
  let r := generate json_loads CFG prompt_text workdir idle_after hard_cut env in
  r.2 = inl OSError ∧ yielded r = _iter_sse opening_items.
Proof.
  intros H r. unfold r, generate, popen. rewrite H. split; reflexivity.
Qed.

(** ** [count_tokens] *)

Lemma falsy_dumps_short body :
  py_truthy body = false → (length (json_dumps body) < 128)%nat.
Proof.
  destruct body as [|b|n|f|s|l|d]; simpl; intros H.
  - vm_compute. lia.
  - destruct b; [done | vm_compute; lia].
  - apply negb_false_iff, Z.eqb_eq in H. subst. vm_compute. lia.
  - apply negb_false_iff, orb_true_iff in H.
    destruct H as [H|H]; apply bool_decide_eq_true in H; rewrite H; vm_compute; lia.
  - apply negb_false_iff, bool_decide_eq_true in H. subst. vm_compute. lia.
  - destruct l; [vm_compute; lia | done].
  - destruct d; [vm_compute; lia | done].
Qed.

(** C6, as the code has it.  For a body that decodes, the answer is 200
    with [input_tokens] the larger of 32 and a quarter, rounded down, of
    the number of characters of [json.dumps] of the body, and
    [output_tokens] 0.  A body on which [json.loads] raises a [ValueError]
    is taken for the empty object and gets 32.  The 128 of the [except]
    branch is answered, after a line in the log, when [json.loads] raises
    anything else, which [silent] does not swallow. *)
Theorem count_tokens_estimate :
  (∀ body : pyval,
     count_tokens (Loads body)
     = ([], inr (tokens_answer (Z.max 32 (Z.of_nat (length (json_dumps body)) / 4)))))
  ∧ (∀ e msg, except_ValueError e = true →
       count_tokens (LoadsRaises e msg) = ([], inr (tokens_answer 32)))
  ∧ (∀ e msg, except_ValueError e = false →
       count_tokens (LoadsRaises e msg)
       = ([Log (u "[count_tokens] error: " ++ msg)], inr (tokens_answer 128))).
Proof.
  split; [|split].
  - intros body.
    assert (count_tokens (Loads body)
            = ([], inr (tokens_answer
                 (Z.max 32 (int_div4 (length (json_dumps (py_or body (PDict []))))))))) as ->
      by reflexivity.
    unfold py_or.
    destruct (py_truthy body) eqn:E; [reflexivity|].
    apply falsy_dumps_short in E. unfold tokens_answer, jsonify.
    change (Z.max 32 (int_div4 (length (json_dumps (PDict [])))))%Z with 32%Z.
    assert (Z.of_nat (length (json_dumps body)) / 4 < 32)%Z.
    { apply Z.div_lt_upper_bound; lia. }
    replace (Z.max 32 (Z.of_nat (length (json_dumps body)) / 4)) with 32%Z by lia.
    reflexivity.
  - intros e msg He. unfold count_tokens, get_json_silent. rewrite He. reflexivity.
  - intros e msg He. unfold count_tokens, get_json_silent. rewrite He. reflexivity.
Qed.

(** C6 as it is worded fails on a body that is not JSON, which gets 32
    and not 128, and on a body with characters outside ASCII, whose length
    is counted in characters and not in bytes. *)
Lemma count_tokens_not_as_claimed :
  count_tokens (LoadsRaises ValueError (u "Expecting value")) = ([], inr (tokens_answer 32))
  ∧ tokens_answer 32 ≠ tokens_answer 128
  ∧ (let body := PDict [(u "a", PStr (replicate 64 0xE9))] in
     count_tokens (Loads body) = ([], inr (tokens_answer 32))
     ∧ Z.max 32 (Z.of_nat (utf8_len (json_dumps body)) / 4) = 34%Z).
Proof. vm_compute. repeat split; congruence. Qed.

(** C3 as it is worded fails on a marker line that is too long for a file
    name: the existence test raises and so does the resolver. *)
Lemma select_cwd_raises :
  length long_marker_prompt = 319%nat
  ∧ _parse_cwd_from_prompt long_marker_prompt = Some (replicate 300 0x61)
  ∧ name_max_fs (replicate 300 0x61) = inl OSError
  ∧ _select_cwd name_max_fs (inr (u "/home/relay")) CFG_default long_marker_prompt
    = inl OSError.
Proof. vm_compute. repeat split; reflexivity. Qed.

(** C4 as it is worded fails when the time since [turn.completed] is
    exactly the idle seconds: 10 does not exceed 10, and yet the loop stops
    there, after the second of three lines. *)
Lemma idle_cutoff_at_the_limit :
  let lines := [LineIn turn_completed_line 100 100 100;
                LineIn (u "x" ++ [NEWLINE]) 110 110 110;
                LineIn (u "y" ++ [NEWLINE]) 111 111 111] in
  let r := read_loop json_loads_ref CFG_default 10 0 100 lines None in
  ¬ (inject_Z 10 < 110 - 100)%Q
  ∧ r.2 = inr tt
  ∧ yielded r = _iter_sse [text_delta (u "[turn.completed]" ++ [NEWLINE]);
                          text_delta (u "x" ++ [NEWLINE])]
  ∧ readlines r.1 = 2%nat.
Proof. vm_compute. repeat split; try reflexivity. discriminate. Qed.

(** ** The shape of every stream that ends *)

Lemma yielded_chunks {A} (g : gen A) : yielded g = chunks_of g.1.
Proof. reflexivity. Qed.

Lemma chunks_of_app tr1 tr2 : chunks_of (tr1 ++ tr2) = chunks_of tr1 ++ chunks_of tr2.
Proof. apply omap_app. Qed.

Lemma chunks_of_yield cs : chunks_of (Yield <$> cs) = cs.
Proof.
  induction cs as [|c cs IH]; [done|].
  change (c :: chunks_of (Yield <$> cs) = c :: cs). by rewrite IH.
Qed.

Lemma iter_sse_app a b : _iter_sse (a ++ b) = _iter_sse a ++ _iter_sse b.
Proof. apply flat_map_app. Qed.

Lemma gen_bind_inv {A B} (m : gen A) (f : A → gen B) tr b :
  m ≫= f = (tr, inr b) →
  ∃ tr1 a tr2, m = (tr1, inr a) ∧ f a = (tr2, inr b) ∧ tr = tr1 ++ tr2.
Proof.
  destruct m as [tr1 [e|a]]; [discriminate|].
  rewrite gen_bind_inr. destruct (f a) as [tr2 r] eqn:E. simpl.
  intros [= <- ->]. by exists tr1, a, tr2.
Qed.

Lemma pretty_text_trace s ev now ltc : (pretty_text s ev now ltc).1 = [].
Proof.
  unfold pretty_text. destruct ev; try reflexivity.
  repeat match goal with
         | |- context [if ?b then _ else _] => destruct b
         | |- context [match ?v with PNone => _ | _ => _ end] => destruct v
         end; reflexivity.
Qed.

Lemma translate_total json_loads CFG s now ltc :
  ∃ r, translate json_loads CFG s now ltc = ([], inr r).
Proof.
  unfold translate. destruct (json_loads s) as [ev|]; [|by eexists].
  destruct (_pretty CFG); [|by eexists].
  pose proof (pretty_text_trace s ev now ltc) as Htr.
  destruct (pretty_text s ev now ltc) as [tr [e|r]]; simpl in Htr; subst;
    by eexists.
Qed.

Lemma handle_line_cases json_loads CFG ln ltc :
  (∃ text ltc', handle_line json_loads CFG ln ltc
                = (Yield <$> _iter_sse [text_delta text], inr ltc'))
  ∨ handle_line json_loads CFG ln ltc = ([], inr ltc)
  ∨ handle_line json_loads CFG ln ltc = ([], inl TypeError).
Proof.
  unfold handle_line. destruct (py_truthy _); [|by right; left].
  destruct (translate_total json_loads CFG (py_strip (li_raw ln)) (li_now_turn ln) ltc)
    as [[text_out ltc'] ->].
  destruct text_out; try (by right; right).
  left. by eexists _, _.
Qed.

Lemma read_loop_chunks json_loads CFG idle_after hard_cut start lines ltc :
  ∃ texts,
    chunks_of (read_loop json_loads CFG idle_after hard_cut start lines ltc).1
    = _iter_sse (text_delta <$> texts).
Proof.
  revert ltc. induction lines as [|ln rest IH]; intros ltc; [by exists []|].
  rewrite read_loop_cons. unfold perform at 1. rewrite gen_bind_inr.
  cbn [fst]. rewrite chunks_of_app.
  change (chunks_of [StdoutReadline]) with (@nil (list N)). rewrite app_nil_l.
  destruct (bool_decide (li_raw ln = [])); [by exists []|].
  assert (∀ ltc' : option Q, ∃ texts,
    chunks_of
      (if hard_cutoff hard_cut start (li_now_hard ln) then
         log [u "(relay) hard cutoff after"; py_str_int hard_cut; u "sec"]
       else if idle_cutoff idle_after ltc' (li_now_idle ln) then
         log [u "(relay) turn completed, idle"; py_str_int idle_after;
              u "sec"; [0x2192]; u "close stream."]
       else read_loop json_loads CFG idle_after hard_cut start rest ltc').1
    = _iter_sse (text_delta <$> texts)) as Hafter.
  { intros ltc'. destruct (hard_cutoff _ _ _); [by exists []|].
    destruct (idle_cutoff _ _ _); [by exists [] | apply IH]. }
  destruct (handle_line_cases json_loads CFG ln ltc)
    as [(text & ltc' & ->) | [-> | ->]].
  - rewrite gen_bind_inr. cbn beta iota delta [fst].
    destruct (Hafter ltc') as [texts Ht]. exists (text :: texts).
    change (text_delta <$> text :: texts) with ([text_delta text] ++ (text_delta <$> texts)).
    rewrite chunks_of_app, chunks_of_yield, iter_sse_app.
    f_equal. exact Ht.
  - rewrite gen_bind_inr. cbn beta iota delta [fst app]. apply Hafter.
  - by exists [].
Qed.

Lemma forward_stderr_chunks env :
  ∃ texts, chunks_of (forward_stderr env).1 = _iter_sse (text_delta <$> texts)
           ∧ ∃ tr, forward_stderr env = (tr, inr tt).
Proof.
  unfold forward_stderr, perform. rewrite gen_bind_inr.
  destruct (py_truthy (PStr (stderr_tail env))); [|exists []; split; [done | by eexists]].
  destruct (py_truthy (PStr (py_strip _)));
    [|exists []; split; [done | by eexists]].
  eexists [_]. split; [reflexivity | by eexists].
Qed.

Lemma feed_prompt_chunks env prompt_text :
  ∃ tr, feed_prompt env prompt_text = (tr, inr tt) ∧ chunks_of tr = [].
Proof.
  unfold feed_prompt. destruct (stdin_error env); by eexists.
Qed.

Lemma chunks_of_bind {A B} (m : gen A) (f : A → gen B) :
  chunks_of (m ≫= f).1
  = chunks_of m.1 ++ match m.2 with
                     | inr a => chunks_of (f a).1
                     | inl _ => []
                     end.
Proof.
  destruct m as [tr [e|a]].
  - rewrite gen_bind_inl. cbn [fst snd]. by rewrite app_nil_r.
  - rewrite gen_bind_inr. cbn [fst snd]. by rewrite chunks_of_app.
Qed.

(** Every run of the generator yields the two opening events first. *)
Lemma generate_opens json_loads CFG prompt_text workdir idle_after hard_cut env :
  ∃ more, yielded (generate json_loads CFG prompt_text workdir idle_after hard_cut env)
          = _iter_sse opening_items ++ more.
Proof.
  unfold yielded, generate. rewrite chunks_of_bind.
  change (chunks_of (yield_from (_iter_sse opening_items)).1)
    with (chunks_of (Yield <$> _iter_sse opening_items)).
  rewrite chunks_of_yield. by eexists.
Qed.

Lemma gen_eq_fst {A} (g : gen A) tr r : g = (tr, r) → tr = g.1.
Proof. by intros ->. Qed.

Lemma chunks_of_yield_from cs : chunks_of (yield_from cs).1 = cs.
Proof. apply chunks_of_yield. Qed.

Lemma chunks_of_log a : chunks_of (log a).1 = [].
Proof. reflexivity. Qed.

(** A run that no exception ends yields the opening events, deltas and
    the closing events, whichever way the read loop was left. *)
Lemma generate_returns_bracketed json_loads CFG prompt_text workdir idle_after
    hard_cut env tr :
  generate json_loads CFG prompt_text workdir idle_after hard_cut env = (tr, inr tt) →
  ∃ texts, chunks_of tr
           = _iter_sse (opening_items ++ (text_delta <$> texts) ++ closing_items).
Proof.
  unfold generate. intros H.
  apply gen_bind_inv in H as (tr1 & [] & ta & H1 & H & ->).
  apply gen_bind_inv in H as (tr2 & [] & tb & H2 & H & ->).
  apply gen_bind_inv in H as (tr3 & launched & tc & H3 & H & ->).
  apply gen_eq_fst in H1, H2. subst tr1 tr2.
  rewrite !chunks_of_app, chunks_of_yield_from, chunks_of_log, app_nil_l.
  unfold popen in H3. destruct (popen_result env) eqn:Hp.
  - (* launched *)
    assert (launched = true ∧ chunks_of tr3 = []) as [-> Htr3].
    { revert H3. clear. by intros [= <- <-]. }
    apply gen_bind_inv in H as (tr4 & [] & td & H4 & H & ->).
    apply gen_bind_inv in H as (tr5 & [] & te & H5 & H & ->).
    apply gen_bind_inv in H as (tr6 & [] & tf & H6 & H & ->).
    apply gen_eq_fst in H. subst tf.
    destruct (feed_prompt_chunks env prompt_text) as (tr0 & E0 & H0).
    rewrite E0 in H4. apply gen_eq_fst in H4. cbn [fst] in H4. subst tr4.
    pose proof (read_loop_chunks json_loads CFG idle_after hard_cut
                  (clock_start env) (stdout_lines env) None) as [t1 Ht1].
    rewrite H5 in Ht1. cbn [fst] in Ht1.
    destruct (forward_stderr_chunks env) as (t2 & Ht2 & _).
    rewrite H6 in Ht2. cbn [fst] in Ht2.
    exists (t1 ++ t2).
    rewrite !chunks_of_app, chunks_of_yield_from, Htr3, H0, Ht1, Ht2.
    by rewrite fmap_app, !iter_sse_app, !app_nil_l, <- !app_assoc.
  - (* the executable is not found *)
    assert (launched = false
            ∧ chunks_of tr3 = _iter_sse ([text_delta codex_not_found] ++ closing_items))
      as [-> Htr3].
    { revert H3. clear. by intros [= <- <-]. }
    apply gen_eq_fst in H. subst tc. exists [codex_not_found].
    rewrite Htr3. change (chunks_of (mret ()).1) with (@nil (list N)).
    by rewrite app_nil_r, !iter_sse_app.
  - discriminate.
Qed.

(** A JSON object whose [type] is not a string has no fragment that can
    take the newline: the loop body raises. *)
Lemma handle_line_non_string_kind json_loads CFG ln ltc ev kind :
  _pretty CFG = true →
  py_strip (li_raw ln) ≠ [] →
  json_loads (py_strip (li_raw ln)) = Some (PDict ev) →
  dict_get ev (u "type") = Some kind → is_str kind = false →
  handle_line json_loads CFG ln ltc = ([], inl TypeError).
Proof.
  intros Hp Hs Hl Hk Hns. unfold handle_line, translate.
  assert (py_truthy (PStr (py_strip (li_raw ln))) = true) as ->.
  { simpl. by rewrite bool_decide_eq_false_2. }
  rewrite Hl, Hp. unfold pretty_text.
  rewrite (py_get_some _ _ _ Hk). unfold dict_get_or. rewrite Hk.
  destruct kind; try discriminate; reflexivity.
Qed.

(** ** The properties at concrete inputs *)

Lemma pretty_default : _pretty CFG_default = true.
Proof. vm_compute. reflexivity. Qed.

(** C2 on the lines of the specification: plain text, an agent message, a
    completed turn, an unknown kind. *)
Lemma translate_pretty_witness :
  _pretty CFG_default = true
  ∧ translate json_loads_ref CFG_default (u "hello") 5 None
    = ([], inr (PStr (u "hello"), None))
  ∧ translate json_loads_ref CFG_default agent_message_event 5 None
    = ([], inr (PStr (u "hi"), None))
  ∧ translate json_loads_ref CFG_default (py_strip turn_completed_line) 5 None
    = ([], inr (PStr (u "[turn.completed]"), Some 5%Q))
  ∧ translate json_loads_ref CFG_default unknown_kind_event 5 None
    = ([], inr (PStr (u "unknown_kind"), None)).
Proof.
  split; [exact pretty_default|].
  split.
  { apply (translate_pretty json_loads_ref CFG_default (u "hello") 5 None
             pretty_default).
    vm_compute. reflexivity. }
  split.
  { apply (proj1 (proj2 (translate_pretty json_loads_ref CFG_default
                           agent_message_event 5 None pretty_default))
             [(u "type", PStr (u "item.completed"));
              (u "item", PDict [(u "type", PStr (u "agent_message"));
                                (u "text", PStr (u "hi"))])]
             [(u "type", PStr (u "agent_message")); (u "text", PStr (u "hi"))]
             (u "agent_message") (u "hi"));
      try (vm_compute; reflexivity).
    by left. }
  split.
  { apply (proj1 (proj2 (proj2 (translate_pretty json_loads_ref CFG_default
                                  (py_strip turn_completed_line) 5 None
                                  pretty_default)))
             [(u "type", PStr (u "turn.completed"))]);
      vm_compute; reflexivity. }
  apply (proj2 (proj2 (proj2 (translate_pretty json_loads_ref CFG_default
                                unknown_kind_event 5 None pretty_default)))
           [(u "type", PStr (u "unknown_kind"))] (u "unknown_kind"));
    try (vm_compute; reflexivity); vm_compute; discriminate.
Defined.

(** C8 on an [item.completed] event that carries a command. *)
Lemma translate_item_unrecognized_witness :
  translate json_loads_ref CFG_default command_item_event 5 None
  = ([], inr (PStr command_item_event, None)).
Proof.
  apply (translate_item_unrecognized json_loads_ref CFG_default
           command_item_event 5 None
           [(u "type", PStr (u "item.completed"));
            (u "item", PDict [(u "type", PStr (u "command_execution"));
                              (u "text", PStr (u "ls"))])]
           [(u "type", PStr (u "command_execution")); (u "text", PStr (u "ls"))]
           pretty_default);
    try (vm_compute; reflexivity).
  left. split; vm_compute; discriminate.
Defined.

(** C9 on a line that holds a number. *)
Lemma handle_line_non_object_witness :
  let ln := LineIn (u "42" ++ [NEWLINE]) 5 5 5 in
  pretty_text (u "42") (PInt 42) 5 None = ([], inl AttributeError)
  ∧ handle_line json_loads_ref CFG_default ln None
    = (Yield <$> _iter_sse [text_delta (u "42" ++ [NEWLINE])], inr None).
Proof.
  apply (handle_line_non_object json_loads_ref CFG_default
           (LineIn (u "42" ++ [NEWLINE]) 5 5 5) None (PInt 42) pretty_default).
  - vm_compute. discriminate.
  - vm_compute. reflexivity.
  - discriminate.
Defined.

(** C3 on the three cases of the precedence, and on a marker line that
    is too long for a file name. *)
Lemma select_cwd_precedence_witness :
  _select_cwd two_dirs (inr (u "/home/relay")) CFG_workdir (u "Working directory: /tmp/x")
  = inr (PathOf (u "/tmp/x"))
  ∧ _select_cwd two_dirs (inr (u "/home/relay")) CFG_workdir
      (u "Working directory: /nope")
    = inr (PathOf (u "/srv/work"))
  ∧ _select_cwd two_dirs (inr (u "/home/relay")) CFG_default (u "fix the bug")
    = inr (PathOf (u "/home/relay"))
  ∧ _select_cwd name_max_fs (inr (u "/home/relay")) CFG_default long_marker_prompt
    = inl OSError.
Proof.
  split; [|split; [|split]].
  - apply (proj1 (select_cwd_precedence two_dirs (inr (u "/home/relay")) CFG_workdir
                    (u "Working directory: /tmp/x")) (u "/tmp/x")).
    + vm_compute. reflexivity.
    + split; [discriminate | vm_compute; reflexivity].
  - apply (proj1 (proj2 (select_cwd_precedence two_dirs (inr (u "/home/relay"))
                           CFG_workdir (u "Working directory: /nope")))).
    + intros c Hc. vm_compute in Hc. injection Hc as <-.
      right. vm_compute. reflexivity.
    + split; [vm_compute; discriminate | vm_compute; reflexivity].
  - apply (proj1 (proj2 (proj2 (select_cwd_precedence two_dirs (inr (u "/home/relay"))
                                  CFG_default (u "fix the bug"))))).
    + intros c Hc. vm_compute in Hc. discriminate.
    + left. vm_compute. reflexivity.
  - apply (proj1 (proj2 (proj2 (proj2
             (select_cwd_precedence name_max_fs (inr (u "/home/relay")) CFG_default
                long_marker_prompt)))) (replicate 300 0x61)).
    + vm_compute. reflexivity.
    + split; [vm_compute; discriminate | vm_compute; reflexivity].
Defined.

(** C10 on a marker in capitals in the middle of a prompt, followed by a
    second marker, with a quoted path. *)
Lemma parse_cwd_marker_witness :
  _parse_cwd_from_prompt
    (u "please use " ++ u "working DIRECTORY:" ++ u "  "
     ++ (DQUOTE :: u "/tmp/x" ++ [DQUOTE])
     ++ NEWLINE :: u "Working directory: /other")
  = Some (u "/tmp/x")
  ∧ _parse_cwd_from_prompt (u "working directory: /x") = Some (u "/x")
  ∧ clean_cwd (SQUOTE :: u "/tmp/x" ++ [SQUOTE]) = u "/tmp/x"
  ∧ _select_cwd two_dirs (inr (u "/home/relay")) CFG_default
      (u "Working directory: " ++ DQUOTE :: u "/tmp/x" ++ [DQUOTE])
    = inr (PathOf (u "/tmp/x")).
Proof.
  destruct parse_cwd_marker as (Hfind & Hquote & Hselect).
  assert (plain_ends (u "/tmp/x")) as Hplain.
  { exists 0x2F, 0x78. repeat split; try reflexivity; discriminate. }
  split; [|split; [|split]].
  - rewrite <- (proj1 (Hquote (u "/tmp/x") Hplain)) at 2.
    apply (Hfind (u "please use ") (u "working DIRECTORY:") (u "  ")
             (DQUOTE :: u "/tmp/x" ++ [DQUOTE])
             (NEWLINE :: u "Working directory: /other")).
    + vm_compute. reflexivity.
    + intros i Hi.
      do 11 (destruct i as [|i]; [vm_compute; reflexivity|]).
      vm_compute in Hi. lia.
    + repeat constructor.
    + eexists _, _. split; [reflexivity | vm_compute; reflexivity].
    + vm_compute. intros H.
      repeat (apply elem_of_cons in H as [H|H]; [discriminate|]).
      by apply elem_of_nil in H.
    + right. by eexists.
  - change (u "working directory: /x")
      with ([] ++ u "working directory:" ++ u " " ++ u "/x" ++ []).
    apply (Hfind [] (u "working directory:") (u " ") (u "/x") []).
    + vm_compute. reflexivity.
    + intros i Hi. vm_compute in Hi. lia.
    + repeat constructor.
    + eexists _, _. split; [reflexivity | vm_compute; reflexivity].
    + vm_compute. intros H.
      repeat (apply elem_of_cons in H as [H|H]; [discriminate|]).
      by apply elem_of_nil in H.
    + by left.
  - apply (Hquote (u "/tmp/x") Hplain).
  - apply Hselect; [vm_compute; reflexivity | discriminate | vm_compute; reflexivity].
Defined.

(** C4 on a line read 10 seconds after the turn was completed, and on one
    read 5 seconds after it. *)
Lemma read_loop_cutoffs_witness :
  let late := LineIn (u "x" ++ [NEWLINE]) 110 110 110 in
  let early := LineIn (u "x" ++ [NEWLINE]) 105 105 105 in
  let next := LineIn (u "y" ++ [NEWLINE]) 111 111 111 in
  let tr := Yield <$> _iter_sse [text_delta (u "x" ++ [NEWLINE])] in
  let loop := read_loop json_loads_ref CFG_default 10 0 100 in
  (∃ msg, loop [late; next] (Some 100%Q) = (StdoutReadline :: tr ++ [Log msg], inr tt))
  ∧ loop [early; next] (Some 100%Q)
    = (StdoutReadline :: tr ++ (loop [next] (Some 100%Q)).1,
       (loop [next] (Some 100%Q)).2)
  ∧ (1 ≤ 10)%Z ∧ (0 ≤ 0)%Z.
Proof.
  intros late early next tr loop.
  assert (∀ ln, ln = late ∨ ln = early →
          handle_line json_loads_ref CFG_default ln (Some 100%Q)
          = (tr, inr (Some 100%Q))) as Hline.
  { intros ln [-> | ->]; vm_compute; reflexivity. }
  pose proof (read_loop_cutoffs json_loads_ref CFG_default 10 0 100 late [next]
                (Some 100%Q) (Some 100%Q) tr
                ltac:(discriminate) ltac:(lia) (Hline late (or_introl eq_refl)))
    as (Hstop & _ & Hidle & Hhard).
  pose proof (read_loop_cutoffs json_loads_ref CFG_default 10 0 100 early [next]
                (Some 100%Q) (Some 100%Q) tr
                ltac:(discriminate) ltac:(lia) (Hline early (or_intror eq_refl)))
    as (_ & Hgo & _ & _).
  split; [|split; [|split]].
  - apply Hstop. right. exists 100%Q. split; [reflexivity|]. split.
    + intros H. vm_compute in H. discriminate.
    + vm_compute. discriminate.
  - apply Hgo. intros [[H _] | (t & Ht & _ & Hle)]; [lia|].
    injection Ht as <-. vm_compute in Hle. by apply Hle.
  - apply (Hidle py_int_ref [] 10%Z). vm_compute. reflexivity.
  - apply (Hhard py_int_ref [] 0%Z). vm_compute. reflexivity.
Defined.

(** C5 on a request for which [codex] is not installed. *)
Lemma generate_launch_not_found_witness :
  let env := SubprocessEnv ExecutableNotFound None 100 [] [] in
  let r := generate json_loads_ref CFG_default (u "hi") (u "/tmp") 10 0 env in
  popen_result env = ExecutableNotFound
  ∧ r.2 = inr tt
  ∧ yielded r
    = [ u "event: message_start" ++ [NEWLINE];
        dq "data: {'type': 'message_start', 'message': {'id': 'msg_1', 'type': 'message', 'role': 'assistant'}}"
        ++ [NEWLINE; NEWLINE];
        u "event: content_block_start" ++ [NEWLINE];
        dq "data: {'type': 'content_block_start', 'index': 0, 'content_block': {'type': 'text', 'text': ''}}"
        ++ [NEWLINE; NEWLINE];
        u "event: content_block_delta" ++ [NEWLINE];
        dq "data: {'type': 'content_block_delta', 'index': 0, 'delta': {'type': 'text_delta', 'text': 'Codex CLI not found. Please `npm i -g @openai/codex` then `codex login`.'}}"
        ++ [NEWLINE; NEWLINE];
        u "event: content_block_stop" ++ [NEWLINE];
        dq "data: {'type': 'content_block_stop', 'index': 0}" ++ [NEWLINE; NEWLINE];
        u "event: message_delta" ++ [NEWLINE];
        dq "data: {'type': 'message_delta', 'delta': {}, 'usage': {'input_tokens': 0, 'output_tokens': 0}}"
        ++ [NEWLINE; NEWLINE];
        u "event: message_stop" ++ [NEWLINE];
        dq "data: {'type': 'message_stop'}" ++ [NEWLINE; NEWLINE] ]
  ∧ Forall (λ e, is_subprocess_io e = false) r.1.
Proof.
  intros env r. split; [reflexivity|].
  apply (generate_launch_not_found json_loads_ref CFG_default (u "hi") (u "/tmp")
           10 0 env eq_refl).
Defined.

(** C6 on a body nested too deep for [json.loads]. *)
Lemma count_tokens_estimate_witness :
  let msg := u "maximum recursion depth exceeded" in
  count_tokens (LoadsRaises RecursionError msg)
  = ([Log (u "[count_tokens] error: " ++ msg)], inr (tokens_answer 128)).
Proof.
  intros msg.
  apply (proj2 (proj2 count_tokens_estimate) RecursionError msg). reflexivity.
Defined.


(** * Further properties of the relay *)

(** ** [load_env] *)

Lemma load_env_lines_cons line rest CFG :
  load_env_lines (line :: rest) CFG
  = load_env_lines rest
      (match env_assignment line with
       | Some (k, v) => <[k := v]> CFG
       | None => CFG
       end).
Proof.
  unfold env_assignment. cbn [load_env_lines].
  destruct (py_strip line) as [|c l]; [reflexivity|].
  destruct (c =? 0x23); [reflexivity|].
  destruct (split_eq (c :: l)) as [[k v]|]; reflexivity.
Qed.

(** X1. A key that no line of the file assigns keeps the value it had:
    the built-in defaults survive a file that does not mention them. *)
Theorem load_env_keeps_unassigned (lines : list (list N))
    (CFG : gmap (list N) (list N)) (k : list N) :
  (∀ line v, line ∈ lines → env_assignment line ≠ Some (k, v)) →
  load_env_lines lines CFG !! k = CFG !! k.
Proof.
  revert CFG. induction lines as [|line rest IH]; intros CFG H; [done|].
  rewrite load_env_lines_cons, IH.
  - destruct (env_assignment line) as [[k' v]|] eqn:E; [|done].
    apply lookup_insert_ne. intros ->. apply (H line v); [by left | done].
  - intros l v Hl. apply H. by right.
Qed.

(** X2. The last line that assigns a key decides its value: later
    assignments override earlier ones and the built-in default. *)
Theorem load_env_last_wins (before after : list (list N)) (line : list N)
    (CFG : gmap (list N) (list N)) (k v : list N) :
  env_assignment line = Some (k, v) →
  (∀ l v', l ∈ after → env_assignment l ≠ Some (k, v')) →
  load_env_lines (before ++ line :: after) CFG !! k = Some v.
Proof.
  intros Hl Hafter.
  assert (∀ CFG', load_env_lines after CFG' !! k = CFG' !! k) as Hkeep.
  { clear Hl. induction after as [|a after IH]; intros CFG'; [done|].
    rewrite load_env_lines_cons, IH by (intros l v' Hin; apply Hafter; by right).
    destruct (env_assignment a) as [[k' v']|] eqn:E; [|done].
    apply lookup_insert_ne. intros ->. apply (Hafter a v'); [by left | done]. }
  revert CFG. induction before as [|b before IH]; intros CFG.
  - rewrite app_nil_l, load_env_lines_cons, Hl, Hkeep. apply lookup_insert_eq.
  - change ((b :: before) ++ line :: after) with (b :: (before ++ line :: after)).
    rewrite load_env_lines_cons. by apply IH.
Qed.

Lemma split_eq_first k v :
  0x3D ∉ k → split_eq (k ++ 0x3D :: v) = Some (k, v).
Proof.
  induction k as [|c k IH]; intros H; [reflexivity|].
  simpl. destruct (c =? 0x3D) eqn:E.
  - apply N.eqb_eq in E. subst. destruct H. by left.
  - rewrite IH; [done|]. intros Hin. apply H. by right.
Qed.

(** X3. A line [KEY=VALUE] without blanks at its ends, that does not start
    with [#], is split at its first [=]: the value may hold further [=]
    signs, and key and value are stripped before they are stored. *)
Theorem env_assignment_first_eq (k v : list N) :
  py_strip (k ++ 0x3D :: v) = k ++ 0x3D :: v →
  head (k ++ 0x3D :: v) ≠ Some 0x23 →
  0x3D ∉ k →
  env_assignment (k ++ 0x3D :: v) = Some (py_strip k, py_strip v)
  ∧ ∀ CFG, load_env_lines [k ++ 0x3D :: v] CFG = <[py_strip k := py_strip v]> CFG.
Proof.
  intros Hs Hh Hk.
  assert (env_assignment (k ++ 0x3D :: v) = Some (py_strip k, py_strip v)) as E.
  { unfold env_assignment. rewrite Hs.
    destruct (k ++ 0x3D :: v) as [|c l] eqn:El; [by destruct k|].
    destruct (c =? 0x23) eqn:Ec.
    { apply N.eqb_eq in Ec. subst. by destruct Hh. }
    rewrite <- El. by rewrite split_eq_first. }
  split; [exact E|]. intros CFG. by rewrite load_env_lines_cons, E.
Qed.

(** ** The prompt of a request *)

Lemma gen_bind_pure {A B} (a : A) (f : A → gen B) :
  (([], inr a) : gen A) ≫= f = f a.
Proof. rewrite gen_bind_inr. by destruct (f a). Qed.

Lemma gen_bind_ret {A B} (a : A) (f : A → gen B) : (mret a : gen A) ≫= f = f a.
Proof.
  change (mret a : gen A) with (([], inr a) : gen A). rewrite gen_bind_inr.
  by destruct (f a).
Qed.

Lemma parts_texts_flat parts ts :
  parts_texts parts ts →
  flat_map (λ part,
      match part with
      | PDict pd =>
          if py_eq_str (py_get pd (u "type")) (u "text")
          then [dict_get_or pd (u "text") (PStr [])]
          else []
      | _ => []
      end) parts
  = PStr <$> ts.
Proof.
  match goal with |- _ → flat_map ?g _ = _ => set (f := g) end.
  induction 1 as [|pd t parts ts Hty Htx _ IH|pd parts ts Hty _ IH|p parts ts Hp _ IH];
    [done|..].
  - change (f (PDict pd) ++ flat_map f parts = PStr <$> t :: ts).
    rewrite IH. unfold f.
    rewrite (py_get_some _ _ _ Hty), py_eq_str_refl. unfold dict_get_or.
    by rewrite Htx.
  - change (f (PDict pd) ++ flat_map f parts = PStr <$> ts).
    rewrite IH. unfold f. by rewrite Hty.
  - change (f p ++ flat_map f parts = PStr <$> ts).
    rewrite IH. unfold f. destruct p; try reflexivity. by destruct (Hp d).
Qed.

Lemma message_texts_gives m ts :
  message_gives m ts → message_texts m = ([], inr (PStr <$> ts)).
Proof.
  intros [md c Hc | md parts ts' Hc Hp]; unfold message_texts.
  - by rewrite (py_get_some _ _ _ Hc).
  - rewrite (py_get_some _ _ _ Hc). by rewrite (parts_texts_flat _ _ Hp).
Qed.

Lemma gen_for_message_texts ms (tss : list (list (list N))) :
  Forall2 message_gives ms tss →
  gen_for message_texts ms
  = ([], inr ((λ ts : list (list N), PStr <$> ts) <$> tss)).
Proof.
  induction 1 as [|m ts ms tss Hm _ IH]; [reflexivity|].
  cbn [gen_for]. rewrite (message_texts_gives _ _ Hm), gen_bind_inr.
  cbn [fst snd]. rewrite IH, gen_bind_inr. reflexivity.
Qed.

Lemma py_join_vals_strs sep ts :
  py_join_vals sep (PStr <$> ts) = ([], inr (py_join sep ts)).
Proof.
  induction ts as [|t ts IH]; [reflexivity|].
  destruct ts as [|t' ts]; [reflexivity|].
  change (py_join_vals sep (PStr <$> t :: t' :: ts))
    with (tl ← py_join_vals sep (PStr <$> t' :: ts); mret (t ++ sep ++ tl)).
  rewrite IH, gen_bind_inr. reflexivity.
Qed.

Lemma concat_fmap_strs (tss : list (list (list N))) :
  concat ((λ ts : list (list N), PStr <$> ts) <$> tss) = PStr <$> concat tss.
Proof.
  induction tss as [|ts tss IH]; [reflexivity|].
  cbn [fmap list_fmap concat]. fold (@fmap list _ _ _ (λ ts : list (list N), PStr <$> ts) tss).
  by rewrite IH, fmap_app.
Qed.

Lemma gather_prompt_value v :
  gather_prompt (Loads v)
  = match py_or v (PDict []) with
    | PDict body =>
        ms ← py_iter (dict_get_or body (u "messages") (PList []));
        texts ← gen_for message_texts ms;
        py_join_vals [NEWLINE] (concat texts)
    | _ => raise AttributeError
    end.
Proof. unfold gather_prompt, get_json_silent. apply gen_bind_ret. Qed.

Lemma gather_prompt_object body :
  body ≠ [] →
  gather_prompt (Loads (PDict body))
  = (ms ← py_iter (dict_get_or body (u "messages") (PList []));
     texts ← gen_for message_texts ms;
     py_join_vals [NEWLINE] (concat texts)).
Proof. intros H. rewrite gather_prompt_value. destruct body; [done | reflexivity]. Qed.

Lemma dict_get_nonempty body k v : dict_get body k = Some v → body ≠ [].
Proof. by destruct body. Qed.

Lemma dict_get_or_some body k v dflt :
  dict_get body k = Some v → dict_get_or body k dflt = v.
Proof. unfold dict_get_or. by intros ->. Qed.

(** X4. For a body whose [messages] is a list of messages with string or
    part-list contents, the prompt is the texts of the messages, in order,
    joined by newlines; parts that are not text parts add nothing. *)
Theorem gather_prompt_joins (body : list (list N * pyval)) (ms : list pyval)
    (tss : list (list (list N))) :
  dict_get body (u "messages") = Some (PList ms) →
  Forall2 message_gives ms tss →
  gather_prompt (Loads (PDict body)) = ([], inr (py_join [NEWLINE] (concat tss))).
Proof.
  intros Hms Hall.
  rewrite gather_prompt_object by (by eapply dict_get_nonempty).
  rewrite (dict_get_or_some _ _ _ _ Hms).
  change (py_iter (PList ms)) with (mret ms : gen (list pyval)).
  rewrite gen_bind_ret, (gen_for_message_texts _ _ Hall), gen_bind_inr.
  cbn [fst snd app]. by rewrite concat_fmap_strs, py_join_vals_strs.
Qed.

(** X5. A body on which [json.loads] raises a [ValueError] (it is not
    JSON, or not UTF-8), a body that is falsy ([null], [0], an empty list
    or object) and an object without [messages] all give the empty
    prompt: none of them is an error.  A body on which [json.loads]
    raises anything else (a [RecursionError] on deep nesting) is one: the
    exception leaves the handler, which has no [try]. *)
Theorem gather_prompt_empty :
  (∀ e msg, except_ValueError e = true →
            gather_prompt (LoadsRaises e msg) = ([], inr []))
  ∧ (∀ v, py_truthy v = false → gather_prompt (Loads v) = ([], inr []))
  ∧ (∀ body, dict_get body (u "messages") = None →
             gather_prompt (Loads (PDict body)) = ([], inr []))
  ∧ (∀ e msg, except_ValueError e = false →
              gather_prompt (LoadsRaises e msg) = ([], inl e)).
Proof.
  split; [|split; [|split]].
  - intros e msg He. unfold gather_prompt, get_json_silent. rewrite He. reflexivity.
  - intros v Hv. rewrite gather_prompt_value. unfold py_or. by rewrite Hv.
  - intros body Hb. destruct body as [|kv body]; [reflexivity|].
    rewrite gather_prompt_object by done.
    unfold dict_get_or. by rewrite Hb.
  - intros e msg He. unfold gather_prompt, get_json_silent. rewrite He. reflexivity.
Qed.

(** X6. A body of the wrong shape makes the handler raise before any
    stream is opened: a truthy body that is not an object and a message
    that is not an object raise [AttributeError], a [messages] that cannot
    be iterated and a text part whose [text] is not a string raise
    [TypeError]. *)
Theorem gather_prompt_malformed :
  (∀ v, py_truthy v = true → (∀ d, v ≠ PDict d) →
        gather_prompt (Loads v) = ([], inl AttributeError))
  ∧ (∀ body m ms, dict_get body (u "messages") = Some (PList (m :: ms)) →
        (∀ d, m ≠ PDict d) →
        gather_prompt (Loads (PDict body)) = ([], inl AttributeError))
  ∧ (∀ body v, dict_get body (u "messages") = Some v →
        (∀ l, v ≠ PList l) → (∀ s, v ≠ PStr s) → (∀ d, v ≠ PDict d) →
        gather_prompt (Loads (PDict body)) = ([], inl TypeError))
  ∧ (∀ body md pd t, dict_get body (u "messages") = Some (PList [PDict md]) →
        dict_get md (u "content") = Some (PList [PDict pd]) →
        dict_get pd (u "type") = Some (PStr (u "text")) →
        dict_get pd (u "text") = Some t → is_str t = false →
        gather_prompt (Loads (PDict body)) = ([], inl TypeError)).
Proof.
  split; [|split; [|split]].
  - intros v Hv Hd. rewrite gather_prompt_value. unfold py_or.
    rewrite Hv. destruct v; try reflexivity. by destruct (Hd d).
  - intros body m ms Hb Hm.
    rewrite gather_prompt_object by (by eapply dict_get_nonempty).
    rewrite (dict_get_or_some _ _ _ _ Hb).
    change (py_iter (PList (m :: ms))) with (mret (m :: ms) : gen (list pyval)).
    rewrite gen_bind_ret. cbn [gen_for].
    assert (message_texts m = ([], inl AttributeError)) as ->.
    { destruct m; try reflexivity. by destruct (Hm d). }
    reflexivity.
  - intros body v Hb Hl Hs Hd.
    rewrite gather_prompt_object by (by eapply dict_get_nonempty).
    rewrite (dict_get_or_some _ _ _ _ Hb).
    destruct v; try reflexivity.
    + by destruct (Hs s).
    + by destruct (Hl l).
    + by destruct (Hd d).
  - intros body md pd t Hb Hc Hty Htx Hns.
    rewrite gather_prompt_object by (by eapply dict_get_nonempty).
    rewrite (dict_get_or_some _ _ _ _ Hb).
    change (py_iter (PList [PDict md])) with (mret [PDict md] : gen (list pyval)).
    rewrite gen_bind_ret. cbn [gen_for]. unfold message_texts.
    rewrite (py_get_some _ _ _ Hc). cbn [flat_map].
    rewrite (py_get_some _ _ _ Hty), py_eq_str_refl.
    rewrite (dict_get_or_some _ _ _ _ Htx).
    destruct t; try discriminate; reflexivity.
Qed.

(** ** The handler [messages] *)


(** X8. A configured number that is absent or empty falls back to the
    built-in text, and one that [int] rejects raises [ValueError]: for
    either number, a request whose prompt is gathered and whose directory
    is resolved then raises [ValueError] before a stream is opened. *)
Theorem cfg_int_fallback CFG py_int (k dflt : list N) :
  (CFG !! k = None ∨ CFG !! k = Some [] →
   cfg_int CFG py_int k dflt
   = match py_int dflt with
     | Some n => ([], inr n)
     | None => ([], inl ValueError)
     end)
  ∧ (∀ v, CFG !! k = Some v → v ≠ [] → py_int v = None →
          cfg_int CFG py_int k dflt = ([], inl ValueError))
  ∧ (∀ json_loads path_exists process_cwd path_str parsed env prompt workdir,
       gather_prompt parsed = ([], inr prompt) →
       _select_cwd path_exists process_cwd CFG prompt = inr workdir →
       cfg_int CFG py_int (u "CODEX_IDLE_AFTER_TURN_SEC") (u "10")
       = ([], inl ValueError)
       ∨ (∃ i, cfg_int CFG py_int (u "CODEX_IDLE_AFTER_TURN_SEC") (u "10") = ([], inr i))
         ∧ cfg_int CFG py_int (u "CODEX_MAX_RUN_SEC") (u "0") = ([], inl ValueError) →
       messages json_loads CFG py_int path_exists process_cwd path_str parsed env
       = ([], inl ValueError)).
Proof.
  split; [|split].
  - intros H. unfold cfg_int, cfg_get.
    destruct H as [-> | ->]; cbn [default from_option id].
    + destruct (py_truthy (PStr dflt)); by destruct (py_int dflt).
    + change (py_truthy (PStr [])) with false. by destruct (py_int dflt).
  - intros v Hv Hne Hint. unfold cfg_int, cfg_get. rewrite Hv.
    cbn [default from_option id].
    assert (py_truthy (PStr v) = true) as ->.
    { simpl. by rewrite bool_decide_eq_false_2. }
    by rewrite Hint.
  - intros json_loads path_exists process_cwd path_str parsed env prompt workdir Hg Hw
      [Hi | [[i Hi] Hh]];
      unfold messages, idle_after_of_cfg, hard_cut_of_cfg;
      by rewrite Hg, Hi, ?Hh, gen_bind_pure, Hw.
Qed.

(** ** The end of a stream *)




(** ** Streams that differ only in what the client does not see *)

Lemma same_stream_refl {A} (g : gen A) : same_stream g g.
Proof. by split. Qed.

Lemma same_stream_bind {A B} (g1 g2 : gen A) (f1 f2 : A → gen B) :
  same_stream g1 g2 → (∀ a, same_stream (f1 a) (f2 a)) →
  same_stream (g1 ≫= f1) (g2 ≫= f2).
Proof.
  destruct g1 as [t1 r1], g2 as [t2 r2]. intros [Hc Hr] Hf.
  cbn [fst snd] in Hc, Hr. subst r2. destruct r1 as [e|a].
  - rewrite !gen_bind_inl. by split.
  - rewrite !gen_bind_inr. destruct (Hf a) as [Hfc Hfr].
    split; cbn [fst snd]; [|exact Hfr].
    by rewrite !chunks_of_app, Hc, Hfc.
Qed.

Lemma feed_prompt_same p c l s msg prompt_text :
  same_stream (feed_prompt (SubprocessEnv p (Some msg) c l s) prompt_text)
              (feed_prompt (SubprocessEnv p None c l s) prompt_text).
Proof. by split. Qed.

(** X10. A failure to write the prompt to the subprocess is not fatal and
    is not shown to the client: the stream that follows, and the way it
    ends, are those of the run in which the write succeeds. *)
Theorem stdin_failure_is_silent json_loads CFG (prompt_text workdir : list N)
    (idle_after hard_cut : Z) (p : popen_outcome) (start : Q)
    (lines : list line_in) (stderr msg : list N) :
  same_stream
    (generate json_loads CFG prompt_text workdir idle_after hard_cut
       (SubprocessEnv p (Some msg) start lines stderr))
    (generate json_loads CFG prompt_text workdir idle_after hard_cut
       (SubprocessEnv p None start lines stderr)).
Proof.
  unfold generate.
  apply same_stream_bind; [apply same_stream_refl | intros _].
  apply same_stream_bind; [apply same_stream_refl | intros _].
  apply same_stream_bind; [apply same_stream_refl | intros launched].
  destruct launched; [|apply same_stream_refl].
  apply same_stream_bind; [apply feed_prompt_same | intros _].
  apply same_stream_refl.
Qed.

(** ** Raw mode *)

Lemma translate_raw json_loads CFG s now ltc :
  _pretty CFG = false →
  translate json_loads CFG s now ltc = ([], inr (PStr s, ltc)).
Proof.
  intros Hp. unfold translate. rewrite Hp. by destruct (json_loads s).
Qed.

Lemma handle_line_raw json_loads CFG ln ltc :
  _pretty CFG = false →
  handle_line json_loads CFG ln ltc
  = if bool_decide (py_strip (li_raw ln) = []) then ([], inr ltc)
    else (Yield <$> _iter_sse [text_delta (py_strip (li_raw ln) ++ [NEWLINE])],
          inr ltc).
Proof.
  intros Hp. unfold handle_line.
  change (py_truthy (PStr (py_strip (li_raw ln))))
    with (negb (bool_decide (py_strip (li_raw ln) = []))).
  destruct (bool_decide (py_strip (li_raw ln) = [])); [reflexivity|].
  cbn [negb]. by rewrite translate_raw.
Qed.

Lemma readlines_read t : readlines (StdoutReadline :: t) = S (readlines t).
Proof. reflexivity. Qed.

Lemma readlines_app a b : readlines (a ++ b) = (readlines a + readlines b)%nat.
Proof. unfold readlines. by rewrite List.filter_app, length_app. Qed.

Lemma readlines_yield cs : readlines (Yield <$> cs) = 0%nat.
Proof. induction cs as [|c cs IH]; [reflexivity | exact IH]. Qed.

(** X11. In raw mode with the hard cutoff disabled, the loop reads until
    the subprocess closes its output, whatever the lines say and however
    long it takes (no line sets [last_turn_completed], so the idle cutoff
    cannot fire); it never raises, and it forwards every line that is not
    blank, stripped and ended by a newline, in order. *)
Theorem read_loop_raw json_loads CFG (idle_after : Z) (start : Q)
    (lines : list line_in) :
  _pretty CFG = false →
  (read_loop json_loads CFG idle_after 0 start lines None).2 = inr tt
  ∧ yielded (read_loop json_loads CFG idle_after 0 start lines None)
    = _iter_sse (text_delta <$> forwarded_lines lines)
  ∧ readlines (read_loop json_loads CFG idle_after 0 start lines None).1
    = reads_until_empty lines.
Proof.
  intros Hp. unfold yielded.
  induction lines as [|ln rest IH]; [by repeat split|].
  destruct IH as (IH1 & IH2 & IH3).
  rewrite read_loop_cons. unfold perform. rewrite !gen_bind_inr.
  cbn [fst snd forwarded_lines reads_until_empty].
  rewrite readlines_app, chunks_of_app.
  change (readlines [StdoutReadline]) with 1%nat.
  change (chunks_of [StdoutReadline]) with (@nil (list N)).
  rewrite app_nil_l.
  destruct (bool_decide (li_raw ln = [])); [by repeat split|].
  rewrite handle_line_raw by done.
  change (hard_cutoff 0 start (li_now_hard ln)) with false.
  change (idle_cutoff idle_after None (li_now_idle ln)) with false.
  cbv iota.
  destruct (bool_decide (py_strip (li_raw ln) = [])).
  - rewrite gen_bind_inr. cbv beta iota. cbn [fst snd app idle_cutoff].
    split; [exact IH1|]. split; [exact IH2|]. by rewrite IH3.
  - rewrite gen_bind_inr. cbv beta iota. cbn [fst snd idle_cutoff].
    split; [exact IH1|]. split.
    + rewrite chunks_of_app, chunks_of_yield, IH2.
      change (text_delta <$> (?x :: ?l)) with ([text_delta x] ++ (text_delta <$> l)).
      by rewrite iter_sse_app.
    + by rewrite readlines_app, readlines_yield, IH3.
Qed.

(** ** The exceptions that can end a stream *)





(** ** Further properties of the resolver *)

(** X13. Whatever the prompt and the configuration, a directory the
    resolver answers either exists (and is not the empty path) or is the
    current directory of the process. *)
Theorem select_cwd_exists_or_cwd (path_exists : list N → py_exn + bool)
    (process_cwd : py_exn + list N) (CFG : gmap (list N) (list N))
    (prompt r : list N) :
  _select_cwd path_exists process_cwd CFG prompt = inr (PathOf r) →
  process_cwd = inr r ∨ (r ≠ [] ∧ path_exists r = inr true).
Proof.
  unfold _select_cwd.
  set (env_cwd := py_strip (cfg_get CFG (u "CODEX_WORKDIR") [])).
  assert (∀ c (other : py_exn + pypath),
            (other = inr (PathOf r) →
             process_cwd = inr r ∨ (r ≠ [] ∧ path_exists r = inr true)) →
            match named_and_exists path_exists c with
            | inl e => inl e
            | inr true => inr (PathOf c)
            | inr false => other
            end = inr (PathOf r) →
            process_cwd = inr r ∨ (r ≠ [] ∧ path_exists r = inr true)) as Hstep.
  { intros c other Ho.
    destruct (named_and_exists path_exists c) as [e|[|]] eqn:E; [done| |exact Ho].
    intros [= ->]. right. by apply usable_test in E. }
  assert (match process_cwd with
          | inl e => inl e
          | inr d => inr (PathOf d)
          end = inr (PathOf r) →
          process_cwd = inr r ∨ (r ≠ [] ∧ path_exists r = inr true)) as Hcwd.
  { destruct process_cwd as [e|d]; [done|]. intros [= ->]. by left. }
  destruct (_parse_cwd_from_prompt prompt) as [cand|].
  - apply Hstep. apply Hstep. exact Hcwd.
  - apply Hstep. exact Hcwd.
Qed.

Lemma re_search_none p text :
  (∀ i, re_match_here p [] [] (drop i text) = None) → re_search p text = None.
Proof.
  induction text as [|c text IH]; intros H.
  - pose proof (H 0%nat) as H0. rewrite drop_0 in H0.
    change (re_search p []) with
      (match re_match_here p [] [] [] with Some g => Some g | None => None end).
    by rewrite H0.
  - change (re_search p (c :: text))
      with (match re_match_here p [] [] (c :: text) with
            | Some g => Some g
            | None => re_search p text
            end).
    pose proof (H 0%nat) as H0. rewrite drop_0 in H0. rewrite H0.
    apply IH. intros i. apply (H (S i)).
Qed.

Lemma select_cwd_no_candidate path_exists process_cwd CFG prompt :
  _parse_cwd_from_prompt prompt = None ∨ _parse_cwd_from_prompt prompt = Some [] →
  _select_cwd path_exists process_cwd CFG prompt
  = _select_cwd path_exists process_cwd CFG [].
Proof.
  intros H. unfold _select_cwd.
  change (_parse_cwd_from_prompt []) with (@None (list N)).
  by destruct H as [-> | ->].
Qed.

(** X14. A prompt in which the marker stands nowhere names no directory,
    and the resolver handles it as it handles the empty prompt. *)
Theorem parse_cwd_no_marker (text : list N) :
  (∀ i, marker_at (drop i text) = false) →
  _parse_cwd_from_prompt text = None
  ∧ ∀ path_exists process_cwd CFG,
      _select_cwd path_exists process_cwd CFG text
      = _select_cwd path_exists process_cwd CFG [].
Proof.
  intros H.
  assert (_parse_cwd_from_prompt text = None) as Hp.
  { unfold _parse_cwd_from_prompt. rewrite re_search_none; [done|].
    intros i. apply re_match_lits_fail, H. }
  split; [exact Hp|]. intros. apply select_cwd_no_candidate. by left.
Qed.

Lemma cwd_group_fails o g t :
  Forall (λ c, c = NEWLINE) t →
  re_match_here [ROpen; RPlus re_dot; RClose] o g t = None.
Proof. intros [|c t' -> _]; reflexivity. Qed.

Lemma greedy_blank_newlines o g t :
  Forall (λ c, c = NEWLINE) t →
  re_greedy py_isspace (re_match_here [ROpen; RPlus re_dot; RClose] o g) t = None.
Proof.
  induction 1 as [|c t -> Ht IH]; [reflexivity|].
  cbn [re_greedy]. change (py_isspace NEWLINE) with true. cbv iota.
  rewrite IH. apply cwd_group_fails. by constructor.
Qed.

Lemma cwd_group_one o g c t :
  c ≠ NEWLINE → Forall (λ c, c = NEWLINE) t →
  re_match_here [ROpen; RPlus re_dot; RClose] o g (c :: t) = Some [c].
Proof.
  intros Hc Ht.
  apply (cwd_group_match o g [c] t).
  - by exists c, [].
  - intros Hin. apply list_elem_of_singleton in Hin. by subst.
  - destruct Ht as [|c' t' -> _]; [by left | right; by eexists].
Qed.

Lemma greedy_blank_run o g ws :
  Forall (λ c, py_isspace c = true) ws →
  Exists (λ c, c ≠ NEWLINE) ws →
  ∃ grp, re_greedy py_isspace (re_match_here [ROpen; RPlus re_dot; RClose] o g) ws
         = Some grp
         ∧ Forall (λ c, py_isspace c = true) grp.
Proof.
  induction ws as [|c ws IH]; intros Hws Hex; [by apply Exists_nil in Hex|].
  apply Forall_cons in Hws as [Hc Hws].
  cbn [re_greedy]. rewrite Hc.
  destruct (decide (Forall (λ c, c = NEWLINE) ws)) as [Hnl | Hnl].
  - rewrite greedy_blank_newlines by done.
    apply Exists_cons in Hex as [Hex | Hex].
    + rewrite cwd_group_one by done. eexists. split; [done|]. by constructor.
    + exfalso. apply Exists_exists in Hex as (x & Hx & Hne).
      rewrite Forall_forall in Hnl. by apply Hne, Hnl.
  - destruct IH as (grp & -> & Hg); [done| |by exists grp].
    apply not_Forall_Exists in Hnl; [done|]. intros x. apply _.
Qed.

Lemma lstrip_by_all f s : Forall (λ c, f c = true) s → lstrip_by f s = [].
Proof. induction 1 as [|c s Hc _ IH]; [done|]. simpl. by rewrite Hc. Qed.

Lemma clean_cwd_blank g : Forall (λ c, py_isspace c = true) g → clean_cwd g = [].
Proof.
  intros H. unfold clean_cwd, py_strip, strip_by.
  by rewrite (lstrip_by_all _ _ H).
Qed.

(** X15. A marker followed by nothing but blanks up to the end of the
    prompt (at least one of them not a newline) names the empty path, which
    the resolver ignores: the request runs where the empty prompt would. *)
Theorem parse_cwd_blank_path (pre m ws : list N) :
  List.map ascii_lower m = u "working directory:" →
  (∀ i, (i < length pre)%nat → marker_at (drop i (pre ++ m ++ ws)) = false) →
  Forall (λ c, py_isspace c = true) ws →
  Exists (λ c, c ≠ NEWLINE) ws →
  _parse_cwd_from_prompt (pre ++ m ++ ws) = Some []
  ∧ ∀ path_exists process_cwd CFG,
      _select_cwd path_exists process_cwd CFG (pre ++ m ++ ws)
      = _select_cwd path_exists process_cwd CFG [].
Proof.
  intros Hm Hpre Hws Hex.
  assert (_parse_cwd_from_prompt (pre ++ m ++ ws) = Some []) as Hp.
  { unfold _parse_cwd_from_prompt.
    rewrite re_search_skip.
    2:{ intros i Hi. apply re_match_lits_fail. by apply Hpre. }
    destruct (greedy_blank_run [] [] ws Hws Hex) as (grp & Hg & Hblank).
    erewrite re_search_here.
    - by rewrite (clean_cwd_blank _ Hblank).
    - unfold cwd_marker_re.
      rewrite re_match_lits_app by (by apply ascii_ci_match). exact Hg. }
  split; [exact Hp|]. intros. apply select_cwd_no_candidate. by right.
Qed.

(** X16. Quotes are taken off in a fixed order, double quotes first: a
    path in single quotes inside double quotes comes out bare, while a
    path in double quotes inside single quotes keeps its double quotes. *)
Theorem clean_cwd_nested_quotes (p : list N) :
  plain_ends p →
  clean_cwd (DQUOTE :: SQUOTE :: p ++ [SQUOTE; DQUOTE]) = p
  ∧ clean_cwd (SQUOTE :: DQUOTE :: p ++ [DQUOTE; SQUOTE]) = DQUOTE :: p ++ [DQUOTE].
Proof.
  intros (a & b & Ha & Hb & Ha1 & Ha2 & Hb1 & Hb2).
  assert (∀ q1 q2 : N, q1 :: q2 :: p ++ [q2; q1] = q1 :: (q2 :: p ++ [q2]) ++ [q1])
    as Hshape by (intros; simpl; by rewrite <- app_assoc).
  assert (∀ (f : N → bool) q r, f q = false →
            strip_by f (q :: r ++ [q]) = q :: r ++ [q]) as Hkeep.
  { intros f q r Hq. apply strip_by_keep; intros x.
    - rewrite head_wrapped. by intros [= <-].
    - rewrite last_wrapped. by intros [= <-]. }
  assert (∀ q q', q ≠ q' → a ≠ q → b ≠ q →
            strip_by (char_in [q]) (q :: (q' :: p ++ [q']) ++ [q]) = q' :: p ++ [q'])
    as Hpeel2.
  { intros q q' Hq Haq Hbq. apply strip_by_wrapped.
    - by apply char_in_single.
    - exists q'. split; [done | by apply char_in_single_ne].
    - exists q'. rewrite last_wrapped. split; [done | by apply char_in_single_ne]. }
  assert (∀ q, a ≠ q → b ≠ q → strip_by (char_in [q]) (q :: p ++ [q]) = p) as Hpeel.
  { intros q Haq Hbq. apply strip_by_wrapped.
    - by apply char_in_single.
    - exists a. split; [done | by apply char_in_single_ne].
    - exists b. split; [done | by apply char_in_single_ne]. }
  unfold clean_cwd, py_strip, py_strip_chars. rewrite !Hshape. split.
  - rewrite (Hkeep py_isspace) by reflexivity.
    rewrite Hpeel2 by done. by apply Hpeel.
  - rewrite (Hkeep py_isspace) by reflexivity.
    rewrite (Hkeep (char_in [DQUOTE])) by reflexivity.
    by rewrite Hpeel2.
Qed.

(** * Properties of the profile switchers *)

(** ** Dicts *)

Lemma dict_get_set_eq d k v : dict_get (dict_set d k v) k = Some v.
Proof.
  induction d as [|[k' v'] d IH]; simpl.
  - by rewrite bool_decide_eq_true_2.
  - destruct (bool_decide (k' = k)) eqn:E; simpl; by rewrite E.
Qed.

Lemma dict_get_set_ne d k v k' :
  k ≠ k' → dict_get (dict_set d k v) k' = dict_get d k'.
Proof.
  intros Hne. induction d as [|[k0 v0] d IH]; simpl.
  - by rewrite bool_decide_eq_false_2.
  - destruct (bool_decide (k0 = k)) eqn:E; simpl.
    + apply bool_decide_eq_true in E. subst.
      by rewrite bool_decide_eq_false_2.
    + by rewrite IH.
Qed.

Lemma dict_get_pop_eq d k : dict_get (dict_pop d k) k = None.
Proof.
  induction d as [|[k' v'] d IH]; [done|]. unfold dict_pop in *. simpl.
  destruct (bool_decide (k' = k)) eqn:E; simpl; [done|]. by rewrite E.
Qed.

Lemma dict_get_pop_ne d k k' :
  k ≠ k' → dict_get (dict_pop d k) k' = dict_get d k'.
Proof.
  intros Hne. induction d as [|[k0 v0] d IH]; [done|]. unfold dict_pop in *. simpl.
  destruct (bool_decide (k0 = k)) eqn:E; simpl.
  - apply bool_decide_eq_true in E. subst. by rewrite bool_decide_eq_false_2.
  - by rewrite IH.
Qed.

Lemma dict_get_pops d ks k :
  dict_get (foldl dict_pop d ks) k = if bool_decide (k ∈ ks) then None else dict_get d k.
Proof.
  revert d. induction ks as [|k0 ks IH]; intros d; [done|].
  cbn [foldl]. rewrite IH.
  destruct (decide (k = k0)) as [-> | Hne].
  - rewrite (bool_decide_eq_true_2 (k0 ∈ k0 :: ks)) by left.
    rewrite dict_get_pop_eq. by destruct (bool_decide (k0 ∈ ks)).
  - rewrite dict_get_pop_ne by done.
    destruct (bool_decide (k ∈ ks)) eqn:E.
    + apply bool_decide_eq_true in E.
      by rewrite (bool_decide_eq_true_2 (k ∈ k0 :: ks)) by (by right).
    + apply bool_decide_eq_false in E.
      rewrite (bool_decide_eq_false_2 (k ∈ k0 :: ks)); [done|].
      intros [->|H]%elem_of_cons; done.
Qed.

Lemma dict_get_not_in d k : k ∉ d.*1 → dict_get d k = None.
Proof.
  induction d as [|[k' v'] d IH]; [done|]. simpl. intros H.
  rewrite bool_decide_eq_false_2.
  - apply IH. intros Hin. apply H. by right.
  - intros ->. apply H. by left.
Qed.

Lemma dict_get_in d k v : dict_get d k = Some v → k ∈ d.*1.
Proof.
  induction d as [|[k' v'] d IH]; [done|]. simpl.
  destruct (bool_decide (k' = k)) eqn:E.
  - apply bool_decide_eq_true in E. subst. intros _. by left.
  - intros H. right. by apply IH.
Qed.

(** [update] with a dict: its values win, the other keys are kept. *)
Lemma dict_get_update d kvs k :
  NoDup kvs.*1 →
  dict_get (dict_update d kvs) k
  = match dict_get kvs k with
    | Some v => Some v
    | None => dict_get d k
    end.
Proof.
  unfold dict_update. revert d. induction kvs as [|[k0 v0] kvs IH]; intros d Hnd; [done|].
  apply NoDup_cons in Hnd as [Hk0 Hnd]. cbn [foldl fst snd]. rewrite IH by done.
  simpl. destruct (bool_decide (k0 = k)) eqn:E.
  - apply bool_decide_eq_true in E. subst.
    rewrite (dict_get_not_in kvs k) by done. apply dict_get_set_eq.
  - apply bool_decide_eq_false in E.
    destruct (dict_get kvs k); [done|]. by apply dict_get_set_ne.
Qed.

Lemma dict_set_keys d k v :
  (dict_set d k v).*1 = if bool_decide (k ∈ d.*1) then d.*1 else d.*1 ++ [k].
Proof.
  induction d as [|[k' v'] d IH].
  - by rewrite bool_decide_eq_false_2 by apply not_elem_of_nil.
  - cbn [dict_set]. destruct (bool_decide (k' = k)) eqn:E.
    + apply bool_decide_eq_true in E. subst. rewrite !fmap_cons. cbn [fst].
      by rewrite bool_decide_eq_true_2 by left.
    + apply bool_decide_eq_false in E. rewrite !fmap_cons, IH. cbn [fst].
      destruct (bool_decide (k ∈ d.*1)) eqn:E2.
      * apply bool_decide_eq_true in E2.
        by rewrite bool_decide_eq_true_2 by (by right).
      * apply bool_decide_eq_false in E2.
        rewrite bool_decide_eq_false_2; [done|].
        intros [->|H]%elem_of_cons; done.
Qed.

Lemma dict_set_NoDup d k v : NoDup d.*1 → NoDup (dict_set d k v).*1.
Proof.
  intros H. rewrite dict_set_keys.
  destruct (bool_decide (k ∈ d.*1)) eqn:E; [done|].
  apply bool_decide_eq_false in E. apply NoDup_app. split; [done|].
  split; [|apply NoDup_singleton].
  intros x Hx ->%list_elem_of_singleton. done.
Qed.

Lemma dict_get_setdefault d k v k' :
  dict_get (dict_setdefault d k v) k'
  = match dict_get d k' with
    | Some x => Some x
    | None => if bool_decide (k = k') then Some v else None
    end.
Proof.
  unfold dict_setdefault. destruct (dict_get d k) as [x|] eqn:E.
  - destruct (dict_get d k') eqn:E'; [done|].
    rewrite bool_decide_eq_false_2; [done|]. intros ->. congruence.
  - destruct (decide (k = k')) as [-> | Hne].
    + by rewrite dict_get_set_eq, E, bool_decide_eq_true_2.
    + rewrite dict_get_set_ne, bool_decide_eq_false_2 by done.
      by destruct (dict_get d k').
Qed.

(** ** [_wipe_env] *)

(** X17. [_wipe_env] leaves none of the ten keys it names, keeps every
    other entry of a dict, and answers the empty dict for anything that is
    not a dict. *)
Theorem wipe_env_clears :
  (∀ env k, k ∈ keys_to_clear → dict_get (_wipe_env env) k = None)
  ∧ (∀ d k, k ∉ keys_to_clear → dict_get (_wipe_env (PDict d)) k = dict_get d k)
  ∧ (∀ env, (∀ d, env ≠ PDict d) → _wipe_env env = []).
Proof.
  split; [|split].
  - intros env k Hk. destruct env; try reflexivity.
    cbn [_wipe_env]. by rewrite dict_get_pops, bool_decide_eq_true_2.
  - intros d k Hk. cbn [_wipe_env]. by rewrite dict_get_pops, bool_decide_eq_false_2.
  - intros env H. destruct env; try reflexivity. by destruct (H d).
Qed.

(** ** [_parse_env_args] *)

Lemma parse_env_args_no_env argv clean extra :
  u "--env" ∉ argv →
  parse_env_args_from false argv clean extra = (clean ++ argv, extra).
Proof.
  revert clean. induction argv as [|t argv IH]; intros clean H.
  - by rewrite app_nil_r.
  - cbn [parse_env_args_from andb].
    rewrite bool_decide_eq_false_2 by (intros ->; apply H; by left).
    rewrite IH by (intros Hin; apply H; by right).
    by rewrite <- app_assoc.
Qed.

(** X18. Without an [--env] token the arguments come back unchanged and
    no variable is set. *)
Theorem parse_env_args_plain (argv : list (list N)) :
  u "--env" ∉ argv → _parse_env_args argv = (argv, []).
Proof. intros H. unfold _parse_env_args. by rewrite parse_env_args_no_env. Qed.

Lemma parse_env_args_kept in_env argv clean extra :
  ∃ kept,
    (parse_env_args_from in_env argv clean extra).1 = clean ++ kept
    ∧ kept `sublist_of` argv
    ∧ (u "--env" ∉ kept)
    ∧ ∀ t, t ∈ argv → startswith (u "--") t = true → t ≠ u "--env" → t ∈ kept.
Proof.
  revert in_env clean extra.
  induction argv as [|t argv IH]; intros in_env clean extra.
  - exists []. rewrite app_nil_r. repeat split; [done|apply not_elem_of_nil|].
    intros t Ht. by apply elem_of_nil in Ht.
  - cbn [parse_env_args_from].
    destruct (in_env && negb (startswith (u "--") t)) eqn:E1.
    + destruct (IH true clean (add_env_pair t extra)) as (kept & H1 & H2 & H3 & H4).
      exists kept. repeat split; [done | by apply sublist_cons | done |].
      intros t' [->|Ht']%elem_of_cons Hs Hne; [|by apply H4].
      apply andb_true_iff in E1 as [_ E1]. by rewrite Hs in E1.
    + destruct (bool_decide (t = u "--env")) eqn:E2.
      * apply bool_decide_eq_true in E2.
        destruct (IH true clean extra) as (kept & H1 & H2 & H3 & H4).
        exists kept. repeat split; [done | by apply sublist_cons | done |].
        intros t' [->|Ht']%elem_of_cons Hs Hne; [done | by apply H4].
      * apply bool_decide_eq_false in E2.
        destruct (IH false (clean ++ [t]) extra) as (kept & H1 & H2 & H3 & H4).
        exists (t :: kept). rewrite H1, <- app_assoc.
        repeat split; [by apply sublist_skip | |].
        -- intros [Heq|Hin]%elem_of_cons; [by subst | done].
        -- intros t' [->|Ht']%elem_of_cons Hs Hne; [by left | right; by apply H4].
Qed.

(** X19. The arguments that come back are arguments that were given, in
    their order, without any [--env]; and every other option (a token that
    starts with two dashes) comes back, wherever it stood: an option is
    never taken for the value of an [--env]. *)
Theorem parse_env_args_keeps_options (argv : list (list N)) :
  (_parse_env_args argv).1 `sublist_of` argv
  ∧ (u "--env" ∉ (_parse_env_args argv).1)
  ∧ ∀ t, t ∈ argv → startswith (u "--") t = true → t ≠ u "--env" →
         t ∈ (_parse_env_args argv).1.
Proof.
  unfold _parse_env_args.
  destruct (parse_env_args_kept false argv [] []) as (kept & -> & H).
  exact H.
Qed.

Lemma dict_set_Forall (P : list N * pyval → Prop) d k v :
  Forall P d → (∀ k', P (k', v)) → Forall P (dict_set d k v).
Proof.
  intros Hd Hv. induction Hd as [|[k' v'] d Hkv Hd IH]; simpl.
  - by repeat constructor.
  - destruct (bool_decide (k' = k)); constructor; auto.
Qed.

Lemma add_env_pair_ok pair extra : env_dict_ok extra → env_dict_ok (add_env_pair pair extra).
Proof.
  intros (Hnd & Hne & Hstr). unfold add_env_pair.
  destruct (split_eq pair) as [[k v]|]; [|done].
  destruct (py_truthy (PStr (py_strip k))) eqn:E; [|done].
  repeat split.
  - by apply dict_set_NoDup.
  - rewrite dict_set_keys. destruct (bool_decide (py_strip k ∈ extra.*1)); [done|].
    intros [H|H]%elem_of_app; [done|].
    apply list_elem_of_singleton in H. rewrite <- H in E. done.
  - by apply dict_set_Forall.
Qed.

Lemma parse_env_args_extra_ok in_env argv clean extra :
  env_dict_ok extra → env_dict_ok (parse_env_args_from in_env argv clean extra).2.
Proof.
  revert in_env clean extra.
  induction argv as [|t argv IH]; intros in_env clean extra H; [done|].
  cbn [parse_env_args_from].
  destruct (in_env && negb (startswith (u "--") t)).
  - apply IH. by apply add_env_pair_ok.
  - destruct (bool_decide (t = u "--env")); by apply IH.
Qed.

(** X20. The variables that come back form a dict of strings: no name
    twice, no empty name. *)
Theorem parse_env_args_extra_is_dict (argv : list (list N)) :
  NoDup (_parse_env_args argv).2.*1
  ∧ ([] ∉ (_parse_env_args argv).2.*1)
  ∧ Forall (λ kv, is_str kv.2 = true) (_parse_env_args argv).2.
Proof.
  apply parse_env_args_extra_ok. repeat split; [constructor | apply not_elem_of_nil | constructor].
Qed.

(** X21. The usual call: options, then [--env] and one [NAME=VALUE], then
    further options.  The options come back and the variable is set, with
    name and value stripped and the value cut at the first [=] only. *)
Theorem parse_env_args_one_pair (before after : list (list N)) (pair : list N) :
  u "--env" ∉ before → u "--env" ∉ after →
  startswith (u "--") pair = false →
  (after = [] ∨ ∃ t rest, after = t :: rest ∧ startswith (u "--") t = true) →
  _parse_env_args (before ++ u "--env" :: pair :: after)
  = (before ++ after, add_env_pair pair []).
Proof.
  intros Hb Ha Hp Hafter. unfold _parse_env_args.
  assert (∀ clean,
    parse_env_args_from false (before ++ u "--env" :: pair :: after) clean []
    = parse_env_args_from true (pair :: after) (clean ++ before) []) as Hpre.
  { clear Hafter Ha. induction before as [|t before IH]; intros clean.
    - rewrite app_nil_r. cbn [app parse_env_args_from andb].
      by rewrite bool_decide_eq_true_2.
    - cbn [app parse_env_args_from andb].
      rewrite bool_decide_eq_false_2 by (intros ->; apply Hb; by left).
      rewrite IH by (intros Hin; apply Hb; by right).
      by rewrite <- app_assoc. }
  rewrite Hpre. cbn [parse_env_args_from app]. rewrite Hp. cbn [andb negb].
  destruct Hafter as [-> | (t & rest & -> & Ht)].
  - by rewrite app_nil_r.
  - cbn [parse_env_args_from]. rewrite Ht. cbn [andb negb].
    rewrite bool_decide_eq_false_2 by (intros ->; apply Ha; by left).
    rewrite parse_env_args_no_env by (intros Hin; apply Ha; by right).
    by rewrite <- !app_assoc.
Qed.

(** ** The [env] a switch writes *)

Lemma relay_env_NoDup : NoDup relay_env.*1.
Proof. apply (bool_decide_unpack _). by vm_compute. Qed.

Lemma glm_env_NoDup key : NoDup (glm_env key).*1.
Proof. apply (bool_decide_unpack _). by vm_compute. Qed.

(** The [env] after lines 96 to 98. *)
Lemma dict_get_extra extra_env env0 k :
  (∀ e, extra_env = Some e → NoDup e.*1) →
  dict_get
    (match extra_env with
     | Some e => if py_truthy (PDict e) then dict_update (_wipe_env env0) e else _wipe_env env0
     | None => _wipe_env env0
     end) k
  = kept_setting extra_env env0 k.
Proof.
  intros Hnd. unfold kept_setting. destruct extra_env as [e|]; [|done].
  destruct e as [|kv e]; [done|].
  change (py_truthy (PDict (kv :: e))) with true. cbv iota.
  rewrite dict_get_update by (by apply Hnd). done.
Qed.

Lemma kept_setting_key extra_env env0 k :
  k ∈ keys_to_clear →
  py_get_opt (kept_setting extra_env env0 k) = py_get (default [] extra_env) k.
Proof.
  intros Hk. unfold kept_setting, py_get, dict_get_or, py_get_opt.
  destruct (dict_get (default [] extra_env) k); [done|].
  destruct env0; try done. cbn [_wipe_env].
  by rewrite dict_get_pops, bool_decide_eq_true_2.
Qed.

Lemma py_or_absorb a b c : py_or (py_or (py_or (py_or a b) a) b) c = py_or (py_or a b) c.
Proof. unfold py_or. destruct (py_truthy a) eqn:Ea, (py_truthy b) eqn:Eb; by rewrite ?Ea, ?Eb. Qed.

Lemma glm_key_token extra_env env environ :
  py_get env (u "ZAI_API_KEY") = py_get (default [] extra_env) (u "ZAI_API_KEY") →
  py_get env (u "GLM_API_KEY") = py_get (default [] extra_env) (u "GLM_API_KEY") →
  glm_key extra_env env environ = glm_token extra_env environ.
Proof.
  intros Hz Hg. unfold glm_key, glm_token. cbv zeta. rewrite Hz, Hg.
  by rewrite py_or_absorb.
Qed.

(** X22. The [relay] and [glm] profiles: the values of the profile are
    written whatever the settings file held and whatever [--env] gave; a
    key the profile does not name has the value given with [--env], else
    the value of the file unless a switch clears that key.  The token of
    [glm] is the first non-empty of [ZAI_API_KEY] and [GLM_API_KEY] given
    with [--env], then of the two in the environment of the process, else
    a placeholder: a key kept in the settings file is never used. *)
Theorem profile_env_profile_wins (extra_env : option (list (list N * pyval)))
    (environ : gmap (list N) (list N)) (env0 : pyval) :
  (∀ e, extra_env = Some e → NoDup e.*1) →
  (∃ env, profile_env (u "relay") extra_env environ env0 = inr env
     ∧ ∀ k, dict_get env k
            = match dict_get relay_env k with
              | Some v => Some v
              | None => kept_setting extra_env env0 k
              end)
  ∧ (∃ env, profile_env (u "glm") extra_env environ env0 = inr env
     ∧ ∀ k, dict_get env k
            = match dict_get (glm_env (glm_token extra_env environ)) k with
              | Some v => Some v
              | None => kept_setting extra_env env0 k
              end).
Proof.
  intros Hnd. split.
  - eexists. split; [reflexivity|]. intros k.
    rewrite dict_get_update by apply relay_env_NoDup.
    by rewrite dict_get_extra.
  - eexists. split; [reflexivity|]. intros k.
    rewrite dict_get_update by apply glm_env_NoDup.
    rewrite glm_key_token.
    + by rewrite dict_get_extra.
    + unfold py_get at 1, dict_get_or. rewrite dict_get_extra by done.
      apply (kept_setting_key extra_env env0 (u "ZAI_API_KEY")).
      apply (bool_decide_unpack _). by vm_compute.
    + unfold py_get at 1, dict_get_or. rewrite dict_get_extra by done.
      apply (kept_setting_key extra_env env0 (u "GLM_API_KEY")).
      apply (bool_decide_unpack _). by vm_compute.
Qed.

(** X23. The [claude] profile: a value given with [--env] is written,
    also for a model, an endpoint or a token; the three model names are
    defaults for what [--env] did not give; no other cleared key comes
    back, so without [--env] the endpoint and the token are gone. *)
Theorem profile_env_claude (extra_env : option (list (list N * pyval)))
    (environ : gmap (list N) (list N)) (env0 : pyval) :
  (∀ e, extra_env = Some e → NoDup e.*1) →
  ∃ env, profile_env (u "claude") extra_env environ env0 = inr env
    ∧ (∀ k, dict_get env k
            = match kept_setting extra_env env0 k with
              | Some v => Some v
              | None => dict_get claude_defaults k
              end)
    ∧ (∀ k, k ∈ keys_to_clear → dict_get claude_defaults k = None →
            dict_get env k = dict_get (default [] extra_env) k).
Proof.
  intros Hnd. eexists. split; [reflexivity|].
  assert (∀ k, dict_get
     (dict_setdefault
        (dict_setdefault
           (dict_setdefault
              match extra_env with
              | Some e => if py_truthy (PDict e) then dict_update (_wipe_env env0) e else _wipe_env env0
              | None => _wipe_env env0
              end
              (u "ANTHROPIC_DEFAULT_HAIKU_MODEL") (PStr (u "claude-haiku-4-5")))
           (u "ANTHROPIC_DEFAULT_SONNET_MODEL") (PStr (u "claude-sonnet-4-5")))
        (u "ANTHROPIC_DEFAULT_OPUS_MODEL") (PStr (u "claude-opus-4-1"))) k
     = match kept_setting extra_env env0 k with
       | Some v => Some v
       | None => dict_get claude_defaults k
       end) as H.
  { intros k. rewrite !dict_get_setdefault, dict_get_extra by done.
    destruct (kept_setting extra_env env0 k); [done|].
    unfold claude_defaults. cbn [dict_get].
    destruct (bool_decide (u "ANTHROPIC_DEFAULT_HAIKU_MODEL" = k)); [done|].
    destruct (bool_decide (u "ANTHROPIC_DEFAULT_SONNET_MODEL" = k)); [done|].
    done. }
  split; [exact H|].
  intros k Hk Hd. rewrite H, Hd. unfold kept_setting.
  destruct (dict_get (default [] extra_env) k); [done|].
  destruct env0; try done. cbn [_wipe_env].
  by rewrite dict_get_pops, bool_decide_eq_true_2.
Qed.

(** ** The settings object a switch writes *)

Lemma py_or_meta c meta :
  py_or (py_get c (u "meta")) (PDict []) = PDict meta →
  ∀ k, dict_get meta k = old_meta c k.
Proof.
  unfold py_or, py_get, dict_get_or, old_meta.
  destruct (dict_get c (u "meta")) as [v|]; cbn [default from_option id].
  - destruct (py_truthy v) eqn:E.
    + intros ->. done.
    + intros [= <-] k. destruct v as [| | | | | |m]; try done. by destruct m.
  - change (py_truthy PNone) with false. cbv iota. by intros [= <-].
Qed.

(** X24. The object a switch saves for a settings file: the [env] is the
    one of the profile, [meta.current_profile] names the profile, and
    every other key of the file and of its [meta] is kept as it was. *)
Theorem apply_to_cfg_writes (profile_name mode : list N)
    (extra_env : option (list (list N * pyval)))
    (environ : gmap (list N) (list N)) (c : list (list N * pyval)) (cfg' : pyval) :
  apply_to_cfg profile_name mode extra_env environ (PDict c) = inr cfg' →
  ∃ env c' meta',
    profile_env mode extra_env environ (settings_env c) = inr env
    ∧ cfg' = PDict c'
    ∧ dict_get c' (u "env") = Some (PDict env)
    ∧ dict_get c' (u "meta") = Some (PDict meta')
    ∧ dict_get meta' (u "current_profile") = Some (PStr profile_name)
    ∧ (∀ k, k ≠ u "current_profile" → dict_get meta' k = old_meta c k)
    ∧ (∀ k, k ≠ u "env" → k ≠ u "meta" → dict_get c' k = dict_get c k).
Proof.
  unfold apply_to_cfg.
  destruct (profile_env mode extra_env environ (settings_env c)) as [e|env]; [done|].
  cbv zeta.
  destruct (py_or (py_get (dict_set c (u "env") (PDict env)) (u "meta")) (PDict []))
    as [| | | | | |meta] eqn:Hm; try done.
  intros [= <-]. eexists env, _, _. split; [done|]. split; [reflexivity|].
  assert (u "meta" ≠ u "env") as Hne by (by vm_compute).
  repeat split.
  - rewrite dict_get_set_ne by done. apply dict_get_set_eq.
  - apply dict_get_set_eq.
  - apply dict_get_set_eq.
  - intros k Hk. rewrite dict_get_set_ne by done.
    apply py_or_meta. rewrite <- Hm. unfold py_get, dict_get_or.
    by rewrite dict_get_set_ne by done.
  - intros k Hk1 Hk2. by rewrite !dict_get_set_ne by done.
Qed.

Lemma profile_env_known mode extra_env environ env0 :
  mode ∈ known_modes → ∃ env, profile_env mode extra_env environ env0 = inr env.
Proof.
  unfold known_modes. rewrite !elem_of_cons, elem_of_nil.
  intros [-> | [-> | [-> | []]]]; eexists; reflexivity.
Qed.

Lemma profile_env_unknown mode extra_env environ env0 :
  mode ∉ known_modes → profile_env mode extra_env environ env0 = inl ValueError.
Proof.
  unfold known_modes. rewrite !not_elem_of_cons. intros (H1 & H2 & H3 & _).
  unfold profile_env. cbv zeta. by rewrite !bool_decide_eq_false_2.
Qed.

(** X25. What a switch does with one settings file.  Building the object
    to save fails with [AttributeError] when the file holds JSON that is
    not an object, with [ValueError] for a mode that is none of the three,
    with [TypeError] when [meta] is neither a dict nor falsy, and in no
    other case.  A switch of that file alone raises what the building
    raised, with nothing written; otherwise it hands the object to
    [_save], and it saves it, or raises what [_save] raised, which can
    leave the file empty. *)
Theorem apply_to_cfg_fails (profile_name mode : list N)
    (extra_env : option (list (list N * pyval)))
    (environ : gmap (list N) (list N)) :
  (∀ cfg, (∀ c, cfg ≠ PDict c) →
     apply_to_cfg profile_name mode extra_env environ cfg = inl AttributeError)
  ∧ (∀ c, mode ∉ known_modes →
     apply_to_cfg profile_name mode extra_env environ (PDict c) = inl ValueError)
  ∧ (∀ c, mode ∈ known_modes →
     py_truthy (py_get c (u "meta")) = true → (∀ m, py_get c (u "meta") ≠ PDict m) →
     apply_to_cfg profile_name mode extra_env environ (PDict c) = inl TypeError)
  ∧ (∀ c, mode ∈ known_modes →
     py_truthy (py_get c (u "meta")) = false ∨ (∃ m, py_get c (u "meta") = PDict m) →
     ∃ cfg', apply_to_cfg profile_name mode extra_env environ (PDict c) = inr cfg')
  ∧ (∀ json_loads files save_error p,
       save_profiles json_loads files environ save_error profile_name mode extra_env [p]
       = match apply_to_cfg profile_name mode extra_env environ
                 (_load json_loads files p) with
         | inl e => ([], Some e)
         | inr cfg =>
             match save_error p cfg with
             | None => ([Save p cfg], None)
             | Some e => ([SaveFailed p cfg e], Some e)
             end
         end).
Proof.
  assert (u "env" ≠ u "meta") as Hne by (by vm_compute).
  split; [|split; [|split; [|split]]].
  - intros cfg H. destruct cfg; try reflexivity. by destruct (H d).
  - intros c H. unfold apply_to_cfg. by rewrite profile_env_unknown.
  - intros c H Ht Hm. unfold apply_to_cfg.
    destruct (profile_env_known mode extra_env environ (settings_env c) H) as [env ->].
    cbv zeta. unfold py_get, dict_get_or in *. rewrite dict_get_set_ne by done.
    unfold py_or. rewrite Ht.
    destruct (default PNone (dict_get c (u "meta"))) as [| | | | | |m]; try done.
    by destruct (Hm m).
  - intros c H Hm. unfold apply_to_cfg.
    destruct (profile_env_known mode extra_env environ (settings_env c) H) as [env ->].
    cbv zeta. unfold py_get, dict_get_or in *. rewrite dict_get_set_ne by done.
    unfold py_or. destruct Hm as [Hf | [m Hm]].
    + rewrite Hf. by eexists.
    + rewrite Hm. destruct (py_truthy (PDict m)); by eexists.
  - intros json_loads files save_error p. cbn [save_profiles]. unfold _save.
    destruct (apply_to_cfg profile_name mode extra_env environ (_load json_loads files p))
      as [e|cfg]; [reflexivity|].
    destruct (save_error p cfg); reflexivity.
Qed.

(** ** [_apply_profile] *)

Lemma saves_app tr1 tr2 : saves (tr1 ++ tr2) = saves tr1 ++ saves tr2.
Proof. apply omap_app. Qed.

Lemma saves_prints {A} (f : A → list N) (l : list A) :
  saves ((λ x, PrintLine (f x)) <$> l) = [].
Proof. induction l as [|x l IH]; [done|]. exact IH. Qed.

Lemma save_profiles_spec json_loads files environ save_error profile_name mode
    extra_env targets :
  let run := save_profiles json_loads files environ save_error profile_name mode
               extra_env in
  let saved p :=
    apply_to_cfg profile_name mode extra_env environ (_load json_loads files p) in
  (∀ p cfg, (p, cfg) ∈ saves (run targets).1 →
            saved p = inr cfg ∧ save_error p cfg = None)
  ∧ match (run targets).2 with
    | None => (saves (run targets).1).*1 = targets
    | Some e =>
        ∃ p rest, targets = (saves (run targets).1).*1 ++ p :: rest
          ∧ (saved p = inl e
             ∨ ∃ cfg, saved p = inr cfg ∧ save_error p cfg = Some e)
    end.
Proof.
  cbv zeta. induction targets as [|p targets [IH1 IH2]].
  - split; [|done]. intros p cfg H. by apply elem_of_nil in H.
  - cbn [save_profiles]. unfold _save.
    destruct (apply_to_cfg profile_name mode extra_env environ (_load json_loads files p))
      as [e|cfg] eqn:E.
    + split; [intros q cfg H; by apply elem_of_nil in H|].
      exists p, targets. split; [done | by left].
    + destruct (save_error p cfg) as [e|] eqn:Es.
      * split; [intros q cfg' H; by apply elem_of_nil in H|].
        exists p, targets. split; [done|]. right. by exists cfg.
      * destruct (save_profiles json_loads files environ save_error profile_name mode
                    extra_env targets) as [tr r].
        cbn [fst snd app] in *. split.
        -- intros q cfg' [[= -> ->]|H]%elem_of_cons; [done|]. by apply IH1.
        -- destruct r as [e|].
           ++ destruct IH2 as (q & rest & Heq & Hq). exists q, rest.
              split; [|done].
              change (p :: targets = p :: ((saves tr).*1 ++ q :: rest)). by f_equal.
           ++ change (p :: (saves tr).*1 = p :: targets). by f_equal.
Qed.


(** The health check of [_apply_profile] and the loop it guards. *)
Lemma apply_profile_trace json_loads files environ relay_ok path_str save_error
    profile_name mode force_relay extra_env :
  let r := _apply_profile json_loads files environ relay_ok path_str save_error
             profile_name mode force_relay extra_env in
  let run := save_profiles json_loads files environ save_error profile_name mode
               extra_env (switch_targets files) in
  if bool_decide (mode = u "relay") && negb force_relay && negb relay_ok
  then r = ([HealthCheck; PrintLine relay_not_running], None)
  else saves r.1 = saves run.1 ∧ r.2 = run.2.
Proof.
  cbv zeta. unfold _apply_profile. cbv zeta.
  destruct (save_profiles json_loads files environ save_error profile_name mode
              extra_env (switch_targets files)) as [tr r].
  assert (saves (tr ++ [PrintLine ([9989] ++ u " Switched to profile: " ++ profile_name);
                        PrintLine (u "   Updated settings files:")]
                    ++ ((λ p, PrintLine (u "   " ++ [8226] ++ u " " ++ path_str p))
                          <$> switch_targets files))
          = saves tr) as Htail.
  { rewrite !saves_app.
    rewrite (saves_prints (λ p, u "   " ++ [8226] ++ u " " ++ path_str p)).
    cbn [saves omap app]. by rewrite app_nil_r. }
  destruct (bool_decide (mode = u "relay") && negb force_relay), relay_ok;
    cbn [andb negb fst snd]; try reflexivity;
    destruct r; cbn [fst snd]; try done;
    change (saves (HealthCheck :: ?l)) with (saves l); by rewrite ?Htail.
Qed.


(** ** The older switcher *)



(** X28. When the older switcher fails on what the global settings hold,
    it fails before it saves: [AttributeError] when they hold JSON that
    is not an object, [TypeError] when their [meta] is anything but a
    dict, [null] included. *)
Theorem tools_switch_fails (json_loads : list N → option pyval)
    (files : settings_path → option (list N))
    (save_error : settings_path → pyval → option py_exn)
    (profile : list N) (values : list (list N * pyval)) :
  ((∀ s, _load json_loads files GlobalSettings ≠ PDict s) →
     tools_switch json_loads files save_error profile values
     = ([], Some AttributeError))
  ∧ (∀ s v, _load json_loads files GlobalSettings = PDict s →
       dict_get s (u "meta") = Some v → (∀ m, v ≠ PDict m) →
       tools_switch json_loads files save_error profile values = ([], Some TypeError)).
Proof.
  assert (u "env" ≠ u "meta") as Hne by (by vm_compute).
  split.
  - intros H. unfold tools_switch.
    destruct (_load json_loads files GlobalSettings); try reflexivity. by destruct (H d).
  - intros s v Hload Hv Hm. unfold tools_switch. rewrite Hload. cbv zeta.
    unfold tools_write. cbv zeta. unfold py_get, dict_get_or.
    rewrite dict_get_setdefault, dict_get_set_ne, Hv by done.
    cbn [default from_option id].
    destruct v as [| | | | | |m]; try reflexivity. by destruct (Hm m).
Qed.

(** ** [main] *)

Lemma apply_profile_saved json_loads files environ relay_ok path_str save_error
    profile_name mode force_relay extra_env p cfg :
  (p, cfg) ∈ saves (_apply_profile json_loads files environ relay_ok path_str save_error
                      profile_name mode force_relay extra_env).1 →
  apply_to_cfg profile_name mode extra_env environ (_load json_loads files p) = inr cfg.
Proof.
  pose proof (apply_profile_trace json_loads files environ relay_ok path_str save_error
                profile_name mode force_relay extra_env) as Ht.
  cbv zeta in Ht.
  destruct (bool_decide (mode = u "relay") && negb force_relay && negb relay_ok).
  - rewrite Ht. intros H. by apply elem_of_nil in H.
  - destruct Ht as [-> _]. intros H.
    by apply (save_profiles_spec json_loads files environ save_error profile_name mode
                extra_env) in H as [H _].
Qed.

(** X29. A key given on the command line reaches the files: when the
    options ask for [--glm] (and for neither help nor [--claude]) and
    [--env] gave a non-empty [ZAI_API_KEY], every settings file the run
    rewrites gets that key as [ANTHROPIC_AUTH_TOKEN], whatever token or
    key the file or the environment of the process held. *)
Theorem main_glm_key (json_loads : list N → option pyval)
    (files : settings_path → option (list N)) (environ : gmap (list N) (list N))
    (relay_ok : bool) (path_str : settings_path → list N)
    (save_error : settings_path → pyval → option py_exn)
    (argv : list (list N)) (typed key : list N) :
  u "--help" ∉ (_parse_env_args argv).1 →
  u "-h" ∉ (_parse_env_args argv).1 →
  u "--claude" ∉ (_parse_env_args argv).1 →
  u "--glm" ∈ (_parse_env_args argv).1 →
  dict_get (_parse_env_args argv).2 (u "ZAI_API_KEY") = Some (PStr key) →
  key ≠ [] →
  ∀ p cfg,
    (p, cfg) ∈ saves (main json_loads files environ relay_ok path_str save_error
                        argv typed).1 →
    ∃ c env, cfg = PDict c
      ∧ dict_get c (u "env") = Some (PDict env)
      ∧ dict_get env (u "ANTHROPIC_AUTH_TOKEN") = Some (PStr key).
Proof.
  intros Hhelp Hh Hclaude Hglm Hkey Hne p cfg. unfold main.
  pose proof (parse_env_args_extra_ok false argv [] []) as Hok.
  fold (_parse_env_args argv) in Hok.
  destruct (_parse_env_args argv) as [flags extra]. cbn [fst snd] in *.
  destruct Hok as (Hnd & _ & _);
    [repeat split; [constructor | apply not_elem_of_nil | constructor]|].
  cbv zeta.
  rewrite (bool_decide_eq_false_2 _ Hhelp), (bool_decide_eq_false_2 _ Hh),
    (bool_decide_eq_false_2 _ Hclaude), (bool_decide_eq_true_2 _ Hglm).
  cbn [orb]. cbv iota. unfold set_glm. intros Hin.
  apply apply_profile_saved in Hin.
  assert (or_None extra = Some extra) as Hextra by (by destruct extra).
  rewrite Hextra in Hin. unfold apply_to_cfg in Hin.
  destruct (_load json_loads files p) as [| | | | | |c]; try done.
  change (profile_env (u "glm") (Some extra) environ (settings_env c))
    with (inr (B := list (list N * pyval)) (A := py_exn)
            (let env := match Some extra with
                        | Some e => if py_truthy (PDict e)
                                    then dict_update (_wipe_env (settings_env c)) e
                                    else _wipe_env (settings_env c)
                        | None => _wipe_env (settings_env c)
                        end in
             dict_update env (glm_env (glm_key (Some extra) env environ)))) in Hin.
  cbv zeta in Hin.
  set (env1 := match Some extra with
               | Some e => if py_truthy (PDict e)
                           then dict_update (_wipe_env (settings_env c)) e
                           else _wipe_env (settings_env c)
               | None => _wipe_env (settings_env c)
               end) in Hin.
  assert (glm_key (Some extra) env1 environ = PStr key) as Hk.
  { rewrite glm_key_token.
    - unfold glm_token. cbv zeta. cbn [default from_option id].
      unfold py_get at 1 3, dict_get_or. rewrite Hkey. cbn [default from_option id].
      assert (py_truthy (PStr key) = true) as Ht.
      { cbn [py_truthy]. by rewrite bool_decide_eq_false_2. }
      unfold py_or. by rewrite !Ht.
    - unfold py_get at 1, dict_get_or. subst env1.
      rewrite dict_get_extra by (by intros e [= <-]).
      apply (kept_setting_key (Some extra) (settings_env c) (u "ZAI_API_KEY")).
      apply (bool_decide_unpack _). by vm_compute.
    - unfold py_get at 1, dict_get_or. subst env1.
      rewrite dict_get_extra by (by intros e [= <-]).
      apply (kept_setting_key (Some extra) (settings_env c) (u "GLM_API_KEY")).
      apply (bool_decide_unpack _). by vm_compute. }
  rewrite Hk in Hin.
  destruct (py_or _ (PDict [])) as [| | | | | |meta] in Hin; try done.
  injection Hin as <-. eexists _, _. split; [reflexivity|].
  assert (u "meta" ≠ u "env") as Hme by (by vm_compute).
  split.
  - rewrite dict_get_set_ne by done. apply dict_get_set_eq.
  - change (dict_get (dict_update env1 (glm_env (PStr key))) (u "ANTHROPIC_AUTH_TOKEN")
            = Some (PStr key)).
    rewrite dict_get_update by apply glm_env_NoDup. reflexivity.
Qed.

(** ** The shape of a stream *)

Lemma iter_sse_opening :
  _iter_sse opening_items
  = [ u "event: message_start" ++ [NEWLINE];
      dq "data: {'type': 'message_start', 'message': {'id': 'msg_1', 'type': 'message', 'role': 'assistant'}}"
      ++ [NEWLINE; NEWLINE];
      u "event: content_block_start" ++ [NEWLINE];
      dq "data: {'type': 'content_block_start', 'index': 0, 'content_block': {'type': 'text', 'text': ''}}"
      ++ [NEWLINE; NEWLINE] ].
Proof. vm_compute. reflexivity. Qed.

Lemma iter_sse_closing :
  _iter_sse closing_items
  = [ u "event: content_block_stop" ++ [NEWLINE];
      dq "data: {'type': 'content_block_stop', 'index': 0}" ++ [NEWLINE; NEWLINE];
      u "event: message_delta" ++ [NEWLINE];
      dq "data: {'type': 'message_delta', 'delta': {}, 'usage': {'input_tokens': 0, 'output_tokens': 0}}"
      ++ [NEWLINE; NEWLINE];
      u "event: message_stop" ++ [NEWLINE];
      dq "data: {'type': 'message_stop'}" ++ [NEWLINE; NEWLINE] ].
Proof. vm_compute. reflexivity. Qed.

(** X30. Every stream starts with the two opening events, [message_start]
    and [content_block_start], and a stream that no exception ends is
    these two, text deltas, and the three closing events,
    [content_block_stop], [message_delta] with a zeroed usage and
    [message_stop], whichever way the read loop was left: by the end of
    the output, by a cutoff, or because the subprocess did not start. *)
Theorem generate_stream_shape json_loads CFG (prompt_text workdir : list N)
    (idle_after hard_cut : Z) (env : subprocess_env) :
  let g := generate json_loads CFG prompt_text workdir idle_after hard_cut env in
  let opening :=
    [ u "event: message_start" ++ [NEWLINE];
      dq "data: {'type': 'message_start', 'message': {'id': 'msg_1', 'type': 'message', 'role': 'assistant'}}"
      ++ [NEWLINE; NEWLINE];
      u "event: content_block_start" ++ [NEWLINE];
      dq "data: {'type': 'content_block_start', 'index': 0, 'content_block': {'type': 'text', 'text': ''}}"
      ++ [NEWLINE; NEWLINE] ] in
  let closing :=
    [ u "event: content_block_stop" ++ [NEWLINE];
      dq "data: {'type': 'content_block_stop', 'index': 0}" ++ [NEWLINE; NEWLINE];
      u "event: message_delta" ++ [NEWLINE];
      dq "data: {'type': 'message_delta', 'delta': {}, 'usage': {'input_tokens': 0, 'output_tokens': 0}}"
      ++ [NEWLINE; NEWLINE];
      u "event: message_stop" ++ [NEWLINE];
      dq "data: {'type': 'message_stop'}" ++ [NEWLINE; NEWLINE] ] in
  (∃ more, yielded g = opening ++ more)
  ∧ (g.2 = inr tt →
     ∃ texts, yielded g = opening ++ _iter_sse (text_delta <$> texts) ++ closing).
Proof.
  cbv zeta. rewrite <- iter_sse_opening, <- iter_sse_closing.
  split; [apply generate_opens|].
  intros H. unfold yielded.
  destruct (generate json_loads CFG prompt_text workdir idle_after hard_cut env)
    as [tr r] eqn:E.
  cbn [fst snd] in *. subst r.
  apply generate_returns_bracketed in E as [texts ->].
  exists texts. by rewrite !iter_sse_app.
Qed.

(** * The further properties on concrete inputs *)

(** X1 and X2 on a file of three lines. *)
Lemma load_env_keeps_unassigned_witness :
  load_env_lines [u "CODEX_MAX_RUN_SEC=5"; u "# note"] CFG_default !! u "RELAY_PRETTY_LOG"
  = CFG_default !! u "RELAY_PRETTY_LOG".
Proof.
  apply (load_env_keeps_unassigned [u "CODEX_MAX_RUN_SEC=5"; u "# note"] CFG_default
           (u "RELAY_PRETTY_LOG")).
  intros line v [->|[->|[]%elem_of_nil]%elem_of_cons]%elem_of_cons;
    vm_compute; discriminate.
Defined.

Lemma load_env_last_wins_witness :
  load_env_lines ([u "A=1"] ++ u " A = 2 " :: [u "B=3"]) CFG_default !! u "A"
  = Some (u "2").
Proof.
  apply (load_env_last_wins [u "A=1"] [u "B=3"] (u " A = 2 ") CFG_default (u "A") (u "2")).
  - vm_compute. reflexivity.
  - intros l v [->|[]%elem_of_nil]%elem_of_cons. vm_compute. discriminate.
Defined.

Lemma env_assignment_first_eq_witness :
  env_assignment (u "OPTS" ++ 0x3D :: u "a=b") = Some (u "OPTS", u "a=b").
Proof.
  apply (env_assignment_first_eq (u "OPTS") (u "a=b")).
  - vm_compute. reflexivity.
  - vm_compute. discriminate.
  - intros H. vm_compute in H. repeat (apply elem_of_cons in H as [H|H]; [discriminate|]).
    by apply elem_of_nil in H.
Defined.

(** X4 on two messages, one with a string and one with two parts. *)
Lemma gather_prompt_joins_witness :
  gather_prompt
    (Loads (PDict [(u "messages",
       PList [PDict [(u "role", PStr (u "user")); (u "content", PStr (u "hello"))];
              PDict [(u "content",
                 PList [PDict [(u "type", PStr (u "image"))];
                        PDict [(u "type", PStr (u "text")); (u "text", PStr (u "there"))]])]])]))
  = ([], inr (u "hello" ++ [NEWLINE] ++ u "there")).
Proof.
  apply (gather_prompt_joins
           [(u "messages",
             PList [PDict [(u "role", PStr (u "user")); (u "content", PStr (u "hello"))];
                    PDict [(u "content",
                       PList [PDict [(u "type", PStr (u "image"))];
                              PDict [(u "type", PStr (u "text"));
                                     (u "text", PStr (u "there"))]])]])]
           [PDict [(u "role", PStr (u "user")); (u "content", PStr (u "hello"))];
            PDict [(u "content",
               PList [PDict [(u "type", PStr (u "image"))];
                      PDict [(u "type", PStr (u "text")); (u "text", PStr (u "there"))]])]]
           [[u "hello"]; [u "there"]]).
  - reflexivity.
  - constructor; [by apply message_str|]. constructor; [|constructor].
    eapply message_parts; [reflexivity|].
    apply parts_other_type; [vm_compute; reflexivity|].
    eapply parts_text; [reflexivity | reflexivity | constructor].
Defined.

Lemma gather_prompt_empty_witness :
  gather_prompt (LoadsRaises ValueError (u "Expecting value")) = ([], inr [])
  ∧ gather_prompt (Loads (PList [])) = ([], inr [])
  ∧ gather_prompt (Loads (PDict [(u "model", PStr (u "m"))])) = ([], inr [])
  ∧ gather_prompt (LoadsRaises RecursionError (u "maximum recursion depth exceeded"))
    = ([], inl RecursionError).
Proof.
  destruct gather_prompt_empty as (H1 & H2 & H3 & H4).
  split; [|split; [|split]].
  - apply H1. reflexivity.
  - apply H2. reflexivity.
  - apply H3. reflexivity.
  - apply H4. reflexivity.
Defined.

Lemma gather_prompt_malformed_witness :
  gather_prompt (Loads (PList [PInt 1])) = ([], inl AttributeError)
  ∧ gather_prompt (Loads (PDict [(u "messages", PList [PStr (u "hi")])]))
    = ([], inl AttributeError)
  ∧ gather_prompt (Loads (PDict [(u "messages", PInt 3)])) = ([], inl TypeError)
  ∧ gather_prompt
      (Loads (PDict [(u "messages",
         PList [PDict [(u "content",
            PList [PDict [(u "type", PStr (u "text")); (u "text", PInt 1)]])]])]))
    = ([], inl TypeError).
Proof.
  destruct gather_prompt_malformed as (H1 & H2 & H3 & H4).
  split; [|split; [|split]].
  - apply H1; [reflexivity | discriminate].
  - apply (H2 _ (PStr (u "hi")) []); [reflexivity | discriminate].
  - apply (H3 _ (PInt 3)); [reflexivity | discriminate..].
  - apply (H4 _ [(u "content",
                  PList [PDict [(u "type", PStr (u "text")); (u "text", PInt 1)]])]
             [(u "type", PStr (u "text")); (u "text", PInt 1)] (PInt 1));
      reflexivity.
Defined.


Lemma cfg_int_fallback_witness :
  let bad := <[u "CODEX_MAX_RUN_SEC" := u "1.5"]> CFG_default in
  let body := Loads (PDict [(u "messages", PList [PDict [(u "content", PStr (u "hi"))]])]) in
  cfg_int (<[u "CODEX_MAX_RUN_SEC" := []]> CFG_default) py_int_ref
    (u "CODEX_MAX_RUN_SEC") (u "0") = ([], inr 0%Z)
  ∧ cfg_int bad py_int_ref (u "CODEX_MAX_RUN_SEC") (u "0") = ([], inl ValueError)
  ∧ messages json_loads_ref bad py_int_ref two_dirs (inr (u "/home/relay")) path_text
      body (SubprocessEnv Launched None 100 [] [])
    = ([], inl ValueError).
Proof.
  intros bad body. split; [|split].
  - apply (proj1 (cfg_int_fallback (<[u "CODEX_MAX_RUN_SEC" := []]> CFG_default)
                    py_int_ref (u "CODEX_MAX_RUN_SEC") (u "0"))).
    right. vm_compute. reflexivity.
  - apply (proj1 (proj2 (cfg_int_fallback bad py_int_ref (u "CODEX_MAX_RUN_SEC") (u "0")))
             (u "1.5")).
    + vm_compute. reflexivity.
    + discriminate.
    + vm_compute. reflexivity.
  - apply (proj2 (proj2 (cfg_int_fallback bad py_int_ref (u "CODEX_MAX_RUN_SEC") (u "0")))
             json_loads_ref two_dirs (inr (u "/home/relay")) path_text body
             (SubprocessEnv Launched None 100 [] []) (u "hi") (PathOf (u "/home/relay"))).
    + vm_compute. reflexivity.
    + vm_compute. reflexivity.
    + right. split; [exists 10%Z|]; vm_compute; reflexivity.
Defined.

(** X11 on three lines, one of them blank, in raw mode. *)
Lemma read_loop_raw_witness :
  let CFG := <[u "RELAY_PRETTY_LOG" := u "0"]> CFG_default in
  let lines := [LineIn (u " a " ++ [NEWLINE]) 1 1 1; LineIn [NEWLINE] 2 2 2;
                LineIn turn_completed_line 900 900 900] in
  (read_loop json_loads_ref CFG 10 0 0 lines None).2 = inr tt
  ∧ yielded (read_loop json_loads_ref CFG 10 0 0 lines None)
    = _iter_sse [text_delta (u "a" ++ [NEWLINE]);
                 text_delta (py_strip turn_completed_line ++ [NEWLINE])]
  ∧ readlines (read_loop json_loads_ref CFG 10 0 0 lines None).1 = 4%nat.
Proof.
  intros CFG lines.
  apply (read_loop_raw json_loads_ref CFG 10 0 lines). vm_compute. reflexivity.
Defined.


Lemma select_cwd_exists_or_cwd_witness :
  _select_cwd two_dirs (inr (u "/home/relay")) CFG_workdir (u "fix the bug")
  = inr (PathOf (u "/srv/work"))
  ∧ ((inr (u "/home/relay") : py_exn + list N) = inr (u "/srv/work")
     ∨ (u "/srv/work" ≠ [] ∧ two_dirs (u "/srv/work") = inr true)).
Proof.
  assert (_select_cwd two_dirs (inr (u "/home/relay")) CFG_workdir (u "fix the bug")
          = inr (PathOf (u "/srv/work"))) as H by (vm_compute; reflexivity).
  split; [exact H|].
  exact (select_cwd_exists_or_cwd two_dirs (inr (u "/home/relay")) CFG_workdir
           (u "fix the bug") (u "/srv/work") H).
Defined.

Lemma parse_cwd_no_marker_witness :
  _parse_cwd_from_prompt (u "fix it") = None
  ∧ ∀ path_exists process_cwd CFG,
      _select_cwd path_exists process_cwd CFG (u "fix it")
      = _select_cwd path_exists process_cwd CFG [].
Proof.
  apply (parse_cwd_no_marker (u "fix it")).
  intros i. do 6 (destruct i as [|i]; [vm_compute; reflexivity|]).
  change (drop (S (S (S (S (S (S i)))))) (u "fix it")) with (drop i (@nil N)).
  by rewrite drop_nil.
Defined.

Lemma parse_cwd_blank_path_witness :
  _parse_cwd_from_prompt (u "go. " ++ u "Working Directory:" ++ [0x20; NEWLINE]) = Some [].
Proof.
  apply (parse_cwd_blank_path (u "go. ") (u "Working Directory:") [0x20; NEWLINE]).
  - vm_compute. reflexivity.
  - intros i Hi. do 4 (destruct i as [|i]; [vm_compute; reflexivity|]).
    vm_compute in Hi. lia.
  - repeat constructor.
  - left. discriminate.
Defined.

Lemma clean_cwd_nested_quotes_witness :
  clean_cwd (DQUOTE :: SQUOTE :: u "/tmp/x" ++ [SQUOTE; DQUOTE]) = u "/tmp/x"
  ∧ clean_cwd (SQUOTE :: DQUOTE :: u "/tmp/x" ++ [DQUOTE; SQUOTE])
    = DQUOTE :: u "/tmp/x" ++ [DQUOTE].
Proof.
  apply (clean_cwd_nested_quotes (u "/tmp/x")).
  exists 0x2F, 0x78. repeat split; try reflexivity; discriminate.
Defined.

Lemma generate_stream_shape_witness :
  let g := generate json_loads_ref CFG_default (u "hi") (u "/tmp") 10 0
             (SubprocessEnv Launched None 100 [LineIn (u "ok" ++ [NEWLINE]) 101 101 101] []) in
  ∃ texts,
    yielded g
    = [ u "event: message_start" ++ [NEWLINE];
        dq "data: {'type': 'message_start', 'message': {'id': 'msg_1', 'type': 'message', 'role': 'assistant'}}"
        ++ [NEWLINE; NEWLINE];
        u "event: content_block_start" ++ [NEWLINE];
        dq "data: {'type': 'content_block_start', 'index': 0, 'content_block': {'type': 'text', 'text': ''}}"
        ++ [NEWLINE; NEWLINE] ]
      ++ _iter_sse (text_delta <$> texts)
      ++ [ u "event: content_block_stop" ++ [NEWLINE];
           dq "data: {'type': 'content_block_stop', 'index': 0}" ++ [NEWLINE; NEWLINE];
           u "event: message_delta" ++ [NEWLINE];
           dq "data: {'type': 'message_delta', 'delta': {}, 'usage': {'input_tokens': 0, 'output_tokens': 0}}"
           ++ [NEWLINE; NEWLINE];
           u "event: message_stop" ++ [NEWLINE];
           dq "data: {'type': 'message_stop'}" ++ [NEWLINE; NEWLINE] ].
Proof.
  intros g.
  apply (proj2 (generate_stream_shape json_loads_ref CFG_default (u "hi") (u "/tmp") 10 0
                  (SubprocessEnv Launched None 100
                     [LineIn (u "ok" ++ [NEWLINE]) 101 101 101] []))).
  vm_compute. reflexivity.
Defined.

(** X17 on a settings [env]. *)
Lemma wipe_env_clears_witness :
  let env := PDict [(u "ANTHROPIC_BASE_URL", PStr (u "http://x")); (u "EDITOR", PStr (u "vi"))] in
  dict_get (_wipe_env env) (u "ANTHROPIC_BASE_URL") = None
  ∧ dict_get (_wipe_env env) (u "EDITOR") = Some (PStr (u "vi"))
  ∧ _wipe_env (PList []) = [].
Proof.
  intros env. subst env. destruct wipe_env_clears as (H1 & H2 & H3). split; [|split].
  - apply H1. apply (bool_decide_unpack _). vm_compute. exact I.
  - rewrite H2; [reflexivity|]. apply (bool_decide_unpack _). vm_compute. exact I.
  - apply H3. discriminate.
Defined.

Lemma parse_env_args_plain_witness :
  _parse_env_args [u "--relay"; u "--force"] = ([u "--relay"; u "--force"], []).
Proof.
  apply (parse_env_args_plain [u "--relay"; u "--force"]).
  apply (bool_decide_unpack _). vm_compute. exact I.
Defined.

Lemma parse_env_args_keeps_options_witness :
  u "--force" ∈ (_parse_env_args [u "--relay"; u "--env"; u "A=1"; u "--force"]).1.
Proof.
  apply (proj2 (proj2 (parse_env_args_keeps_options
                         [u "--relay"; u "--env"; u "A=1"; u "--force"]))).
  - apply (bool_decide_unpack _). vm_compute. exact I.
  - vm_compute. reflexivity.
  - vm_compute. discriminate.
Defined.

Lemma parse_env_args_extra_is_dict_witness :
  NoDup (_parse_env_args [u "--env"; u "A=1"; u "A=2"; u "=3"]).2.*1.
Proof.
  apply (proj1 (parse_env_args_extra_is_dict [u "--env"; u "A=1"; u "A=2"; u "=3"])).
Defined.

Lemma parse_env_args_one_pair_witness :
  _parse_env_args ([u "--glm"] ++ u "--env" :: u "ZAI_API_KEY = sk=1 " :: [u "--force"])
  = ([u "--glm"] ++ [u "--force"], [(u "ZAI_API_KEY", PStr (u "sk=1"))]).
Proof.
  apply (parse_env_args_one_pair [u "--glm"] [u "--force"] (u "ZAI_API_KEY = sk=1 ")).
  - apply (bool_decide_unpack _). vm_compute. exact I.
  - apply (bool_decide_unpack _). vm_compute. exact I.
  - vm_compute. reflexivity.
  - right. exists (u "--force"), []. split; [reflexivity | vm_compute; reflexivity].
Defined.

(** X22 and X23 on a file that holds a token and one other setting, with
    one variable given on the command line. *)
Lemma profile_env_profile_wins_witness :
  let extra := Some [(u "ANTHROPIC_BASE_URL", PStr (u "http://mine"))] in
  let env0 := PDict [(u "ANTHROPIC_AUTH_TOKEN", PStr (u "old")); (u "EDITOR", PStr (u "vi"))] in
  ∃ env, profile_env (u "relay") extra ∅ env0 = inr env
    ∧ dict_get env (u "ANTHROPIC_BASE_URL") = Some (PStr (u "http://127.0.0.1:9001"))
    ∧ dict_get env (u "ANTHROPIC_AUTH_TOKEN") = Some (PStr (u "local-dev"))
    ∧ dict_get env (u "EDITOR") = Some (PStr (u "vi")).
Proof.
  intros extra env0.
  destruct (proj1 (profile_env_profile_wins extra ∅ env0
              ltac:(intros e [= <-]; apply (bool_decide_unpack _); vm_compute; exact I)))
    as (env & He & Hk).
  exists env. split; [exact He|].
  rewrite !Hk. repeat split; vm_compute; reflexivity.
Defined.

Lemma profile_env_claude_witness :
  let extra := Some [(u "ANTHROPIC_DEFAULT_OPUS_MODEL", PStr (u "mine"))] in
  let env0 := PDict [(u "ANTHROPIC_BASE_URL", PStr (u "http://old")); (u "EDITOR", PStr (u "vi"))] in
  ∃ env, profile_env (u "claude") extra ∅ env0 = inr env
    ∧ dict_get env (u "ANTHROPIC_DEFAULT_OPUS_MODEL") = Some (PStr (u "mine"))
    ∧ dict_get env (u "ANTHROPIC_DEFAULT_HAIKU_MODEL") = Some (PStr (u "claude-haiku-4-5"))
    ∧ dict_get env (u "ANTHROPIC_BASE_URL") = None
    ∧ dict_get env (u "EDITOR") = Some (PStr (u "vi")).
Proof.
  intros extra env0.
  destruct (profile_env_claude extra ∅ env0
              ltac:(intros e [= <-]; apply (bool_decide_unpack _); vm_compute; exact I))
    as (env & He & Hk & _).
  exists env. split; [exact He|].
  rewrite !Hk. repeat split; vm_compute; reflexivity.
Defined.

(** X24 to X26 on settings files that hold a model and a [meta]. *)
Lemma apply_to_cfg_writes_witness :
  let c := [(u "model", PStr (u "opus")); (u "meta", PDict [(u "by", PStr (u "me"))])] in
  ∃ cfg' env c' meta',
    apply_to_cfg (u "gpt_code_via_relay") (u "relay") None ∅ (PDict c) = inr cfg'
    ∧ cfg' = PDict c'
    ∧ dict_get c' (u "env") = Some (PDict env)
    ∧ dict_get c' (u "meta") = Some (PDict meta')
    ∧ dict_get meta' (u "current_profile") = Some (PStr (u "gpt_code_via_relay"))
    ∧ dict_get meta' (u "by") = Some (PStr (u "me"))
    ∧ dict_get c' (u "model") = Some (PStr (u "opus")).
Proof.
  intros c.
  destruct (apply_to_cfg (u "gpt_code_via_relay") (u "relay") None ∅ (PDict c))
    as [e|cfg'] eqn:E; [vm_compute in E; discriminate E|].
  destruct (apply_to_cfg_writes (u "gpt_code_via_relay") (u "relay") None ∅ c cfg' E)
    as (env & c' & meta' & _ & Hc & Henv & Hmeta & Hcur & Hold & Hkeep).
  exists cfg', env, c', meta'. split; [reflexivity|].
  repeat split; try assumption.
  - rewrite Hold; [reflexivity | vm_compute; discriminate].
  - rewrite Hkeep; [reflexivity | vm_compute; discriminate..].
Defined.

Lemma apply_to_cfg_fails_witness :
  apply_to_cfg (u "claude") (u "claude") None ∅ (PList []) = inl AttributeError
  ∧ apply_to_cfg (u "x") (u "gpt") None ∅ (PDict []) = inl ValueError
  ∧ apply_to_cfg (u "claude") (u "claude") None ∅ (PDict [(u "meta", PStr (u "m"))])
    = inl TypeError
  ∧ (∃ cfg', apply_to_cfg (u "claude") (u "claude") None ∅ (PDict [(u "meta", PNone)])
             = inr cfg')
  ∧ ∃ cfg',
      save_profiles json_loads_ref (only_global settings_with_model) ∅ global_save_fails
        (u "claude") (u "claude") None [GlobalSettings]
      = ([SaveFailed GlobalSettings cfg' UnicodeEncodeError], Some UnicodeEncodeError).
Proof.
  split; [|split; [|split; [|split]]].
  - apply (proj1 (apply_to_cfg_fails (u "claude") (u "claude") None ∅)). discriminate.
  - apply (proj1 (proj2 (apply_to_cfg_fails (u "x") (u "gpt") None ∅))).
    apply (bool_decide_unpack _). vm_compute. exact I.
  - apply (proj1 (proj2 (proj2 (apply_to_cfg_fails (u "claude") (u "claude") None ∅)))).
    + apply (bool_decide_unpack _). vm_compute. exact I.
    + vm_compute. reflexivity.
    + intros m. vm_compute. discriminate.
  - apply (proj1 (proj2 (proj2 (proj2
             (apply_to_cfg_fails (u "claude") (u "claude") None ∅))))).
    + apply (bool_decide_unpack _). vm_compute. exact I.
    + left. vm_compute. reflexivity.
  - rewrite (proj2 (proj2 (proj2 (proj2
               (apply_to_cfg_fails (u "claude") (u "claude") None ∅))))
               json_loads_ref (only_global settings_with_model) global_save_fails
               GlobalSettings).
    destruct (apply_to_cfg (u "claude") (u "claude") None ∅
                (_load json_loads_ref (only_global settings_with_model) GlobalSettings))
      as [e|cfg'] eqn:E; [vm_compute in E; discriminate E|].
    by exists cfg'.
Defined.



Lemma tools_switch_fails_witness :
  tools_set_glm json_loads_ref (only_global settings_null_meta) saves_succeed
  = ([], Some TypeError).
Proof.
  apply (proj2 (tools_switch_fails json_loads_ref (only_global settings_null_meta)
                  saves_succeed (u "glm_zai") tools_glm_env) [(u "meta", PNone)] PNone).
  - vm_compute. reflexivity.
  - reflexivity.
  - discriminate.
Defined.

(** X29 on the call the usage text shows. *)
Lemma main_glm_key_witness :
  let argv := [u "--glm"; u "--env"; u "ZAI_API_KEY=sk-1"] in
  ∃ p cfg c env,
    (p, cfg) ∈ saves (main json_loads_ref (only_global settings_with_env) ∅ false
                        path_name saves_succeed argv []).1
    ∧ cfg = PDict c
    ∧ dict_get c (u "env") = Some (PDict env)
    ∧ dict_get env (u "ANTHROPIC_AUTH_TOKEN") = Some (PStr (u "sk-1")).
Proof.
  intros argv.
  destruct (saves (main json_loads_ref (only_global settings_with_env) ∅ false
                     path_name saves_succeed argv []).1) as [|[p cfg] rest] eqn:E;
    [vm_compute in E; discriminate E|].
  assert ((p, cfg) ∈ saves (main json_loads_ref (only_global settings_with_env) ∅ false
                              path_name saves_succeed argv []).1) as Hin
    by (rewrite E; left).
  destruct (main_glm_key json_loads_ref (only_global settings_with_env) ∅ false
              path_name saves_succeed argv [] (u "sk-1")) with (p := p) (cfg := cfg)
    as (c & env & Hc & Henv & Htok).
  - apply (bool_decide_unpack _). vm_compute. exact I.
  - apply (bool_decide_unpack _). vm_compute. exact I.
  - apply (bool_decide_unpack _). vm_compute. exact I.
  - apply (bool_decide_unpack _). vm_compute. exact I.
  - vm_compute. reflexivity.
  - discriminate.
  - exact Hin.
  - exists p, cfg, c, env. split; [left|]. by repeat split.
Defined.
